(** * The model manager of [src/model_manager.py], embedded in Rocq

    The Python class [ModelManager] keeps a catalog of model artifacts,
    classifies them against the file system, and downloads them with resume,
    retry and checksum verification.  This file embeds those methods as
    executable functions over an explicit program state and proves the
    properties stated about them.

    Conventions of the embedding:
    - Python [int] is [Z]; [bytes] is [list byte]; [str] is [string]
      (byte strings; [str.lower] is modelled on ASCII letters).
    - A [Path] is the string [str(path)]; [a / b] joins with a slash and
      [p.with_suffix(p.suffix + '.part')] appends [".part"] to the last
      component, hence to the whole string.  Normalisation done by [pathlib]
      and absolute right operands of [/] are not modelled.
    - The file system is a finite map from paths to the contents of regular
      files, all readable and writable.  Directories are implicit: [mkdir]
      creates what is missing and leaves an event, and fails when a regular
      file stands at the path or at one of its ancestors.  [rename] follows
      POSIX: it replaces an existing destination.
    - The server is a queue of replies, one consumed by each
      [requests.get]; an exhausted queue behaves as a refused connection.
    - Every externally visible effect (log call, request, sleep, progress
      callback, file operation) is appended to a single [trace].
    - [hashlib] is external: the two digest functions are section variables.
    - The manifest is given as the value [yaml.safe_load] returns (or as
      missing, or unparsable).  The dataclass [ModelInfo] is embedded with
      fields of the annotated types; the loader is followed as long as it
      stores values of these types. *)

From Stdlib Require Import ZArith Lia Sorted.
From Stdlib.Strings Require Ascii String Byte.
From stdpp Require Import base gmap strings list pretty.

Local Open Scope Z_scope.

Abbreviation byte := Byte.byte.
Abbreviation ascii := Ascii.ascii.

(** ** Data model *)

Inductive ModelStatus :=
| NOT_INSTALLED
| INSTALLED
| OUTDATED
| CORRUPTED
| DOWNLOADING.

#[global] Instance ModelStatus_eq_dec : EqDecision ModelStatus.
Proof. solve_decision. Defined.

(** The dataclass [ModelInfo]; fields carry the types of their annotations. *)
Module ModelInfo.

Record t := Build {
  name : string;
  type : string;
  url : string;
  filename : string;
  size : Z;
  checksum : option string;
  checksum_type : string;
  destination : string;
  status : ModelStatus;
  version : option string;
  description : option string }.

(** The same entry with [status] assigned. *)
Definition with_status (s : ModelStatus) (m : t) : t :=
  {| name := name m; type := type m; url := url m; filename := filename m;
     size := size m; checksum := checksum m;
     checksum_type := checksum_type m; destination := destination m;
     status := s; version := version m; description := description m |}.

End ModelInfo.

(** The immutable attributes of a [ModelManager] instance; the mutable
    [self.models] lives in the program state. *)
Record ModelManager := {
  comfyui_path : string;
  models_config : string;
  cache_dir : string;
  max_retries : Z;
  timeout : Z }.

(** ** Insertion-ordered dictionaries with string keys *)

Definition dict (V : Type) := list (string * V).

Fixpoint dict_get {V} (k : string) (d : dict V) : option V :=
  match d with
  | [] => None
  | (k', v) :: d' => if String.eqb k k' then Some v else dict_get k d'
  end.

(** [d[k] = v]: replace in place when the key is bound, append otherwise. *)
Fixpoint dict_set {V} (k : string) (v : V) (d : dict V) : dict V :=
  match d with
  | [] => [(k, v)]
  | (k', v') :: d' =>
      if String.eqb k k' then (k, v) :: d' else (k', v') :: dict_set k v d'
  end.

(** [d[k].field = ...]: mutate the object bound to [k]. *)
Fixpoint dict_alter {V} (f : V -> V) (k : string) (d : dict V) : dict V :=
  match d with
  | [] => []
  | (k', v) :: d' =>
      if String.eqb k k' then (k', f v) :: d' else (k', v) :: dict_alter f k d'
  end.

Definition keys {V} (d : dict V) : list string := map fst d.

(** ** Strings *)

Definition ascii_lower (c : ascii) : ascii :=
  let n := Ascii.nat_of_ascii c in
  if ((65 <=? n) && (n <=? 90))%nat then Ascii.ascii_of_nat (n + 32) else c.

Fixpoint lower (s : string) : string :=
  match s with
  | EmptyString => EmptyString
  | String c s' => String (ascii_lower c) (lower s')
  end.

(** Truth value of a [str] and of an [Optional[str]]. *)
Definition truthy (s : string) : bool := negb (String.eqb s "").

Definition truthy_opt (o : option string) : bool :=
  match o with
  | None => false
  | Some s => truthy s
  end.

(** [range(lo, hi)] *)
Definition py_range (lo hi : Z) : list Z :=
  map (fun i => lo + Z.of_nat i) (seq 0 (Z.to_nat (hi - lo))).

(** ** Paths *)

Definition path_join (a b : string) : string := a +:+ "/" +:+ b.

Fixpoint path_split (s : string) (cur : string) : string * string :=
  match s with
  | EmptyString => (EmptyString, cur)
  | String c s' =>
      if String.eqb (String c "") "/"
      then let '(dir, base) := path_split s' "" in
           (cur +:+ match dir with
                   | EmptyString => EmptyString
                   | _ => "/" +:+ dir
                   end, base)
      else path_split s' (cur +:+ String c "")
  end.

(** [p.with_suffix(p.suffix + '.part')] *)
Definition part_file (destination : string) : string := destination +:+ ".part".

(** The proper ancestors of a path, outermost first: [a] and [a/b] for
    [a/b/c]. *)
Fixpoint ancestors (s : string) (cur : string) : list string :=
  match s with
  | EmptyString => []
  | String c s' =>
      if String.eqb (String c "") "/"
      then cur :: ancestors s' (cur +:+ "/")
      else ancestors s' (cur +:+ String c "")
  end.

(** ** Exceptions, the server, effects *)

Inductive exn :=
| ModelNotFoundError (model_name model_type expected_path : string)
| ConnectionError
| HTTPError (status_code : Z)
| ChunkedEncodingError
| FileNotFoundError (path : string)
| FileExistsError (path : string)
| NotADirectoryError (path : string)
| YAMLError
| KeyError (key : string)
| TypeError.

(** [str(e)], as the log lines interpolate it.  The texts of the exceptions
    of [requests] and [yaml] and of [TypeError] depend on the library and on
    the interpreter's version; they are abbreviated to the class name. *)
Definition exn_str (e : exn) : string :=
  match e with
  | ModelNotFoundError n _ _ => "Model not found: " +:+ n
  | ConnectionError => "ConnectionError"
  | HTTPError c => pretty c +:+ " Error"
  | ChunkedEncodingError => "ChunkedEncodingError"
  | FileNotFoundError p => "[Errno 2] No such file or directory: '" +:+ p +:+ "'"
  | FileExistsError p => "[Errno 17] File exists: '" +:+ p +:+ "'"
  | NotADirectoryError p => "[Errno 20] Not a directory: '" +:+ p +:+ "'"
  | YAMLError => "YAMLError"
  | KeyError k => "'" +:+ k +:+ "'"
  | TypeError => "TypeError"
  end.

(** One item yielded by [response.iter_content]: a chunk of bytes, or an
    I/O failure raised at that point of the stream. *)
Inductive chunk :=
| Data (bytes : list byte)
| Fault.

Record response := {
  status_code : Z;
  content_length : option Z;      (* the parsed content-length header *)
  body : list chunk }.

Inductive reply :=
| Refused                          (* requests.get itself raises *)
| Answer (r : response).

Inductive level := DEBUG | INFO | SUCCESS | WARNING | ERROR.

Inductive open_mode := WB | AB.

(** The text of a progress message; the rendering of the percentage is a
    floating-point format and is left out. *)
Inductive progress_msg :=
| Iniciando_download (file : string)
| Baixando_bytes (file : string)
| Baixando (model_name : string)
| Download_concluido.

Inductive event :=
| Log (lvl : level) (msg : string)
| Request (url : string) (headers : list (string * string)) (timeout : Z)
| Sleep (seconds : Z)
| Progress (current total : Z) (msg : progress_msg)
| Open (path : string) (mode : open_mode)
| Write (path : string) (data : list byte)
| Rename (src dst : string)
| Unlink (path : string)
| Mkdir (path : string).

Record state := State {
  models : dict ModelInfo.t;
  fs : gmap string (list byte);
  net : list reply;
  trace : list event }.

Inductive result (A : Type) :=
| Ok (a : A)
| Raise (e : exn).
Arguments Ok {A} a.
Arguments Raise {A} e.

(** Computations: state passing, with exceptions that keep the effects
    performed before the raise. *)
Definition M (A : Type) : Type := state -> result A * state.

#[global] Instance M_ret : MRet M := fun A a st => (Ok a, st).

#[global] Instance M_bind : MBind M := fun A B f c st =>
  match c st with
  | (Ok a, st') => f a st'
  | (Raise e, st') => (Raise e, st')
  end.

Definition raise {A} (e : exn) : M A := fun st => (Raise e, st).

(** [try: body  except Exception as e: handler(e)] *)
Definition try_except {A} (body : M A) (handler : exn -> M A) : M A :=
  fun st =>
    match body st with
    | (Ok a, st') => (Ok a, st')
    | (Raise e, st') => handler e st'
    end.

Definition emit (e : event) : M unit := fun st =>
  (Ok tt, State (models st) (fs st) (net st) (trace st ++ [e])).

Definition log (lvl : level) (msg : string) : M unit := emit (Log lvl msg).

Definition get_fs : M (gmap string (list byte)) := fun st => (Ok (fs st), st).

Definition set_fs (f : gmap string (list byte)) : M unit := fun st =>
  (Ok tt, State (models st) f (net st) (trace st)).

Definition get_models : M (dict ModelInfo.t) := fun st => (Ok (models st), st).

Definition set_models (d : dict ModelInfo.t) : M unit := fun st =>
  (Ok tt, State d (fs st) (net st) (trace st)).

Definition when (b : bool) (c : M unit) : M unit := if b then c else mret tt.

(** [path.exists()] *)
Definition path_exists (p : string) : M bool :=
  f ← get_fs; mret (bool_decide (is_Some (f !! p))).

(** [open(p, 'rb').read()] *)
Definition read_file (p : string) : M (list byte) :=
  f ← get_fs;
  match f !! p with
  | Some data => mret data
  | None => raise (FileNotFoundError p)
  end.

(** [open(p, mode)]: ['wb'] creates or truncates, ['ab'] creates when absent. *)
Definition fopen (p : string) (mode : open_mode) : M unit :=
  f ← get_fs;
  set_fs (match mode with
          | WB => <[p := []]> f
          | AB => match f !! p with
                  | Some _ => f
                  | None => <[p := []]> f
                  end
          end);;
  emit (Open p mode).

(** [f.write(data)] on a file opened at [p] *)
Definition fwrite (p : string) (data : list byte) : M unit :=
  f ← get_fs;
  set_fs (alter (fun old => old ++ data) p f);;
  emit (Write p data).

(** [src.rename(dst)] *)
Definition rename (src dst : string) : M unit :=
  f ← get_fs;
  match f !! src with
  | Some data => set_fs (<[dst := data]> (delete src f));; emit (Rename src dst)
  | None => raise (FileNotFoundError src)
  end.

(** [p.unlink(missing_ok=True)] *)
Definition unlink (p : string) : M unit :=
  f ← get_fs; set_fs (delete p f);; emit (Unlink p).

(** [p.mkdir(parents=True, exist_ok=True)]: [os.mkdir] fails with
    [FileExistsError] when a regular file is at [p] and with
    [NotADirectoryError] when one is at an ancestor of [p]; neither is
    forgiven by [exist_ok], which only accepts an existing directory. *)
Definition mkdir (p : string) : M unit :=
  f ← get_fs;
  if bool_decide (is_Some (f !! p)) then raise (FileExistsError p)
  else if existsb (fun a => bool_decide (is_Some (f !! a))) (ancestors p "")
  then raise (NotADirectoryError p)
  else emit (Mkdir p).

(** [time.sleep(seconds)] *)
Definition sleep (seconds : Z) : M unit := emit (Sleep seconds).

(** [progress_callback(current, total, msg)] when a callback was supplied *)
Definition progress (cb : bool) (current total : Z) (msg : progress_msg) : M unit :=
  when cb (emit (Progress current total msg)).

(** [requests.get(url, headers=headers, stream=True, timeout=timeout)] *)
Definition requests_get (url : string) (headers : list (string * string))
    (tmo : Z) : M response := fun st =>
  let st' := State (models st) (fs st) (tl (net st))
                   (trace st ++ [Request url headers tmo]) in
  match net st with
  | Answer r :: _ => (Ok r, st')
  | Refused :: _ | [] => (Raise ConnectionError, st')
  end.

(** [response.raise_for_status()] *)
Definition raise_for_status (r : response) : M unit :=
  if (400 <=? status_code r) && (status_code r <? 600)
  then raise (HTTPError (status_code r))
  else mret tt.

Section Manager.

Set Default Proof Using "Type".

(** [hashlib.md5(data).hexdigest()] and [hashlib.sha256(data).hexdigest()];
    feeding the file in 8192-byte pieces digests their concatenation. *)
Variable md5_hexdigest : list byte -> string.
Variable sha256_hexdigest : list byte -> string.

Variable self : ModelManager.

(** *** [_verify_checksum] *)

Definition hasher (checksum_type : string) : option (list byte -> string) :=
  if String.eqb (lower checksum_type) "md5" then Some md5_hexdigest
  else if String.eqb (lower checksum_type) "sha256" then Some sha256_hexdigest
  else None.

Definition _verify_checksum (file_path : string)
    (expected_checksum : option string) (checksum_type : string) : M bool :=
  match expected_checksum with
  | None => mret true
  | Some expected =>
      if negb (truthy expected) then mret true else
      present ← path_exists file_path;
      if negb present then mret false else
      log DEBUG ("Verificando " +:+ checksum_type +:+ " de "
                 +:+ snd (path_split file_path ""));;
      match hasher checksum_type with
      | None =>
          log WARNING ("Tipo de checksum desconhecido: " +:+ checksum_type);;
          mret true
      | Some digest =>
          data ← read_file file_path;
          let calculated := digest data in
          let is_valid := String.eqb (lower calculated) (lower expected) in
          when (negb is_valid)
            (log ERROR ("Checksum inválido para "
                        +:+ snd (path_split file_path ""));;
             log DEBUG ("Esperado: " +:+ expected);;
             log DEBUG ("Calculado: " +:+ calculated));;
          mret is_valid
      end
  end.

(** *** [_get_model_path] *)

Definition type_paths : dict string :=
  [("xtts", "models/xtts"); ("latentsync", "models/latentsync");
   ("checkpoint", "models/checkpoints"); ("vae", "models/vae");
   ("lora", "models/loras"); ("controlnet", "models/controlnet")].

Definition _get_model_path (model : ModelInfo.t) : string :=
  if truthy (ModelInfo.destination model)
  then path_join (path_join (comfyui_path self) (ModelInfo.destination model))
                 (ModelInfo.filename model)
  else
    let base_path := default "models" (dict_get (ModelInfo.type model) type_paths) in
    path_join (path_join (comfyui_path self) base_path) (ModelInfo.filename model).

(** *** [check_installed] *)

(** [self.models[name].status = s] *)
Definition set_status (name : string) (s : ModelStatus) : M unit :=
  d ← get_models; set_models (dict_alter (ModelInfo.with_status s) name d).

Fixpoint check_items (items : dict ModelInfo.t) (status_dict : dict ModelStatus)
    : M (dict ModelStatus) :=
  match items with
  | [] => mret status_dict
  | (name, model) :: rest =>
      let model_path := _get_model_path model in
      present ← path_exists model_path;
      status ←
        (if negb present then mret NOT_INSTALLED
         else if truthy_opt (ModelInfo.checksum model) then
           ok ← _verify_checksum model_path (ModelInfo.checksum model)
                  (ModelInfo.checksum_type model);
           mret (if negb (ok : bool) then CORRUPTED else INSTALLED)
         else mret INSTALLED);
      set_status name status;;
      check_items rest (dict_set name status status_dict)
  end.

Definition check_installed : M (dict ModelStatus) :=
  d ← get_models; check_items d [].

(** *** [_download_file] *)

(** The body of [for chunk in response.iter_content(...)]. *)
Fixpoint write_chunks (temp_file file : string) (cb : bool) (total_size : Z)
    (chunks : list chunk) (downloaded : Z) : M unit :=
  match chunks with
  | [] => mret tt
  | Fault :: _ => raise ChunkedEncodingError
  | Data [] :: rest => write_chunks temp_file file cb total_size rest downloaded
  | Data data :: rest =>
      fwrite temp_file data;;
      let downloaded := downloaded + Z.of_nat (length data) in
      progress cb downloaded total_size (Baixando_bytes file);;
      write_chunks temp_file file cb total_size rest downloaded
  end.

Definition _download_file (url destination : string) (expected_size : Z)
    (cb : bool) : M unit :=
  let temp_file := part_file destination in
  let file := snd (path_split destination "") in
  f ← get_fs;
  resume_pos ←
    match f !! temp_file with
    | Some data =>
        let resume_pos := Z.of_nat (length data) in
        log INFO ("Resumindo download de " +:+ pretty resume_pos +:+ " bytes");;
        mret resume_pos
    | None => mret 0
    end;
  let headers :=
    if 0 <? resume_pos
    then [("Range", "bytes=" +:+ pretty resume_pos +:+ "-")]
    else [] in
  response ← requests_get url headers (timeout self);
  raise_for_status response;;
  let total_size := default 0 (content_length response) in
  let total_size := if 0 <? resume_pos then total_size + resume_pos else total_size in
  progress cb resume_pos total_size (Iniciando_download file);;
  let downloaded := resume_pos in
  let mode := if 0 <? resume_pos then AB else WB in
  fopen temp_file mode;;
  write_chunks temp_file file cb total_size (body response) downloaded;;
  rename temp_file destination;;
  log INFO ("Download concluído: " +:+ destination).

(** *** [download_model] *)

(** One iteration of the retry loop: [Some b] is [return b], [None] goes on
    with the next attempt. *)
Definition attempt_once (model_name : string) (model : ModelInfo.t)
    (model_path : string) (cb : bool) (attempt : Z) : M (option bool) :=
  try_except
    (log INFO ("Baixando " +:+ model_name +:+ " (tentativa " +:+ pretty attempt
               +:+ "/" +:+ pretty (max_retries self) +:+ ")");;
     _download_file (ModelInfo.url model) model_path (ModelInfo.size model) cb;;
     if truthy_opt (ModelInfo.checksum model) then
       ok ← _verify_checksum model_path (ModelInfo.checksum model)
              (ModelInfo.checksum_type model);
       if (ok : bool) then
         log SUCCESS ("Modelo " +:+ model_name
                      +:+ " baixado e verificado com sucesso");;
         set_status model_name INSTALLED;;
         mret (Some true)
       else
         log ERROR ("Checksum inválido para " +:+ model_name);;
         unlink model_path;;
         if attempt <? max_retries self then mret None else mret (Some false)
     else
       log SUCCESS ("Modelo " +:+ model_name
                    +:+ " baixado com sucesso (sem verificação de checksum)");;
       set_status model_name INSTALLED;;
       mret (Some true))
    (fun e =>
       log ERROR ("Erro ao baixar " +:+ model_name +:+ ": " +:+ exn_str e);;
       if attempt <? max_retries self then
         let wait_time := 2 ^ attempt in
         log INFO ("Aguardando " +:+ pretty wait_time
                   +:+ "s antes de tentar novamente...");;
         sleep wait_time;;
         mret None
       else
         log ERROR ("Falha ao baixar " +:+ model_name +:+ " após "
                    +:+ pretty (max_retries self) +:+ " tentativas");;
         mret (Some false)).

(** [for attempt in range(1, self.max_retries + 1): ...] and the final
    [return False]. *)
Fixpoint retry_loop (model_name : string) (model : ModelInfo.t)
    (model_path : string) (cb : bool) (attempts : list Z) : M bool :=
  match attempts with
  | [] => mret false
  | attempt :: rest =>
      r ← attempt_once model_name model model_path cb attempt;
      match r with
      | Some b => mret b
      | None => retry_loop model_name model model_path cb rest
      end
  end.

Definition download_model (model_name : string) (cb : bool) (force : bool)
    : M bool :=
  d ← get_models;
  match dict_get model_name d with
  | None =>
      raise (ModelNotFoundError model_name "Unknown"
               (path_join (comfyui_path self) "models"))
  | Some model =>
      let model_path := _get_model_path model in
      present ← path_exists model_path;
      verified ←
        (if present && negb force then
           log INFO ("Modelo " +:+ model_name +:+ " já existe em " +:+ model_path);;
           ok ← _verify_checksum model_path (ModelInfo.checksum model)
                  (ModelInfo.checksum_type model);
           if (ok : bool) then
             log SUCCESS ("Modelo " +:+ model_name +:+ " verificado com sucesso");;
             mret true
           else
             log WARNING ("Checksum inválido para " +:+ model_name
                          +:+ ", baixando novamente");;
             mret false
         else mret false);
      if (verified : bool) then mret true else
      mkdir (fst (path_split model_path ""));;
      retry_loop model_name model model_path cb
        (py_range 1 (max_retries self + 1))
  end.

(** *** [download_all] *)

Definition needs_download (skip_existing : bool) (entry : string * ModelStatus)
    : bool :=
  negb skip_existing || negb (bool_decide (snd entry = INSTALLED)).

(** One iteration of the loop over [to_download]. *)
Definition download_nth (cb : bool) (total i : Z) (model_name : string) : M bool :=
  log INFO ("Baixando modelo " +:+ pretty i +:+ "/" +:+ pretty total +:+ ": "
            +:+ model_name);;
  progress cb (i - 1) total (Baixando model_name);;
  download_model model_name cb false.

Fixpoint download_each (cb : bool) (total : Z) (to_download : list string)
    (i successes failures : Z) : M (Z * Z) :=
  match to_download with
  | [] => mret (successes, failures)
  | model_name :: rest =>
      ok ← download_nth cb total i model_name;
      if (ok : bool)
      then download_each cb total rest (i + 1) (successes + 1) failures
      else download_each cb total rest (i + 1) successes (failures + 1)
  end.

Definition download_all (cb : bool) (skip_existing : bool) : M (Z * Z) :=
  log INFO "Iniciando download de todos os modelos";;
  status ← check_installed;
  let to_download :=
    map fst (List.filter (needs_download skip_existing) status) in
  match to_download with
  | [] =>
      log SUCCESS "Todos os modelos já estão instalados";;
      d ← get_models;
      mret (Z.of_nat (length d), 0)
  | _ =>
      let total := Z.of_nat (length to_download) in
      log INFO ("Modelos a baixar: " +:+ pretty total);;
      counts ← download_each cb total to_download 1 0 0;
      progress cb total total Download_concluido;;
      log INFO ("Download finalizado: " +:+ pretty (fst counts) +:+ " sucessos, "
                +:+ pretty (snd counts) +:+ " falhas");;
      mret counts
  end.

(** *** [_load_models_config] and the constructor *)

(** What [yaml.safe_load] returns, for documents of YAML's core schema: null,
    booleans, integers, strings, sequences and mappings (floats, timestamps,
    binary scalars and sets are left out).  A mapping is a Python [dict]: its
    keys are pairwise distinct scalars. *)
#[local] Unset Elimination Schemes.
Inductive yaml :=
| YNull
| YBool (b : bool)
| YInt (n : Z)
| YStr (s : string)
| YList (items : list yaml)
| YMap (items : list (yaml * yaml)).
#[local] Set Elimination Schemes.

(** The manifest file as the loader meets it. *)
Inductive manifest :=
| Missing                         (* [models_config.exists()] is false *)
| Present (parsed : option yaml). (* [None]: [yaml.safe_load] raises *)

(** [bool(v)] *)
Definition yaml_truthy (v : yaml) : bool :=
  match v with
  | YNull => false
  | YBool b => b
  | YInt n => negb (n =? 0)
  | YStr s => truthy s
  | YList [] | YMap [] => false
  | YList _ | YMap _ => true
  end.

(** [v == key] for a [str] [key] *)
Definition is_str (key : string) (v : yaml) : bool :=
  match v with
  | YStr s => String.eqb s key
  | _ => false
  end.

(** [d.get(key)] on the items of a mapping, for a [str] [key] *)
Fixpoint map_get (key : string) (items : list (yaml * yaml)) : option yaml :=
  match items with
  | [] => None
  | (k, v) :: rest => if is_str key k then Some v else map_get key rest
  end.

(** [key in v] for a [str] [key]: a key of a mapping, an item of a sequence,
    a substring of a string; the other values are not containers. *)
Definition contains (key : string) (v : yaml) : M bool :=
  match v with
  | YMap items => mret (bool_decide (is_Some (map_get key items)))
  | YList items => mret (existsb (is_str key) items)
  | YStr s => mret (bool_decide (is_Some (String.index 0 key s)))
  | YNull | YBool _ | YInt _ => raise TypeError
  end.

(** [v[key]] for a [str] [key]: only a mapping can be subscripted with it. *)
Definition subscript (key : string) (v : yaml) : M yaml :=
  match v with
  | YMap items =>
      match map_get key items with
      | Some x => mret x
      | None => raise (KeyError key)
      end
  | _ => raise TypeError
  end.

(** [iter(v)]: what a [for] loop over [v] goes through -- the items of a
    sequence, the keys of a mapping, the characters of a string. *)
Definition iterate (v : yaml) : M (list yaml) :=
  match v with
  | YList items => mret items
  | YMap items => mret (map fst items)
  | YStr s =>
      mret (map (fun c => YStr (String c "")) (String.list_ascii_of_string s))
  | YNull | YBool _ | YInt _ => raise TypeError
  end.

(** [v.get(key, fallback)]; reached for mappings only: the subscripts that
    come first raise on anything else.  A key bound to null gives null, not
    the fallback. *)
Definition get_or (key : string) (fallback : yaml) (v : yaml) : yaml :=
  match v with
  | YMap items => default fallback (map_get key items)
  | _ => fallback
  end.

(** The arguments of the call [ModelInfo(...)]; the dataclass stores them as
    they are, without checking them against its annotations. *)
Record raw_model_info := {
  raw_name : yaml;
  raw_type : yaml;
  raw_url : yaml;
  raw_filename : yaml;
  raw_size : yaml;
  raw_checksum : yaml;
  raw_checksum_type : yaml;
  raw_destination : yaml;
  raw_version : yaml;
  raw_description : yaml }.

Definition make_model_info (model_data : yaml) : M raw_model_info :=
  name ← subscript "name" model_data;
  type ← subscript "type" model_data;
  url ← subscript "url" model_data;
  filename ← subscript "filename" model_data;
  mret {| raw_name := name;
          raw_type := type;
          raw_url := url;
          raw_filename := filename;
          raw_size := get_or "size" (YInt 0) model_data;
          raw_checksum := get_or "checksum" YNull model_data;
          raw_checksum_type := get_or "checksum_type" (YStr "md5") model_data;
          raw_destination := get_or "destination" (YStr "") model_data;
          raw_version := get_or "version" YNull model_data;
          raw_description := get_or "description" YNull model_data |}.

(** [hash(v)] succeeds. *)
Definition hashable (v : yaml) : bool :=
  match v with
  | YList _ | YMap _ => false
  | _ => true
  end.

(** Values of the annotated types [str], [int] and [Optional[str]]. *)
Definition as_str (v : yaml) : option string :=
  match v with
  | YStr s => Some s
  | _ => None
  end.

Definition as_int (v : yaml) : option Z :=
  match v with
  | YInt n => Some n
  | _ => None
  end.

Definition as_optional_str (v : yaml) : option (option string) :=
  match v with
  | YNull => Some None
  | YStr s => Some (Some s)
  | _ => None
  end.

(** The [ModelInfo] built from these arguments, when each of them has the
    type its field is annotated with; [status] takes its default. *)
Definition typed (raw : raw_model_info) : option ModelInfo.t :=
  name ← as_str (raw_name raw);
  type ← as_str (raw_type raw);
  url ← as_str (raw_url raw);
  filename ← as_str (raw_filename raw);
  size ← as_int (raw_size raw);
  checksum ← as_optional_str (raw_checksum raw);
  checksum_type ← as_str (raw_checksum_type raw);
  destination ← as_str (raw_destination raw);
  version ← as_optional_str (raw_version raw);
  description ← as_optional_str (raw_description raw);
  Some {| ModelInfo.name := name;
          ModelInfo.type := type;
          ModelInfo.url := url;
          ModelInfo.filename := filename;
          ModelInfo.size := size;
          ModelInfo.checksum := checksum;
          ModelInfo.checksum_type := checksum_type;
          ModelInfo.destination := destination;
          ModelInfo.status := NOT_INSTALLED;
          ModelInfo.version := version;
          ModelInfo.description := description |}.

(** The loader is followed as long as the catalog holds values of the
    annotated types: a computation of [P] answers [None] where Python would
    go on with a [ModelInfo] one of whose fields has another type (the
    methods above are not defined on such an entry). *)
Definition P (A : Type) : Type := state -> option (result A * state).

#[global] Instance P_ret : MRet P := fun A a st => Some (Ok a, st).

#[global] Instance P_bind : MBind P := fun A B f c st =>
  match c st with
  | Some (Ok a, st') => f a st'
  | Some (Raise e, st') => Some (Raise e, st')
  | None => None
  end.

Definition lift {A} (c : M A) : P A := fun st => Some (c st).

Definition annotated {A} (o : option A) : P A := fun st =>
  match o with
  | Some a => Some (Ok a, st)
  | None => None
  end.

Definition try_except_P {A} (body : P A) (handler : exn -> P A) : P A :=
  fun st =>
    match body st with
    | Some (Ok a, st') => Some (Ok a, st')
    | Some (Raise e, st') => handler e st'
    | None => None
    end.

(** The body of [for model_data in config['models']]; storing under a name
    that cannot be hashed raises. *)
Fixpoint load_entries (entries : list yaml) : P unit :=
  match entries with
  | [] => mret tt
  | model_data :: rest =>
      raw ← lift (make_model_info model_data);
      lift (if hashable (raw_name raw) then mret tt else raise TypeError);;
      model_info ← annotated (typed raw);
      d ← lift get_models;
      lift (set_models (dict_set (ModelInfo.name model_info) model_info d));;
      load_entries rest
  end.

Definition _load_models_config (doc : manifest) : P unit :=
  match doc with
  | Missing =>
      lift (log WARNING ("Arquivo de configuração não encontrado: "
                         +:+ models_config self))
  | Present parsed =>
      try_except_P
        (config ← lift (match parsed with
                        | Some config => mret config
                        | None => raise YAMLError
                        end);
         unusable ← lift (if negb (yaml_truthy config) then mret true
                          else has ← contains "models" config;
                               mret (negb (has : bool)));
         if (unusable : bool) then
           lift (log WARNING "Configuração de modelos vazia ou inválida")
         else
           value ← lift (subscript "models" config);
           entries ← lift (iterate value);
           load_entries entries;;
           d ← lift get_models;
           lift (log INFO ("Carregados " +:+ pretty (Z.of_nat (length d))
                           +:+ " modelos da configuração")))
        (fun e =>
           lift (log ERROR ("Erro ao carregar configuração de modelos: "
                            +:+ exn_str e);;
                 raise e))
  end.

(** [ModelManager.__init__]: create the cache directory, start from an empty
    catalog, load the manifest. *)
Definition __init__ (doc : manifest) : P unit :=
  lift (mkdir (cache_dir self));;
  lift (set_models []);;
  _load_models_config doc.

(** *** [list_required], [get_model_info] *)

Definition list_required : M (list ModelInfo.t) :=
  d ← get_models; mret (map snd d).

Definition get_model_info (model_name : string) : M (option ModelInfo.t) :=
  d ← get_models; mret (dict_get model_name d).

(** *** [validate_integrity] *)

Fixpoint validate_items (items : dict ModelInfo.t) (results : dict bool)
    : M (dict bool) :=
  match items with
  | [] => mret results
  | (name, model) :: rest =>
      let model_path := _get_model_path model in
      present ← path_exists model_path;
      if negb present then
        log WARNING ("Modelo " +:+ name +:+ " não encontrado");;
        validate_items rest (dict_set name false results)
      else if truthy_opt (ModelInfo.checksum model) then
        is_valid ← _verify_checksum model_path (ModelInfo.checksum model)
                     (ModelInfo.checksum_type model);
        (if (is_valid : bool)
         then log SUCCESS ("Modelo " +:+ name +:+ " validado com sucesso")
         else log ERROR ("Modelo " +:+ name +:+ " está corrompido"));;
        validate_items rest (dict_set name is_valid results)
      else
        log INFO ("Modelo " +:+ name
                  +:+ " presente (sem checksum para validar)");;
        validate_items rest (dict_set name true results)
  end.

Definition validate_integrity : M (dict bool) :=
  log INFO "Validando integridade dos modelos";;
  d ← get_models;
  validate_items d [].

(** *** [list_missing], [list_corrupted] *)

Definition names_with (wanted : ModelStatus) (status : dict ModelStatus)
    : list string :=
  map fst (List.filter (fun entry => bool_decide (entry.2 = wanted)) status).

Definition list_missing : M (list string) :=
  status ← check_installed; mret (names_with NOT_INSTALLED status).

Definition list_corrupted : M (list string) :=
  status ← check_installed; mret (names_with CORRUPTED status).

(** * Derived descriptions used in the statements *)

(** The state after some more events, everything else untouched. *)
Definition add_events (st : state) (evs : list event) : state :=
  State (models st) (fs st) (net st) (trace st ++ evs).

Definition is_log (e : event) : Prop :=
  match e with
  | Log _ _ => True
  | _ => False
  end.

(** The verdict of [_verify_checksum] as a function of the file system. *)
Definition verified (f : gmap string (list byte)) (file_path : string)
    (expected_checksum : option string) (checksum_type : string) : bool :=
  match expected_checksum with
  | None => true
  | Some expected =>
      if negb (truthy expected) then true else
      match f !! file_path with
      | None => false
      | Some data =>
          match hasher checksum_type with
          | None => true
          | Some digest => String.eqb (lower (digest data)) (lower expected)
          end
      end
  end.

(** What [check_installed] reports for one model. *)
Definition classify (f : gmap string (list byte)) (model : ModelInfo.t)
    : ModelStatus :=
  let model_path := _get_model_path model in
  match f !! model_path with
  | None => NOT_INSTALLED
  | Some _ =>
      if truthy_opt (ModelInfo.checksum model)
         && negb (verified f model_path (ModelInfo.checksum model)
                    (ModelInfo.checksum_type model))
      then CORRUPTED else INSTALLED
  end.

(** A stream raises at its first [Fault]; the bytes it yields before that. *)
Fixpoint has_fault (chunks : list chunk) : bool :=
  match chunks with
  | [] => false
  | Fault :: _ => true
  | Data _ :: rest => has_fault rest
  end.

Fixpoint stream_data (chunks : list chunk) : list byte :=
  match chunks with
  | [] => []
  | Fault :: _ => []
  | Data data :: rest => data ++ stream_data rest
  end.

(** The content of the staging file of [destination], empty when absent. *)
Definition staged (destination : string) (f : gmap string (list byte))
    : list byte :=
  default [] (f !! part_file destination).

Definition good_status (r : response) : bool :=
  negb ((400 <=? status_code r) && (status_code r <? 600)).

(** A reply on which a fetch raises, whatever the state of the disk. *)
Definition failing (r : reply) : bool :=
  match r with
  | Refused => true
  | Answer r => negb (good_status r) || has_fault (body r)
  end.

(** The effect of a file event on the file system. *)
Definition apply_event (f : gmap string (list byte)) (e : event)
    : gmap string (list byte) :=
  match e with
  | Open p WB => <[p := []]> f
  | Open p AB => match f !! p with Some _ => f | None => <[p := []]> f end
  | Write p data => alter (fun old => old ++ data) p f
  | Rename src dst =>
      match f !! src with
      | Some data => <[dst := data]> (delete src f)
      | None => f
      end
  | Unlink p => delete p f
  | _ => f
  end.

Fixpoint replay (f : gmap string (list byte)) (evs : list event)
    : gmap string (list byte) :=
  match evs with
  | [] => f
  | e :: rest => replay (apply_event f e) rest
  end.

(** The last two events of a successful fetch. *)
Definition promotion (destination : string) : list event :=
  [Rename (part_file destination) destination;
   Log INFO ("Download concluído: " +:+ destination)].

(** Bytes written by the [Write] events of a trace, in order. *)
Fixpoint written_data (evs : list event) : list byte :=
  match evs with
  | [] => []
  | Write _ data :: rest => data ++ written_data rest
  | _ :: rest => written_data rest
  end.

(** Events that leave every file but the staging file [temp_file] alone. *)
Definition staging_event (temp_file : string) (e : event) : Prop :=
  match e with
  | Log _ _ | Request _ _ _ | Progress _ _ _ => True
  | Open p _ | Write p _ => p = temp_file
  | _ => False
  end.

Definition is_write (e : event) : Prop :=
  match e with
  | Write _ _ => True
  | _ => False
  end.

Definition is_rename (e : event) : Prop :=
  match e with
  | Rename _ _ => True
  | _ => False
  end.

(** Requests and sleeps of a trace, in order. *)
Inductive tick :=
| Fetch
| Wait (seconds : Z).

Fixpoint schedule (evs : list event) : list tick :=
  match evs with
  | [] => []
  | Request _ _ _ :: rest => Fetch :: schedule rest
  | Sleep s :: rest => Wait s :: schedule rest
  | _ :: rest => schedule rest
  end.

(** The schedule of [n] failed attempts: a fetch per attempt, and a sleep of
    [2 ^ attempt] after every attempt but the last. *)
Definition backoff_schedule (n : Z) : list tick :=
  concat (map (fun attempt =>
                 if attempt <? n then [Fetch; Wait (2 ^ attempt)] else [Fetch])
              (py_range 1 (n + 1))).

Definition waits (ticks : list tick) : list Z :=
  omap (fun t => match t with Wait s => Some s | Fetch => None end) ticks.

Definition fetches (ticks : list tick) : Z :=
  Z.of_nat (length (List.filter
                      (fun t => match t with Fetch => true | _ => false end)
                      ticks)).

(** The required set of [download_all]. *)
Definition to_download (skip_existing : bool) (status : dict ModelStatus)
    : list string :=
  map fst (List.filter (needs_download skip_existing) status).

Definition count_of (b : bool) (outcomes : list bool) : Z :=
  Z.of_nat (length (List.filter (Bool.eqb b) outcomes)).

(** The calls of [download_model] made for the models of the required set, one
    after the other, with their outcomes. *)
Inductive acquisitions (cb : bool) (total : Z)
    : Z -> list string -> state -> list bool -> state -> Prop :=
| acquisitions_nil i st : acquisitions cb total i [] st [] st
| acquisitions_cons i model_name rest st ok st1 outcomes st2 :
    download_nth cb total i model_name st = (Ok ok, st1) ->
    acquisitions cb total (i + 1) rest st1 outcomes st2 ->
    acquisitions cb total i (model_name :: rest) st (ok :: outcomes) st2.

(** The events of the loop over [response.iter_content]. *)
Fixpoint chunk_events (temp_file file : string) (cb : bool) (total_size : Z)
    (chunks : list chunk) (downloaded : Z) : list event :=
  match chunks with
  | [] => []
  | Fault :: _ => []
  | Data [] :: rest => chunk_events temp_file file cb total_size rest downloaded
  | Data data :: rest =>
      let downloaded := downloaded + Z.of_nat (length data) in
      Write temp_file data
      :: (if cb then [Progress downloaded total_size (Baixando_bytes file)]
          else [])
      ++ chunk_events temp_file file cb total_size rest downloaded
  end.

(** The size of the staging file when a fetch starts, 0 when absent. *)
Definition resume_offset (destination : string) (f : gmap string (list byte))
    : Z :=
  Z.of_nat (length (staged destination f)).

(** [totalBytes] as [_download_file] computes it. *)
Definition total_bytes (destination : string) (f : gmap string (list byte))
    (r : response) : Z :=
  if 0 <? resume_offset destination f
  then default 0 (content_length r) + resume_offset destination f
  else default 0 (content_length r).

Definition range_headers (destination : string) (f : gmap string (list byte))
    : list (string * string) :=
  if 0 <? resume_offset destination f
  then [("Range", "bytes=" +:+ pretty (resume_offset destination f) +:+ "-")]
  else [].

(** Outcome, file system and events of one call of [_download_file]. *)
Definition fetch_result (st : state) : result unit :=
  match net st with
  | Answer r :: _ =>
      if good_status r
      then if has_fault (body r) then Raise ChunkedEncodingError else Ok tt
      else Raise (HTTPError (status_code r))
  | _ => Raise ConnectionError
  end.

Definition fetch_fs (destination : string) (st : state)
    : gmap string (list byte) :=
  match net st with
  | Answer r :: _ =>
      if good_status r then
        let content := staged destination (fs st) ++ stream_data (body r) in
        if has_fault (body r)
        then <[part_file destination := content]> (fs st)
        else <[destination := content]> (delete (part_file destination) (fs st))
      else fs st
  | _ => fs st
  end.

Definition fetch_events (url destination : string) (cb : bool) (st : state)
    : list event :=
  let temp_file := part_file destination in
  let file := (path_split destination "").2 in
  let resume_pos := resume_offset destination (fs st) in
  (match fs st !! temp_file with
   | Some _ => [Log INFO ("Resumindo download de " +:+ pretty resume_pos
                          +:+ " bytes")]
   | None => []
   end)
  ++ Request url (range_headers destination (fs st)) (timeout self)
  :: match net st with
     | Answer r :: _ =>
         if good_status r then
           let total_size := total_bytes destination (fs st) r in
           (if cb then [Progress resume_pos total_size (Iniciando_download file)]
            else [])
           ++ Open temp_file (if 0 <? resume_pos then AB else WB)
           :: chunk_events temp_file file cb total_size (body r) resume_pos
           ++ (if has_fault (body r) then []
               else [Rename temp_file destination;
                     Log INFO ("Download concluído: " +:+ destination)])
         else []
     | _ => []
     end.

(** The dictionary [check_installed] builds over the items of the catalog. *)
Definition status_of (f : gmap string (list byte)) (items : dict ModelInfo.t)
    (status_dict : dict ModelStatus) : dict ModelStatus :=
  fold_left (fun acc entry => dict_set entry.1 (classify f entry.2) acc)
            items status_dict.

(** Whether the file a successful fetch leaves at [model_path] fails the
    declared checksum. *)
Definition fetched_corrupt (model : ModelInfo.t) (model_path : string)
    (st : state) : bool :=
  truthy_opt (ModelInfo.checksum model)
  && negb (verified (fetch_fs model_path st) model_path
             (ModelInfo.checksum model) (ModelInfo.checksum_type model)).

(** A failed attempt goes on while attempts remain. *)
Definition after_failure (attempt : Z) : option bool :=
  if attempt <? max_retries self then None else Some false.

(** Outcome, file system, catalog and schedule of one iteration of the retry
    loop, started in [st]. *)
Definition attempt_outcome (model : ModelInfo.t) (model_path : string)
    (attempt : Z) (st : state) : option bool :=
  match fetch_result st with
  | Ok _ =>
      if fetched_corrupt model model_path st then after_failure attempt else Some true
  | Raise _ => after_failure attempt
  end.

Definition attempt_fs (model : ModelInfo.t) (model_path : string) (st : state)
    : gmap string (list byte) :=
  match fetch_result st with
  | Ok _ =>
      if fetched_corrupt model model_path st
      then delete model_path (fetch_fs model_path st)
      else fetch_fs model_path st
  | Raise _ => fetch_fs model_path st
  end.

Definition attempt_models (model_name : string) (model : ModelInfo.t)
    (model_path : string) (st : state) : dict ModelInfo.t :=
  match fetch_result st with
  | Ok _ =>
      if fetched_corrupt model model_path st then models st
      else dict_alter (ModelInfo.with_status INSTALLED) model_name (models st)
  | Raise _ => models st
  end.

Definition attempt_ticks (attempt : Z) (st : state) : list tick :=
  Fetch :: match fetch_result st with
           | Ok _ => []
           | Raise _ =>
               if attempt <? max_retries self then [Wait (2 ^ attempt)] else []
           end.

(** The same catalog entry up to its mutable [status]. *)
Definition same_artifact (m m' : ModelInfo.t) : Prop :=
  ModelInfo.with_status NOT_INSTALLED m = ModelInfo.with_status NOT_INSTALLED m'.

(** The attempts a loop that never succeeds goes through: it stops at the
    first attempt that is not below [max_retries]. *)
Fixpoint tried (attempts : list Z) : list Z :=
  match attempts with
  | [] => []
  | attempt :: rest =>
      if attempt <? max_retries self then attempt :: tried rest else [attempt]
  end.

(** The existing-file test at the head of [download_model]. *)
Definition already_there (model : ModelInfo.t) (force : bool) (st : state)
    : bool :=
  bool_decide (is_Some (fs st !! _get_model_path model))
  && negb force
  && verified (fs st) (_get_model_path model) (ModelInfo.checksum model)
       (ModelInfo.checksum_type model).








(** The catalog after [check_installed] wrote the status of every item. *)
Definition checked_models (f : gmap string (list byte)) (items : dict ModelInfo.t)
    (d : dict ModelInfo.t) : dict ModelInfo.t :=
  fold_left (fun acc entry =>
               dict_alter (ModelInfo.with_status (classify f entry.2)) entry.1 acc)
            items d.

(** The exception [mkdir p] raises over the file system [f], if any. *)
Definition mkdir_error (p : string) (f : gmap string (list byte)) : option exn :=
  if bool_decide (is_Some (f !! p)) then Some (FileExistsError p)
  else if existsb (fun a => bool_decide (is_Some (f !! a))) (ancestors p "")
  then Some (NotADirectoryError p)
  else None.

(** What the loader makes of a parsed document: a warning and no entries,
    an exception, or the entries its loop goes through. *)
Inductive shape :=
| Unusable
| Fails (e : exn)
| Entries (entries : list yaml).

Definition config_shape (config : yaml) : shape :=
  if negb (yaml_truthy config) then Unusable else
  match config with
  | YMap items =>
      match map_get "models" items with
      | None => Unusable
      | Some (YList entries) => Entries entries
      | Some (YMap entries) => Entries (map fst entries)
      | Some (YStr s) =>
          Entries (map (fun c => YStr (String c ""))
                       (String.list_ascii_of_string s))
      | Some _ => Fails TypeError
      end
  | YList items =>
      if existsb (is_str "models") items then Fails TypeError else Unusable
  | YStr s =>
      if bool_decide (is_Some (String.index 0 "models" s))
      then Fails TypeError else Unusable
  | _ => Fails TypeError
  end.

(** The content of the staging file after a run of failing replies: a reply
    whose stream breaks leaves the bytes it delivered. *)
Fixpoint salvaged (prior : list byte) (fails : list reply) : list byte :=
  match fails with
  | [] => prior
  | Answer r :: rest =>
      if good_status r then salvaged (prior ++ stream_data (body r)) rest
      else salvaged prior rest
  | Refused :: rest => salvaged prior rest
  end.

(** * Properties *)

(** ** Running computations *)

Lemma add_events_nil st : add_events st [] = st.
Proof. destruct st. unfold add_events. simpl. by rewrite app_nil_r. Qed.

Lemma add_events_app st evs1 evs2 :
  add_events (add_events st evs1) evs2 = add_events st (evs1 ++ evs2).
Proof. unfold add_events. simpl. by rewrite app_assoc. Qed.

Lemma bind_ok {A B} (c : M A) (f : A -> M B) st a st' :
  c st = (Ok a, st') -> (c ≫= f) st = f a st'.
Proof. intros H. unfold mbind, M_bind. by rewrite H. Qed.

Lemma bind_raise {A B} (c : M A) (f : A -> M B) st e st' :
  c st = (Raise e, st') -> (c ≫= f) st = (Raise e, st').
Proof. intros H. unfold mbind, M_bind. by rewrite H. Qed.

Lemma bind_run {A B} (c : M A) (f : A -> M B) st :
  (c ≫= f) st
  = match c st with
    | (Ok a, st') => f a st'
    | (Raise e, st') => (Raise e, st')
    end.
Proof. reflexivity. Qed.

Lemma emit_run e st : emit e st = (Ok tt, add_events st [e]).
Proof. reflexivity. Qed.

Lemma log_run lvl msg st : log lvl msg st = (Ok tt, add_events st [Log lvl msg]).
Proof. reflexivity. Qed.

Lemma mkdir_run p st :
  mkdir p st
  = match mkdir_error p (fs st) with
    | Some e => (Raise e, st)
    | None => (Ok tt, add_events st [Mkdir p])
    end.
Proof.
  unfold mkdir, mkdir_error, mbind, M_bind, get_fs.
  destruct (bool_decide (is_Some (fs st !! p))); [done|].
  by destruct (existsb _ _).
Qed.

Lemma mkdir_ok p st : (mkdir p st).1 = Ok tt <-> mkdir_error p (fs st) = None.
Proof. rewrite mkdir_run. by destruct (mkdir_error p (fs st)). Qed.

Lemma path_exists_run p st :
  path_exists p st = (Ok (bool_decide (is_Some (fs st !! p))), st).
Proof. reflexivity. Qed.

Lemma truthy_opt_false (o : option string) :
  truthy_opt o = false <-> o = None \/ o = Some "".
Proof.
  destruct o as [s|]; simpl; [|by split; auto].
  unfold truthy. destruct (String.eqb_spec s "") as [->|Hne]; simpl.
  - split; auto.
  - split; [discriminate|]. intros [H|H]; congruence.
Qed.

(** [_verify_checksum] never raises, only logs, and its verdict is [verified]. *)
Lemma verify_run file_path expected ct st :
  exists evs,
    _verify_checksum file_path expected ct st
      = (Ok (verified (fs st) file_path expected ct), add_events st evs)
    /\ Forall is_log evs.
Proof.
  unfold _verify_checksum, verified.
  destruct expected as [e|]; [|exists []; by rewrite add_events_nil].
  destruct (truthy e); simpl; [|exists []; by rewrite add_events_nil].
  rewrite (bind_ok _ _ _ _ _ (path_exists_run _ _)).
  destruct (fs st !! file_path) as [data|] eqn:Hf; simpl;
    [|exists []; by rewrite add_events_nil].
  rewrite (bind_ok _ _ _ _ _ (log_run _ _ _)).
  destruct (hasher ct) as [digest|].
  - unfold read_file, get_fs, mbind, M_bind. simpl. rewrite Hf. simpl.
    destruct (String.eqb (lower (digest data)) (lower e)); simpl;
      unfold add_events; simpl; rewrite <- ?app_assoc;
      (eexists; split; [reflexivity|]); repeat constructor.
  - unfold mbind, M_bind, log, emit, add_events. simpl. rewrite <- ?app_assoc.
    eexists; split; [reflexivity|]. repeat constructor.
Qed.

Lemma verify_value file_path expected ct st :
  (_verify_checksum file_path expected ct st).1
    = Ok (verified (fs st) file_path expected ct).
Proof. destruct (verify_run file_path expected ct st) as (evs & -> & _). done. Qed.

(** ** [_verify_checksum] *)

(** C6: an empty or absent expected checksum verifies whatever the file
    holds (and even without a file); with a declared checksum and the
    algorithm [md5] or [sha256], in any letter case, an existing file
    verifies exactly when its hex digest equals the expected one up to
    letter case; with any other algorithm name an existing file verifies,
    after a logged warning. *)
Theorem verify_checksum_cases (file_path checksum_type : string) (st : state) :
  (forall expected,
     truthy_opt expected = false ->
     _verify_checksum file_path expected checksum_type st = (Ok true, st))
  /\ (forall expected data digest,
        truthy expected = true ->
        fs st !! file_path = Some data ->
        (lower checksum_type = "md5" /\ digest = md5_hexdigest
         \/ lower checksum_type = "sha256" /\ digest = sha256_hexdigest) ->
        (_verify_checksum file_path (Some expected) checksum_type st).1
          = Ok (bool_decide (lower (digest data) = lower expected)))
  /\ (forall expected data,
        truthy expected = true ->
        fs st !! file_path = Some data ->
        lower checksum_type <> "md5" ->
        lower checksum_type <> "sha256" ->
        exists st',
          _verify_checksum file_path (Some expected) checksum_type st
            = (Ok true, st')
          /\ Log WARNING ("Tipo de checksum desconhecido: " +:+ checksum_type)
               ∈ trace st').
Proof.
  split; [|split].
  - intros expected [->| ->]%truthy_opt_false; reflexivity.
  - intros expected data digest He Hf Halg.
    rewrite verify_value. f_equal. unfold verified. rewrite He, Hf. simpl.
    assert (hasher checksum_type = Some digest) as ->.
    { unfold hasher. destruct Halg as [[-> ->]|[-> ->]]; reflexivity. }
    destruct (String.eqb_spec (lower (digest data)) (lower expected)).
    + by rewrite bool_decide_true.
    + by rewrite bool_decide_false.
  - intros expected data He Hf Hmd5 Hsha.
    unfold _verify_checksum. rewrite He. simpl.
    rewrite (bind_ok _ _ _ _ _ (path_exists_run _ _)). rewrite Hf. simpl.
    rewrite (bind_ok _ _ _ _ _ (log_run _ _ _)).
    unfold hasher.
    destruct (String.eqb_spec (lower checksum_type) "md5"); [done|].
    destruct (String.eqb_spec (lower checksum_type) "sha256"); [done|].
    rewrite (bind_ok _ _ _ _ _ (log_run _ _ _)).
    eexists. split; [reflexivity|].
    unfold add_events. simpl. set_solver.
Qed.

(** C10: with a non-empty expected checksum and no file at the path,
    [_verify_checksum] answers [False] for every algorithm name: the
    existence test comes before the choice of the algorithm. *)
Theorem verify_checksum_missing_file (file_path checksum_type expected : string)
    (st : state) :
  truthy expected = true ->
  fs st !! file_path = None ->
  _verify_checksum file_path (Some expected) checksum_type st = (Ok false, st).
Proof.
  intros He Hf. unfold _verify_checksum. rewrite He. simpl.
  rewrite (bind_ok _ _ _ _ _ (path_exists_run _ _)). rewrite Hf. reflexivity.
Qed.

(** ** [_download_file] *)

Lemma alter_app_insert (f : gmap string (list byte)) p old data :
  f !! p = Some old ->
  alter (fun o => o ++ data) p f = <[p := old ++ data]> f.
Proof.
  intros Hp. apply map_eq. intros q. destruct (decide (p = q)) as [<-|Hne].
  - by rewrite lookup_alter_eq, lookup_insert_eq, Hp.
  - by rewrite lookup_alter_ne, lookup_insert_ne.
Qed.

Lemma write_chunks_run temp_file file cb total_size chunks downloaded st old :
  fs st !! temp_file = Some old ->
  write_chunks temp_file file cb total_size chunks downloaded st
  = (if has_fault chunks then Raise ChunkedEncodingError else Ok tt,
     State (models st) (<[temp_file := old ++ stream_data chunks]> (fs st))
       (net st)
       (trace st
        ++ chunk_events temp_file file cb total_size chunks downloaded)).
Proof.
  revert downloaded st old.
  induction chunks as [|[data|] rest IH]; intros downloaded st old Hold; simpl.
  - rewrite !app_nil_r, insert_id by done. by destruct st.
  - destruct data as [|b data]; [by apply IH|].
    unfold fwrite, progress, when.
    unfold mbind at 1, M_bind at 1. simpl.
    rewrite (alter_app_insert _ _ old) by done.
    set (d := b :: data) in *.
    match goal with |- context [write_chunks _ _ _ _ _ ?dl] => set (dl' := dl) end.
    destruct cb; simpl.
    + rewrite (bind_ok _ _ _ _ _ (emit_run _ _)).
      erewrite IH by (simpl; apply lookup_insert_eq). simpl.
      rewrite insert_insert_eq, <- !app_assoc. reflexivity.
    + unfold mbind, M_bind, mret, M_ret.
      erewrite IH by (simpl; apply lookup_insert_eq). simpl.
      rewrite insert_insert_eq, <- !app_assoc. reflexivity.
  - rewrite !app_nil_r, insert_id by done. by destruct st.
Qed.

Lemma requests_get_run url headers tmo st :
  requests_get url headers tmo st
  = (match net st with
     | Answer r :: _ => Ok r
     | _ => Raise ConnectionError
     end,
     State (models st) (fs st) (tl (net st))
       (trace st ++ [Request url headers tmo])).
Proof. unfold requests_get. by destruct (net st) as [|[|r] rest]. Qed.

Lemma length_zero_nil {A} (l : list A) : (0 <? Z.of_nat (length l)) = false -> l = [].
Proof. destruct l; [done|]. simpl. intros H%Z.ltb_ge. lia. Qed.

Lemma progress_run cb current total msg st :
  progress cb current total msg st
  = (Ok tt, add_events st (if cb then [Progress current total msg] else [])).
Proof. destruct cb; simpl; [done|]. by rewrite add_events_nil. Qed.

Lemma fopen_run p mode st :
  fopen p mode st
  = (Ok tt,
     State (models st)
       (match mode with
        | WB => <[p := []]> (fs st)
        | AB => match fs st !! p with
                | Some _ => fs st
                | None => <[p := []]> (fs st)
                end
        end) (net st) (trace st ++ [Open p mode])).
Proof. reflexivity. Qed.

Lemma rename_run src dst st data :
  fs st !! src = Some data ->
  rename src dst st
  = (Ok tt,
     State (models st) (<[dst := data]> (delete src (fs st))) (net st)
       (trace st ++ [Rename src dst])).
Proof.
  intros H. unfold rename, mbind, M_bind, get_fs. simpl. by rewrite H.
Qed.

(** The part of [_download_file] after the response passed
    [raise_for_status]. *)
Lemma store_body_run destination cb total_size chunks st prior :
  let temp_file := part_file destination in
  let file := (path_split destination "").2 in
  let resume_pos := Z.of_nat (length prior) in
  fs st !! temp_file = (if 0 <? resume_pos then Some prior else fs st !! temp_file) ->
  ((0 <? resume_pos) = false -> prior = []) ->
  (fopen temp_file (if 0 <? resume_pos then AB else WB);;
   write_chunks temp_file file cb total_size chunks resume_pos;;
   rename temp_file destination;;
   log INFO ("Download concluído: " +:+ destination)) st
  = (if has_fault chunks then Raise ChunkedEncodingError else Ok tt,
     State (models st)
       (if has_fault chunks
        then <[temp_file := prior ++ stream_data chunks]> (fs st)
        else <[destination := prior ++ stream_data chunks]>
               (delete temp_file (fs st)))
       (net st)
       (trace st
        ++ Open temp_file (if 0 <? resume_pos then AB else WB)
        :: chunk_events temp_file file cb total_size chunks resume_pos
        ++ (if has_fault chunks then []
            else [Rename temp_file destination;
                  Log INFO ("Download concluído: " +:+ destination)]))).
Proof.
  intros temp_file file resume_pos Hprior Hzero.
  rewrite (bind_ok _ _ _ _ _ (fopen_run _ _ _)).
  set (st1 := State _ _ _ _).
  assert (fs st1 !! temp_file = Some prior
          /\ <[temp_file := prior]> (fs st) = fs st1) as [H1 Hfs1].
  { subst st1. simpl. destruct (0 <? resume_pos) eqn:HK.
    - rewrite Hprior. split; [done|]. by rewrite insert_id.
    - rewrite (Hzero eq_refl). split; [apply lookup_insert_eq|done]. }
  assert (models st1 = models st /\ net st1 = net st
          /\ trace st1 = trace st
               ++ [Open temp_file (if 0 <? resume_pos then AB else WB)])
    as (Hm & Hn & Ht) by done.
  pose proof (write_chunks_run temp_file file cb total_size chunks resume_pos
                st1 prior H1) as Hw.
  clearbody st1.
  destruct (has_fault chunks).
  - rewrite (bind_raise _ _ _ _ _ Hw).
    rewrite <- Hfs1, insert_insert_eq, Hm, Hn, Ht.
    by rewrite <- app_assoc, app_nil_r.
  - rewrite (bind_ok _ _ _ _ _ Hw).
    set (st2 := State _ _ _ _).
    assert (fs st2 !! temp_file = Some (prior ++ stream_data chunks)) as H2
      by (subst st2; simpl; apply lookup_insert_eq).
    rewrite (bind_ok _ _ _ _ _ (rename_run _ destination _ _ H2)).
    rewrite log_run. unfold add_events. subst st2. simpl.
    rewrite <- Hfs1, !delete_insert_eq, Hm, Hn, Ht.
    by rewrite <- !app_assoc.
Qed.

Lemma download_file_run url destination expected_size cb st :
  _download_file url destination expected_size cb st
  = (fetch_result st,
     State (models st) (fetch_fs destination st) (tl (net st))
       (trace st ++ fetch_events url destination cb st)).
Proof.
  unfold _download_file, fetch_result, fetch_fs, fetch_events, total_bytes,
    range_headers, resume_offset, staged.
  unfold mbind at 1, M_bind at 1, get_fs at 1.
  set (temp := part_file destination).
  set (file := (path_split destination "").2).
  set (prior := default [] (fs st !! temp)).
  set (K := Z.of_nat (length prior)).
  assert (exists evs,
    (match fs st !! temp with
     | Some data =>
         log INFO ("Resumindo download de " +:+ pretty (Z.of_nat (length data))
                   +:+ " bytes");;
         mret (Z.of_nat (length data))
     | None => mret 0
     end) st = (Ok K, add_events st evs)
    /\ evs = match fs st !! temp with
             | Some _ => [Log INFO ("Resumindo download de " +:+ pretty K
                                    +:+ " bytes")]
             | None => []
             end) as (evs & Hres & Hevs).
  { subst K prior. destruct (fs st !! temp) as [data|]; simpl.
    - eexists. split; [|reflexivity]. reflexivity.
    - exists []. by rewrite add_events_nil. }
  rewrite (bind_ok _ _ _ _ _ Hres). rewrite <- Hevs. clear Hres Hevs.
  unfold mbind at 1, M_bind at 1. rewrite requests_get_run. simpl.
  destruct (net st) as [|[|r] rest]; simpl;
    try (by rewrite <- app_assoc).
  unfold raise_for_status, good_status.
  destruct ((400 <=? status_code r) && (status_code r <? 600)); simpl.
  { unfold mbind, M_bind, raise. simpl. by rewrite <- app_assoc. }
  unfold mbind at 1, M_bind at 1. simpl.
  rewrite (bind_ok _ _ _ _ _ (progress_run _ _ _ _ _)).
  rewrite (store_body_run destination cb _ (body r) _ prior).
  - unfold add_events. simpl.
    destruct (has_fault (body r)); f_equal; f_equal;
      rewrite <- !app_assoc; simpl; reflexivity.
  - unfold add_events. simpl. fold temp. fold K. subst prior.
    destruct (0 <? K) eqn:HK; [|done].
    destruct (fs st !! temp) as [data|]; [done|]. by subst K.
  - fold K. intros HK. subst K. by apply length_zero_nil.
Qed.

Lemma part_file_neq destination : destination <> part_file destination.
Proof.
  unfold part_file. induction destination as [|c s IH]; simpl; [done|].
  intros H. injection H as H. by apply IH.
Qed.

(** *** The events of a fetch and the file system *)

Lemma replay_app f evs1 evs2 :
  replay f (evs1 ++ evs2) = replay (replay f evs1) evs2.
Proof. revert f. induction evs1 as [|e evs1 IH]; intros f; simpl; auto. Qed.

Lemma replay_staging temp_file destination evs f :
  Forall (staging_event temp_file) evs ->
  destination <> temp_file ->
  replay f evs !! destination = f !! destination.
Proof.
  intros Hevs Hne. revert f.
  induction Hevs as [|e evs He _ IH]; intros f; [done|].
  simpl. rewrite IH. destruct e as [| | | |p mode|p data| | |]; simpl in *;
    try done; subst p.
  - destruct mode; [by rewrite lookup_insert_ne|].
    destruct (f !! temp_file); [done|by rewrite lookup_insert_ne].
  - by rewrite lookup_alter_ne.
Qed.

Lemma chunk_events_staging temp_file file cb total_size chunks downloaded :
  Forall (staging_event temp_file)
    (chunk_events temp_file file cb total_size chunks downloaded).
Proof.
  revert downloaded.
  induction chunks as [|[[|b data]|] rest IH]; intros downloaded; simpl; auto.
  constructor; [done|]. apply Forall_app. split; [|apply IH].
  destruct cb; repeat constructor.
Qed.

Lemma chunk_events_no_rename temp_file file cb total_size chunks downloaded :
  Forall (fun e => ~ is_rename e)
    (chunk_events temp_file file cb total_size chunks downloaded).
Proof.
  eapply Forall_impl; [apply chunk_events_staging|].
  intros [] H; simpl in *; naive_solver.
Qed.

Lemma replay_chunk_events temp_file file cb total_size chunks downloaded f old :
  f !! temp_file = Some old ->
  replay f (chunk_events temp_file file cb total_size chunks downloaded)
  = <[temp_file := old ++ stream_data chunks]> f.
Proof.
  revert downloaded f old.
  induction chunks as [|[[|b data]|] rest IH]; intros downloaded f old Hold;
    simpl.
  - by rewrite app_nil_r, insert_id.
  - by apply IH.
  - rewrite (alter_app_insert _ _ old) by done.
    set (d := b :: data). set (f1 := <[temp_file := old ++ d]> f).
    assert (f1 !! temp_file = Some (old ++ d)) as H1 by apply lookup_insert_eq.
    destruct cb; simpl; rewrite (IH _ _ _ H1); subst f1;
      by rewrite insert_insert_eq, <- app_assoc.
  - by rewrite app_nil_r, insert_id.
Qed.

Lemma written_data_app evs1 evs2 :
  written_data (evs1 ++ evs2) = written_data evs1 ++ written_data evs2.
Proof.
  induction evs1 as [|[] evs1 IH]; simpl; try done.
  by rewrite IH, app_assoc.
Qed.

Lemma written_chunk_events temp_file file cb total_size chunks downloaded :
  written_data (chunk_events temp_file file cb total_size chunks downloaded)
  = stream_data chunks.
Proof.
  revert downloaded.
  induction chunks as [|[[|b data]|] rest IH]; intros downloaded; simpl; auto.
  f_equal. rewrite written_data_app, IH. by destruct cb.
Qed.

Lemma fetch_events_shape url destination cb st :
  exists evs0,
    fetch_events url destination cb st
    = evs0 ++ match fetch_result st with
              | Ok _ => promotion destination
              | Raise _ => []
              end
    /\ Forall (staging_event (part_file destination)) evs0.
Proof.
  unfold fetch_events, fetch_result, promotion.
  set (temp := part_file destination).
  set (resume_log := match fs st !! temp with Some _ => _ | None => _ end).
  assert (Forall (staging_event temp) resume_log) as Hlog.
  { subst resume_log. destruct (fs st !! temp); repeat constructor. }
  destruct (net st) as [|[|r] rest];
    try (eexists; split; [by rewrite app_nil_r|];
         apply Forall_app; split; [done|repeat constructor]).
  destruct (good_status r);
    [|eexists; split; [by rewrite app_nil_r|];
      apply Forall_app; split; [done|repeat constructor]].
  set (ce := chunk_events _ _ _ _ _ _).
  assert (Forall (staging_event temp) ce) as Hce by apply chunk_events_staging.
  set (start := if cb then _ else _).
  assert (Forall (staging_event temp) start) as Hstart
    by (subst start; destruct cb; repeat constructor).
  exists (resume_log ++ Request url (range_headers destination (fs st))
                          (timeout self)
          :: start ++ Open temp (if 0 <? resume_offset destination (fs st)
                                 then AB else WB) :: ce).
  split.
  - destruct (has_fault (body r)); rewrite <- ?app_assoc; simpl;
      rewrite <- ?app_assoc; simpl; by rewrite ?app_nil_r.
  - apply Forall_app. split; [done|]. constructor; [done|].
    apply Forall_app. split; [done|]. by constructor.
Qed.

Lemma replay_logs f evs :
  Forall (fun e => match e with
                   | Log _ _ | Request _ _ _ | Progress _ _ _ | Sleep _
                   | Mkdir _ => True
                   | _ => False
                   end) evs ->
  replay f evs = f.
Proof.
  induction 1 as [|e evs He _ IH]; [done|].
  simpl. destruct e; simpl in *; try done.
Qed.

Lemma replay_fetch_events url destination cb st :
  replay (fs st) (fetch_events url destination cb st) = fetch_fs destination st.
Proof.
  unfold fetch_events, fetch_fs.
  set (temp := part_file destination).
  set (resume_log := match fs st !! temp with Some _ => _ | None => _ end).
  rewrite replay_app.
  rewrite (replay_logs _ resume_log)
    by (subst resume_log; destruct (fs st !! temp); repeat constructor).
  simpl.
  destruct (net st) as [|[|r] rest]; try done.
  destruct (good_status r); [|done].
  assert (replay (fs st)
            ((if cb
              then [Progress (resume_offset destination (fs st))
                      (total_bytes destination (fs st) r)
                      (Iniciando_download (path_split destination "").2)]
              else [])
             ++ Open temp (if 0 <? resume_offset destination (fs st)
                           then AB else WB)
             :: chunk_events temp (path_split destination "").2 cb
                  (total_bytes destination (fs st) r) (body r)
                  (resume_offset destination (fs st))
             ++ (if has_fault (body r) then [] else promotion destination))
          = replay (apply_event (fs st)
                      (Open temp (if 0 <? resume_offset destination (fs st)
                                  then AB else WB)))
              (chunk_events temp (path_split destination "").2 cb
                 (total_bytes destination (fs st) r) (body r)
                 (resume_offset destination (fs st))
               ++ (if has_fault (body r) then [] else promotion destination)))
    as Hhead by (by destruct cb).
  unfold promotion in Hhead. fold temp in Hhead. rewrite Hhead. clear Hhead.
  rewrite replay_app.
  set (f1 := apply_event _ _).
  assert (f1 !! temp = Some (staged destination (fs st))
          /\ <[temp := staged destination (fs st)]> (fs st) = f1) as [H1 Hf1].
  { subst f1. unfold resume_offset, staged. fold temp.
    destruct (fs st !! temp) as [data|] eqn:Hs; simpl.
    - destruct (0 <? Z.of_nat (length data)) eqn:HK; simpl.
      + rewrite Hs. split; [done|]. by rewrite insert_id.
      + rewrite (length_zero_nil _ HK). split; [apply lookup_insert_eq|done].
    - simpl. split; [apply lookup_insert_eq|done]. }
  rewrite (replay_chunk_events _ _ _ _ _ _ _ _ H1). rewrite <- Hf1.
  rewrite insert_insert_eq.
  destruct (has_fault (body r)); simpl; [done|].
  rewrite lookup_insert_eq. by rewrite delete_insert_eq.
Qed.

Lemma written_fetch_events url destination cb st :
  written_data (fetch_events url destination cb st)
  = match net st with
    | Answer r :: _ => if good_status r then stream_data (body r) else []
    | _ => []
    end.
Proof.
  unfold fetch_events. rewrite written_data_app.
  destruct (fs st !! part_file destination); simpl;
    (destruct (net st) as [|[|r] rest]; try done;
     destruct (good_status r); [|done];
     rewrite written_data_app; destruct cb; simpl;
     rewrite written_data_app, written_chunk_events;
     destruct (has_fault (body r)); simpl; by rewrite app_nil_r).
Qed.

Lemma staging_not_rename temp_file evs :
  Forall (staging_event temp_file) evs -> Forall (fun e => ~ is_rename e) evs.
Proof. intros H. eapply Forall_impl; [exact H|]. intros [] He; simpl in *; naive_solver. Qed.

Lemma staging_writes temp_file evs p data :
  Forall (staging_event temp_file) evs -> Write p data ∈ evs -> p = temp_file.
Proof. intros H Hin. by apply (proj1 (Forall_forall _ _) H) in Hin. Qed.

(** C2: during a fetch every byte is written to the staging file
    [destination.part] only; on success the staging file is renamed to the
    destination exactly once, as the last file operation, after all the
    bytes of the stream were written; when the call raises, no rename took
    place, the destination is as before and, for a failure in the stream,
    the staging file holds its former content followed by the bytes written
    so far; at every point of the call the destination holds either what it
    held before or, once renamed, the complete file. *)
Theorem download_file_staging url destination expected_size cb st outcome st' :
  _download_file url destination expected_size cb st = (outcome, st') ->
  let temp_file := part_file destination in
  exists evs,
    trace st' = trace st ++ evs
    /\ fs st' = replay (fs st) evs
    /\ (forall p data, Write p data ∈ evs -> p = temp_file)
    /\ (forall pre post,
          evs = pre ++ post ->
          replay (fs st) pre !! destination = fs st !! destination
          \/ (outcome = Ok tt
              /\ Rename temp_file destination ∈ pre
              /\ replay (fs st) pre !! destination = fs st' !! destination))
    /\ (outcome = Ok tt ->
          exists r rest evs0,
            net st = Answer r :: rest
            /\ has_fault (body r) = false
            /\ evs = evs0 ++ promotion destination
            /\ Forall (fun e => ~ is_rename e) evs0
            /\ written_data evs0 = stream_data (body r)
            /\ fs st' !! destination
               = Some (staged destination (fs st) ++ stream_data (body r))
            /\ fs st' !! temp_file = None)
    /\ (forall e,
          outcome = Raise e ->
          Forall (fun e => ~ is_rename e) evs
          /\ fs st' !! destination = fs st !! destination
          /\ (e = ChunkedEncodingError ->
              fs st' !! temp_file
              = Some (staged destination (fs st) ++ written_data evs))
          /\ (e <> ChunkedEncodingError -> fs st' = fs st)).
Proof.
  rewrite download_file_run. intros [= <- <-] temp_file. simpl.
  exists (fetch_events url destination cb st).
  destruct (fetch_events_shape url destination cb st) as (evs0 & Hshape & Hst).
  pose proof (replay_fetch_events url destination cb st) as Hreplay.
  pose proof (written_fetch_events url destination cb st) as Hwritten.
  pose proof (part_file_neq destination) as Hne. fold temp_file in Hne, Hst.
  split; [done|]. split; [done|]. split; [|split; [|split]].
  - intros p data Hin. rewrite Hshape in Hin.
    apply elem_of_app in Hin as [Hin|Hin]; [by eapply staging_writes|].
    destruct (fetch_result st); [|by apply elem_of_nil in Hin].
    unfold promotion in Hin.
    repeat (apply elem_of_cons in Hin as [Hin|Hin]; [discriminate|]).
    by apply elem_of_nil in Hin.
  - intros pre post Hsplit. rewrite Hshape in Hsplit. symmetry in Hsplit.
    apply app_eq_inv in Hsplit as [(k & -> & Hk)|(k & -> & _)].
    + destruct k as [|e1 k].
      { left. rewrite app_nil_r. by apply (replay_staging temp_file). }
      destruct (fetch_result st) as [[]|]; [|done].
      right. split; [done|]. unfold promotion in Hk.
      injection Hk as <- Hk. split; [set_solver|].
      rewrite <- Hreplay, Hshape, !replay_app. unfold promotion. fold temp_file.
      destruct k as [|e2 k]; [done|]. injection Hk as <- Hk.
      by destruct k.
    + left. apply (replay_staging temp_file); [|done].
      by apply Forall_app in Hst as [? _].
  - intros Hok. unfold fetch_result, fetch_fs in *.
    destruct (net st) as [|[|r] rest]; try done.
    destruct (good_status r); [|done].
    destruct (has_fault (body r)) eqn:Hfault; [done|].
    exists r, rest, evs0. split; [done|]. split; [done|]. split; [done|].
    split; [by eapply staging_not_rename|]. split.
    + rewrite Hshape, written_data_app in Hwritten. simpl in Hwritten.
      by rewrite app_nil_r in Hwritten.
    + split; [apply lookup_insert_eq|].
      rewrite lookup_insert_ne by done. apply lookup_delete_eq.
  - intros e He. rewrite He, app_nil_r in Hshape. rewrite Hshape.
    split; [by eapply staging_not_rename|].
    rewrite <- Hshape, Hwritten. unfold fetch_result, fetch_fs in *.
    destruct (net st) as [|[|r] rest]; try (injection He as <-; done).
    destruct (good_status r); [|injection He as <-; done].
    destruct (has_fault (body r)); [|done]. injection He as <-.
    split; [by rewrite lookup_insert_ne|].
    split; [intros _; apply lookup_insert_eq|done].
Qed.

(** *** Progress reports *)

Lemma chunk_events_total temp_file file cb total_size chunks downloaded c t m :
  Progress c t m ∈ chunk_events temp_file file cb total_size chunks downloaded ->
  t = total_size.
Proof.
  revert downloaded.
  induction chunks as [|[[|b data]|] rest IH]; intros downloaded; simpl;
    try (by intros ?%elem_of_nil); [by apply IH|].
  intros [?|Hin]%elem_of_cons; [done|].
  apply elem_of_app in Hin as [Hin|Hin]; [|by eapply IH].
  destruct cb; [|by apply elem_of_nil in Hin].
  apply list_elem_of_singleton in Hin. congruence.
Qed.

Lemma chunk_events_reported temp_file file total_size chunks downloaded
    pre p data post :
  chunk_events temp_file file true total_size chunks downloaded
  = pre ++ Write p data :: post ->
  exists post',
    post = Progress (downloaded + Z.of_nat (length (written_data pre ++ data)))
             total_size (Baixando_bytes file) :: post'.
Proof.
  revert downloaded pre.
  induction chunks as [|[[|b d]|] rest IH]; intros downloaded pre; simpl.
  - by destruct pre.
  - apply IH.
  - set (chunk := b :: d). destruct pre as [|e pre]; simpl.
    + intros H. injection H as Hp Hd Hpost. subst p data. rewrite <- Hpost.
      eexists. reflexivity.
    + intros [= <- H]. destruct pre as [|e pre]; [done|].
      simpl in H. injection H as <- H. simpl.
      apply IH in H as [post' ->]. exists post'. do 2 f_equal.
      rewrite !length_app. lia.
  - by destruct pre.
Qed.

Lemma written_data_none evs :
  Forall (fun e => ~ is_write e) evs -> written_data evs = [].
Proof.
  induction 1 as [|e evs He _ IH]; [done|].
  destruct e; simpl in *; try done.
Qed.

Lemma split_write_right l1 l2 pre p data post :
  Forall (fun e => ~ is_write e) l1 ->
  l1 ++ l2 = pre ++ Write p data :: post ->
  exists pre', pre = l1 ++ pre' /\ l2 = pre' ++ Write p data :: post.
Proof.
  intros Hl1. revert pre. induction Hl1 as [|e l1 He _ IH]; intros pre; simpl.
  - intros ->. by exists pre.
  - destruct pre as [|e' pre]; simpl.
    + intros [= -> _]. simpl in He. by destruct He.
    + intros [= <- H]. apply IH in H as (pre' & -> & ->). by exists pre'.
Qed.

Lemma split_write_left l1 l2 pre p data post :
  Forall (fun e => ~ is_write e) l2 ->
  l1 ++ l2 = pre ++ Write p data :: post ->
  exists post', l1 = pre ++ Write p data :: post' /\ post = post' ++ l2.
Proof.
  intros Hl2. revert pre. induction l1 as [|e l1 IH]; intros pre; simpl.
  - intros ->. apply Forall_app in Hl2 as [_ Hl2].
    apply Forall_cons in Hl2 as [Hw _]. simpl in Hw. by destruct Hw.
  - destruct pre as [|e' pre]; simpl.
    + intros [= -> <-]. by exists l1.
    + intros [= <- H]. apply IH in H as (post' & -> & ->). by exists post'.
Qed.

Lemma chunk_events_kinds temp_file file cb total_size chunks downloaded e :
  e ∈ chunk_events temp_file file cb total_size chunks downloaded ->
  match e with
  | Write _ _ | Progress _ _ _ => True
  | _ => False
  end.
Proof.
  revert downloaded.
  induction chunks as [|[[|b data]|] rest IH]; intros downloaded; simpl;
    try (by intros ?%elem_of_nil); [by apply IH|].
  intros [->|Hin]%elem_of_cons; [done|].
  apply elem_of_app in Hin as [Hin|Hin]; [|by eapply IH].
  destruct cb; [|by apply elem_of_nil in Hin].
  by apply list_elem_of_singleton in Hin as ->.
Qed.

Ltac in_cases H :=
  repeat first
    [ apply elem_of_app in H as [H|H]
    | apply elem_of_cons in H as [H|H]
    | apply elem_of_nil in H; destruct H ].

(** X15: the resume protocol of [_download_file], with a callback: the request
    carries [Range: bytes=K-] exactly when the staging file exists with size
    [K > 0], and then the staging file is opened for appending, otherwise the
    request has no range and the staging file is created or truncated; every
    progress report carries as total the reported content length plus [K]
    when resuming and the content length alone otherwise, an unreported
    length counting as 0; after each chunk written the callback gets the
    cumulative byte count, [K] included. *)
Theorem download_file_resume url destination expected_size st outcome st' :
  _download_file url destination expected_size true st = (outcome, st') ->
  let temp_file := part_file destination in
  let file := (path_split destination "").2 in
  let K := resume_offset destination (fs st) in
  let range :=
    if 0 <? K then [("Range", "bytes=" +:+ pretty K +:+ "-")] else [] in
  exists evs,
    trace st' = trace st ++ evs
    /\ Request url range (timeout self) ∈ evs
    /\ (forall u h t, Request u h t ∈ evs -> h = range)
    /\ (forall r rest,
          net st = Answer r :: rest ->
          good_status r = true ->
          let total :=
            if 0 <? K then default 0 (content_length r) + K
            else default 0 (content_length r) in
          Open temp_file (if 0 <? K then AB else WB) ∈ evs
          /\ (forall p mode,
                Open p mode ∈ evs ->
                p = temp_file /\ mode = if 0 <? K then AB else WB)
          /\ fs st' !! (if has_fault (body r) then temp_file else destination)
             = Some ((if 0 <? K then staged destination (fs st) else [])
                     ++ stream_data (body r))
          /\ (forall c t m, Progress c t m ∈ evs -> t = total)
          /\ (content_length r = None -> total = if 0 <? K then K else 0)
          /\ (forall pre p data post,
                evs = pre ++ Write p data :: post ->
                exists post',
                  post = Progress
                           (K + Z.of_nat (length (written_data pre ++ data)))
                           total (Baixando_bytes file) :: post')).
Proof.
  rewrite download_file_run. intros [= <- <-] temp_file file K range. simpl.
  exists (fetch_events url destination true st).
  split; [done|]. unfold fetch_events. fold temp_file file K.
  unfold range_headers. fold K range.
  set (resume_log := match fs st !! temp_file with Some _ => _ | None => _ end).
  assert (forall e, e ∈ resume_log -> is_log e) as Hlog.
  { subst resume_log. intros e He.
    destruct (fs st !! temp_file); in_cases He; by subst. }
  split; [apply elem_of_app; right; apply elem_of_cons; by left|].
  split.
  - intros u h t Hin. apply elem_of_app in Hin as [Hin|Hin].
    { by apply Hlog in Hin. }
    apply elem_of_cons in Hin as [[= -> -> ->]|Hin]; [done|].
    destruct (net st) as [|[|r] rest]; try by apply elem_of_nil in Hin.
    destruct (good_status r); [|by apply elem_of_nil in Hin].
    destruct (has_fault (body r)); in_cases Hin; try discriminate;
      by apply chunk_events_kinds in Hin.
  - intros r rest Hnet Hgood. rewrite Hnet, Hgood.
    unfold total_bytes. fold K.
    set (total := if 0 <? K then default 0 (content_length r) + K
                  else default 0 (content_length r)).
    set (ce := chunk_events temp_file file true total (body r) K).
    set (tail := if has_fault (body r) then [] else _).
    assert (forall e, e ∈ tail ->
              match e with Rename _ _ | Log _ _ => True | _ => False end)
      as Htail.
    { subst tail. intros e He.
      destruct (has_fault (body r)); in_cases He; by subst. }
    split; [|split; [|split; [|split; [|split]]]].
    + apply elem_of_app. right. simpl. do 2 (apply elem_of_cons; right).
      apply elem_of_cons. by left.
    + intros p mode Hin. in_cases Hin; try discriminate.
      * by apply Hlog in Hin.
      * by injection Hin as -> ->.
      * by apply chunk_events_kinds in Hin.
      * by apply Htail in Hin.
    + unfold fetch_fs. rewrite Hnet, Hgood. simpl.
      assert ((if 0 <? K then staged destination (fs st) else [])
              = staged destination (fs st)) as ->.
      { subst K. unfold resume_offset.
        destruct (0 <? _) eqn:HK; [done|]. by rewrite (length_zero_nil _ HK). }
      destruct (has_fault (body r)); apply lookup_insert_eq.
    + intros c t m Hin. in_cases Hin; try discriminate.
      * by apply Hlog in Hin.
      * by injection Hin as _ -> _.
      * by apply chunk_events_total in Hin.
      * by apply Htail in Hin.
    + intros Hnone. subst total. rewrite Hnone. simpl. by destruct (0 <? K).
    + intros pre p data post Hsplit. simpl in Hsplit.
      apply split_write_right in Hsplit as (pre1 & -> & Hsplit);
        [|apply Forall_forall; intros e He; apply Hlog in He; destruct e; simpl in *; naive_solver].
      change (Request url range (timeout self)
              :: Progress K total (Iniciando_download file)
              :: Open temp_file (if 0 <? K then AB else WB) :: ce ++ tail)
        with ([Request url range (timeout self);
               Progress K total (Iniciando_download file);
               Open temp_file (if 0 <? K then AB else WB)] ++ ce ++ tail)
        in Hsplit.
      apply split_write_right in Hsplit as (pre2 & -> & Hsplit);
        [|repeat constructor; naive_solver].
      apply split_write_left in Hsplit as (post2 & Hce & ->);
        [|apply Forall_forall; intros e He; apply Htail in He; destruct e; simpl in *; naive_solver].
      apply chunk_events_reported in Hce as (post' & ->).
      exists (post' ++ tail). simpl. do 2 f_equal.
      rewrite !written_data_app. simpl.
      rewrite (written_data_none resume_log); [done|].
      apply Forall_forall. intros e He. apply Hlog in He.
      destruct e; simpl in *; naive_solver.
Qed.

(** ** Dictionaries *)

Lemma dict_get_set_eq {V} k (v : V) d : dict_get k (dict_set k v d) = Some v.
Proof.
  induction d as [|[k' v'] d IH]; simpl.
  - by rewrite String.eqb_refl.
  - destruct (String.eqb_spec k k') as [->|Hne]; simpl.
    + by rewrite String.eqb_refl.
    + by destruct (String.eqb_spec k k').
Qed.

Lemma dict_get_set_ne {V} k k' (v : V) d :
  k <> k' -> dict_get k' (dict_set k v d) = dict_get k' d.
Proof.
  intros Hne. induction d as [|[k0 v0] d IH]; simpl.
  - destruct (String.eqb_spec k' k); [congruence|done].
  - destruct (String.eqb_spec k k0) as [->|Hne0]; simpl.
    + destruct (String.eqb_spec k' k0); [congruence|done].
    + by destruct (String.eqb_spec k' k0).
Qed.

Lemma dict_get_alter {V} (f : V -> V) k k' d :
  dict_get k' (dict_alter f k d)
  = if String.eqb k k' then f <$> dict_get k' d else dict_get k' d.
Proof.
  induction d as [|[k0 v0] d IH]; simpl.
  - by destruct (String.eqb k k').
  - destruct (String.eqb_spec k k0) as [->|Hne0]; simpl.
    + destruct (String.eqb_spec k' k0) as [->|Hne]; simpl.
      * by rewrite String.eqb_refl.
      * by destruct (String.eqb_spec k0 k').
    + destruct (String.eqb_spec k' k0) as [->|Hne]; simpl.
      * by destruct (String.eqb_spec k k0).
      * apply IH.
Qed.

Lemma keys_alter {V} (f : V -> V) k d : keys (dict_alter f k d) = keys d.
Proof.
  induction d as [|[k0 v0] d IH]; simpl; [done|].
  destruct (String.eqb k k0); simpl; [done|]. by rewrite IH.
Qed.

Lemma dict_get_None {V} k (d : dict V) : dict_get k d = None <-> k ∉ keys d.
Proof.
  induction d as [|[k0 v0] d IH]; simpl.
  - split; [intros _; apply not_elem_of_nil|done].
  - rewrite not_elem_of_cons.
    destruct (String.eqb_spec k k0) as [->|Hne];
      [split; [done|intros [H _]; by destruct H]|].
    rewrite IH. split; [by intros ?; split|by intros [_ ?]].
Qed.

Lemma dict_get_Some_key {V} k (d : dict V) v :
  dict_get k d = Some v -> k ∈ keys d.
Proof.
  intros H. destruct (decide (k ∈ keys d)) as [|Hn]; [done|].
  apply dict_get_None in Hn. congruence.
Qed.

Lemma keys_set_subseteq {V} k (v : V) d x :
  x ∈ keys (dict_set k v d) -> x = k \/ x ∈ keys d.
Proof.
  induction d as [|[k0 v0] d IH]; simpl.
  - intros ?%list_elem_of_singleton. by left.
  - destruct (String.eqb_spec k k0) as [->|Hne]; simpl.
    + rewrite !elem_of_cons. intros [?|?]; auto.
    + rewrite !elem_of_cons. intros [->|H]; [auto|].
      apply IH in H. destruct H; auto.
Qed.

(** ** [check_installed] *)

Lemma set_status_run name s st :
  set_status name s st
  = (Ok tt, State (dict_alter (ModelInfo.with_status s) name (models st))
              (fs st) (net st) (trace st)).
Proof. reflexivity. Qed.

Lemma check_items_run items status_dict st :
  exists evs ms,
    check_items items status_dict st
    = (Ok (status_of (fs st) items status_dict),
       State ms (fs st) (net st) (trace st ++ evs))
    /\ Forall is_log evs
    /\ keys ms = keys (models st).
Proof.
  revert status_dict st.
  induction items as [|[name model] rest IH]; intros status_dict st; simpl.
  - exists [], (models st). rewrite app_nil_r. by destruct st.
  - rewrite (bind_ok _ _ _ _ _ (path_exists_run _ _)).
    assert (exists evs,
      (if negb (bool_decide (is_Some (fs st !! _get_model_path model)))
       then mret NOT_INSTALLED
       else if truthy_opt (ModelInfo.checksum model)
            then ok ← _verify_checksum (_get_model_path model)
                        (ModelInfo.checksum model)
                        (ModelInfo.checksum_type model);
                 mret (if negb (ok : bool) then CORRUPTED else INSTALLED)
            else mret INSTALLED) st
      = (Ok (classify (fs st) model), add_events st evs)
      /\ Forall is_log evs) as (evs1 & Hstatus & Hevs1).
    { unfold classify.
      destruct (fs st !! _get_model_path model) as [data|] eqn:Hf; simpl;
        [|exists []; by rewrite add_events_nil].
      destruct (truthy_opt (ModelInfo.checksum model)); simpl;
        [|exists []; by rewrite add_events_nil].
      destruct (verify_run (_get_model_path model) (ModelInfo.checksum model)
                  (ModelInfo.checksum_type model) st) as (evs & Hv & Hevs).
      rewrite (bind_ok _ _ _ _ _ Hv). by exists evs. }
    rewrite (bind_ok _ _ _ _ _ Hstatus).
    rewrite (bind_ok _ _ _ _ _ (set_status_run _ _ _)).
    edestruct IH as (evs2 & ms & -> & Hevs2 & Hkeys). simpl.
    exists (evs1 ++ evs2), ms. rewrite app_assoc.
    split; [done|]. split; [by apply Forall_app|].
    rewrite Hkeys. simpl. apply keys_alter.
Qed.

Lemma status_of_other f items status_dict name :
  name ∉ keys items ->
  dict_get name (status_of f items status_dict) = dict_get name status_dict.
Proof.
  revert status_dict.
  induction items as [|[k v] rest IH]; intros status_dict; simpl; [done|].
  rewrite not_elem_of_cons. intros [Hne Hrest].
  unfold status_of in *. simpl. rewrite IH by done.
  by apply dict_get_set_ne.
Qed.

Lemma status_of_lookup f items status_dict name model :
  NoDup (keys items) ->
  dict_get name items = Some model ->
  dict_get name (status_of f items status_dict) = Some (classify f model).
Proof.
  revert status_dict.
  induction items as [|[k v] rest IH]; intros status_dict; simpl; [done|].
  intros [Hk Hnodup]%NoDup_cons.
  unfold status_of in *. simpl.
  destruct (String.eqb_spec name k) as [->|Hne].
  - intros [= ->]. fold (status_of f rest (dict_set k (classify f model) status_dict)).
    rewrite status_of_other by done. apply dict_get_set_eq.
  - by apply IH.
Qed.

Lemma status_of_keys f items status_dict name :
  name ∈ keys (status_of f items status_dict) ->
  name ∈ keys items \/ name ∈ keys status_dict.
Proof.
  revert status_dict.
  induction items as [|[k v] rest IH]; intros status_dict; simpl; [naive_solver|].
  unfold status_of in *. simpl. intros [H|H]%IH.
  - left. apply elem_of_cons. naive_solver.
  - apply keys_set_subseteq in H as [->|H]; [|naive_solver].
    left. apply elem_of_cons. naive_solver.
Qed.

(** C1: for every model of the catalog, [check_installed] reports
    [NOT_INSTALLED] when no file is at its resolved path, [CORRUPTED] when a
    file is there, a checksum is declared and its verification fails, and
    [INSTALLED] otherwise; in particular a staging file [path.part] without
    a file at [path] is never reported [INSTALLED]. *)
Theorem check_installed_classifies st name model :
  NoDup (keys (models st)) ->
  dict_get name (models st) = Some model ->
  let model_path := _get_model_path model in
  let verdict :=
    (_verify_checksum model_path (ModelInfo.checksum model)
       (ModelInfo.checksum_type model) st).1 in
  exists status_dict st',
    check_installed st = (Ok status_dict, st')
    /\ (fs st !! model_path = None ->
        dict_get name status_dict = Some NOT_INSTALLED)
    /\ (is_Some (fs st !! model_path) ->
        truthy_opt (ModelInfo.checksum model) = true ->
        verdict = Ok false ->
        dict_get name status_dict = Some CORRUPTED)
    /\ (is_Some (fs st !! model_path) ->
        ~ (truthy_opt (ModelInfo.checksum model) = true /\ verdict = Ok false) ->
        dict_get name status_dict = Some INSTALLED)
    /\ (fs st !! model_path = None ->
        is_Some (fs st !! part_file model_path) ->
        dict_get name status_dict <> Some INSTALLED).
Proof.
  intros Hnodup Hget model_path verdict.
  unfold check_installed. unfold mbind, M_bind, get_models.
  destruct (check_items_run (models st) [] st) as (evs & ms & -> & _ & _).
  eexists _, _. split; [reflexivity|].
  rewrite (status_of_lookup _ _ _ _ _ Hnodup Hget).
  subst verdict. rewrite verify_value. unfold classify. fold model_path.
  split; [by intros ->|]. split; [|split].
  - intros [data ->] -> [= ->]. reflexivity.
  - intros [data ->] Hnot.
    destruct (truthy_opt (ModelInfo.checksum model)); [|done].
    destruct (verified _ _ _ _); [done|]. destruct Hnot. by split.
  - intros -> _. discriminate.
Qed.

(** ** [download_model] *)

Lemma schedule_app evs1 evs2 :
  schedule (evs1 ++ evs2) = schedule evs1 ++ schedule evs2.
Proof. induction evs1 as [|[] evs1 IH]; simpl; by rewrite ?IH. Qed.

Lemma schedule_logs evs : Forall is_log evs -> schedule evs = [].
Proof. induction 1 as [|[] evs He _ IH]; simpl in *; done. Qed.

Lemma schedule_chunk_events temp_file file cb total_size chunks downloaded :
  schedule (chunk_events temp_file file cb total_size chunks downloaded) = [].
Proof.
  revert downloaded.
  induction chunks as [|[[|b data]|] rest IH]; intros downloaded; simpl; auto.
  rewrite schedule_app, IH. by destruct cb.
Qed.

Lemma schedule_fetch_events url destination cb st :
  schedule (fetch_events url destination cb st) = [Fetch].
Proof.
  unfold fetch_events. rewrite schedule_app.
  rewrite (schedule_logs (match fs st !! _ with Some _ => _ | None => _ end))
    by (destruct (fs st !! _); repeat constructor).
  simpl. f_equal.
  destruct (net st) as [|[|r] rest]; try done.
  destruct (good_status r); [|done].
  rewrite schedule_app. destruct cb; simpl;
    rewrite schedule_app, schedule_chunk_events;
    by destruct (has_fault (body r)).
Qed.

Lemma unlink_run p st :
  unlink p st
  = (Ok tt, State (models st) (delete p (fs st)) (net st)
              (trace st ++ [Unlink p])).
Proof. reflexivity. Qed.

Lemma attempt_once_run model_name model model_path cb attempt st :
  exists evs,
    attempt_once model_name model model_path cb attempt st
    = (Ok (attempt_outcome model model_path attempt st),
       State (attempt_models model_name model model_path st)
         (attempt_fs model model_path st) (tl (net st)) (trace st ++ evs))
    /\ schedule evs = attempt_ticks attempt st
    /\ (fetch_result st = Ok tt -> fetched_corrupt model model_path st = true ->
        Unlink model_path ∈ evs).
Proof.
  unfold attempt_once, try_except, attempt_outcome, attempt_models, attempt_fs,
    attempt_ticks, after_failure.
  rewrite (bind_ok _ _ _ _ _ (log_run _ _ _)).
  set (started := Log INFO _).
  unfold mbind at 1, M_bind at 1. rewrite download_file_run.
  change (fetch_result (add_events st [started])) with (fetch_result st).
  change (fetch_fs model_path (add_events st [started]))
    with (fetch_fs model_path st).
  change (fetch_events (ModelInfo.url model) model_path cb
            (add_events st [started]))
    with (fetch_events (ModelInfo.url model) model_path cb st).
  cbn [add_events models fs net trace].
  set (evs0 := [started] ++ fetch_events (ModelInfo.url model) model_path cb st).
  assert (schedule evs0 = [Fetch]) as Hsched
    by (subst evs0 started; simpl; apply schedule_fetch_events).
  rewrite <- app_assoc. fold evs0. clearbody evs0. clear started.
  destruct (fetch_result st) as [[]|e] eqn:Hres.
  - unfold fetched_corrupt.
    destruct (truthy_opt (ModelInfo.checksum model)); simpl.
    + set (st1 := State _ _ _ _).
      destruct (verify_run model_path (ModelInfo.checksum model)
                  (ModelInfo.checksum_type model) st1) as (evs1 & Hv & Hevs1).
      rewrite (bind_ok _ _ _ _ _ Hv). subst st1. cbn [fs].
      destruct (verified _ _ _ _); simpl.
      * eexists. rewrite <- ?app_assoc. split; [reflexivity|].
        rewrite !schedule_app, Hsched, (schedule_logs evs1) by done.
        split; [done|]. discriminate.
      * unfold mbind, M_bind, unlink, get_fs, set_fs, emit. simpl.
        eexists. rewrite <- ?app_assoc.
        destruct (attempt <? max_retries self); (split; [reflexivity|]);
          rewrite !schedule_app, Hsched, (schedule_logs evs1) by done;
          (split; [done|]); intros _ _; rewrite !elem_of_app;
          right; right; right; apply elem_of_cons; by left.
    + eexists. rewrite <- ?app_assoc. split; [reflexivity|].
      rewrite !schedule_app, Hsched. split; [done|]. discriminate.
  - destruct (attempt <? max_retries self);
      unfold mbind, M_bind, log, sleep, emit; simpl.
    + eexists. rewrite <- ?app_assoc. split; [reflexivity|].
      rewrite !schedule_app, Hsched. split; [done|]. discriminate.
    + eexists. rewrite <- ?app_assoc. split; [reflexivity|].
      rewrite !schedule_app, Hsched. split; [done|]. discriminate.
Qed.

Lemma same_artifact_refl m : same_artifact m m.
Proof. done. Qed.

Lemma same_artifact_status m s : same_artifact m (ModelInfo.with_status s m).
Proof. done. Qed.

Lemma same_artifact_trans m1 m2 m3 :
  same_artifact m1 m2 -> same_artifact m2 m3 -> same_artifact m1 m3.
Proof. unfold same_artifact. congruence. Qed.

Lemma same_artifact_fields m m' :
  same_artifact m m' ->
  _get_model_path m' = _get_model_path m
  /\ ModelInfo.checksum m' = ModelInfo.checksum m
  /\ ModelInfo.checksum_type m' = ModelInfo.checksum_type m
  /\ ModelInfo.url m' = ModelInfo.url m
  /\ ModelInfo.size m' = ModelInfo.size m.
Proof.
  destruct m, m'. unfold same_artifact, ModelInfo.with_status, _get_model_path.
  simpl. intros H. injection H as -> -> -> -> -> -> -> -> -> ->. done.
Qed.

Lemma verified_untruthy f p expected ct :
  truthy_opt expected = false -> verified f p expected ct = true.
Proof. unfold verified. destruct expected as [e|]; simpl; [|done]. by intros ->. Qed.

Lemma fetch_ok_present destination st :
  fetch_result st = Ok tt -> is_Some (fetch_fs destination st !! destination).
Proof.
  unfold fetch_result, fetch_fs.
  destruct (net st) as [|[|r] rest]; try done.
  destruct (good_status r); [|done].
  destruct (has_fault (body r)); [done|].
  intros _. rewrite lookup_insert_eq. eauto.
Qed.

Lemma attempt_models_keys model_name model model_path st :
  keys (attempt_models model_name model model_path st) = keys (models st).
Proof.
  unfold attempt_models. destruct (fetch_result st); [|done].
  destruct (fetched_corrupt _ _ _); [done|]. apply keys_alter.
Qed.

Lemma attempt_models_entry model_name model model_path st m :
  dict_get model_name (models st) = Some m ->
  exists m',
    dict_get model_name (attempt_models model_name model model_path st) = Some m'
    /\ same_artifact m m'.
Proof.
  intros Hm. unfold attempt_models.
  destruct (fetch_result st); [|by exists m].
  destruct (fetched_corrupt _ _ _); [by exists m|].
  rewrite dict_get_alter, String.eqb_refl, Hm. simpl. eauto using same_artifact_status.
Qed.

Lemma attempt_success model model_path attempt st :
  attempt_outcome model model_path attempt st = Some true ->
  is_Some (attempt_fs model model_path st !! model_path)
  /\ verified (attempt_fs model model_path st) model_path
       (ModelInfo.checksum model) (ModelInfo.checksum_type model) = true.
Proof.
  unfold attempt_outcome, attempt_fs, after_failure.
  destruct (fetch_result st) as [[]|e] eqn:Hres;
    [|by destruct (attempt <? max_retries self)].
  destruct (fetched_corrupt model model_path st) eqn:Hc;
    [by destruct (attempt <? max_retries self)|].
  intros _. split; [by apply fetch_ok_present|].
  unfold fetched_corrupt in Hc.
  destruct (truthy_opt (ModelInfo.checksum model)) eqn:Ht; simpl in Hc.
  - by apply negb_false_iff in Hc.
  - by apply verified_untruthy.
Qed.

(** The retry loop never raises; it keeps the catalog's entries, and when it
    answers [True] the file is in place and verifies. *)
Lemma retry_loop_run model_name model model_path cb attempts st :
  exists b st',
    retry_loop model_name model model_path cb attempts st = (Ok b, st')
    /\ keys (models st') = keys (models st)
    /\ (forall m,
          dict_get model_name (models st) = Some m ->
          exists m',
            dict_get model_name (models st') = Some m' /\ same_artifact m m')
    /\ (b = true ->
        is_Some (fs st' !! model_path)
        /\ verified (fs st') model_path (ModelInfo.checksum model)
             (ModelInfo.checksum_type model) = true).
Proof.
  revert st. induction attempts as [|attempt rest IH]; intros st; simpl.
  - exists false, st. split; [done|]. split; [done|]. split; [eauto using same_artifact_refl|done].
  - destruct (attempt_once_run model_name model model_path cb attempt st)
      as (evs & Hrun & _ & _).
    rewrite (bind_ok _ _ _ _ _ Hrun).
    set (st1 := State _ _ _ _) in *.
    assert (keys (models st1) = keys (models st)) as Hkeys
      by apply attempt_models_keys.
    assert (forall m,
              dict_get model_name (models st) = Some m ->
              exists m', dict_get model_name (models st1) = Some m'
                         /\ same_artifact m m') as Hentry
      by (intros m; apply attempt_models_entry).
    destruct (attempt_outcome model model_path attempt st) as [b|] eqn:Hout.
    + exists b, st1. split; [done|]. split; [done|]. split; [done|].
      intros ->. by apply attempt_success in Hout.
    + destruct (IH st1) as (b & st' & -> & Hk & He & Hb).
      exists b, st'. split; [done|]. split; [congruence|]. split; [|done].
      intros m Hm. apply Hentry in Hm as (m1 & Hm1 & Hs1).
      apply He in Hm1 as (m' & Hm' & Hs'). eauto using same_artifact_trans.
Qed.

Lemma py_range_nil lo hi : hi <= lo -> py_range lo hi = [].
Proof. intros H. unfold py_range. by replace (Z.to_nat (hi - lo)) with 0%nat by lia. Qed.

Lemma py_range_cons lo hi :
  lo < hi -> py_range lo hi = lo :: py_range (lo + 1) hi.
Proof.
  intros H. unfold py_range.
  replace (Z.to_nat (hi - lo)) with (S (Z.to_nat (hi - (lo + 1)))) by lia.
  simpl. f_equal; [lia|].
  rewrite <- seq_shift, map_map. apply map_ext. intros i. lia.
Qed.

Lemma download_model_unfold model_name cb force st model :
  dict_get model_name (models st) = Some model ->
  exists evs,
    Forall is_log evs
    /\ download_model model_name cb force st
       = if already_there model force st
         then (Ok true, add_events st evs)
         else
           match mkdir_error (path_split (_get_model_path model) "").1 (fs st) with
           | Some e => (Raise e, add_events st evs)
           | None =>
               retry_loop model_name model (_get_model_path model) cb
                 (py_range 1 (max_retries self + 1))
                 (add_events st
                    (evs ++ [Mkdir (path_split (_get_model_path model) "").1]))
           end.
Proof.
  intros Hm. unfold download_model, already_there.
  unfold mbind at 1, M_bind at 1, get_models at 1. rewrite Hm.
  rewrite (bind_ok _ _ _ _ _ (path_exists_run _ _)).
  set (model_path := _get_model_path model).
  destruct (bool_decide (is_Some (fs st !! model_path))); simpl.
  - destruct force; simpl.
    + exists []. split; [done|]. rewrite add_events_nil. simpl.
      rewrite (bind_ok _ _ _ _ _ (eq_refl : (mret false : M bool) st = (Ok false, st))).
      rewrite bind_run, mkdir_run. by destruct (mkdir_error _ _).
    + assert (exists evs,
        (log INFO ("Modelo " +:+ model_name +:+ " já existe em " +:+ model_path);;
         ok ← _verify_checksum model_path (ModelInfo.checksum model)
                (ModelInfo.checksum_type model);
         if (ok : bool) then
           log SUCCESS ("Modelo " +:+ model_name +:+ " verificado com sucesso");;
           mret true
         else
           log WARNING ("Checksum inválido para " +:+ model_name
                        +:+ ", baixando novamente");;
           mret false) st
        = (Ok (verified (fs st) model_path (ModelInfo.checksum model)
                 (ModelInfo.checksum_type model)), add_events st evs)
        /\ Forall is_log evs) as (evs & Hpre & Hevs).
      { rewrite (bind_ok _ _ _ _ _ (log_run _ _ _)).
        destruct (verify_run model_path (ModelInfo.checksum model)
                    (ModelInfo.checksum_type model)
                    (add_events st [Log INFO ("Modelo " +:+ model_name
                       +:+ " já existe em " +:+ model_path)]))
          as (evs1 & Hv & Hevs1).
        rewrite (bind_ok _ _ _ _ _ Hv). cbn [add_events fs].
        destruct (verified _ _ _ _);
          rewrite (bind_ok _ _ _ _ _ (log_run _ _ _));
          unfold add_events; simpl; rewrite <- !app_assoc;
          (eexists; split; [reflexivity|]);
          (apply Forall_cons; split; [done|]);
          (apply Forall_app; split; [done|repeat constructor]). }
      rewrite (bind_ok _ _ _ _ _ Hpre). exists evs. split; [done|].
      destruct (verified _ _ _ _); [done|].
      rewrite bind_run, mkdir_run. cbn [add_events fs].
      destruct (mkdir_error _ _); [done|]. by rewrite add_events_app.
  - exists []. split; [done|]. rewrite add_events_nil. simpl.
    rewrite (bind_ok _ _ _ _ _ (eq_refl : (mret false : M bool) st = (Ok false, st))).
    rewrite bind_run, mkdir_run. by destruct (mkdir_error _ _).
Qed.

(** C5: with [force=False], a file at the resolved path that passes
    verification (trivially so when no checksum is declared) makes
    [download_model] return [True] at once: it only logs, so no request is
    issued and disk and server are untouched; hence a call that follows a
    successful call issues no request. *)
Theorem download_model_idempotent model_name model cb st :
  dict_get model_name (models st) = Some model ->
  let model_path := _get_model_path model in
  let short_circuit st0 :=
    exists evs,
      download_model model_name cb false st0 = (Ok true, add_events st0 evs)
      /\ Forall is_log evs
      /\ (forall u h t, Request u h t ∉ evs) in
  (is_Some (fs st !! model_path) ->
   (_verify_checksum model_path (ModelInfo.checksum model)
      (ModelInfo.checksum_type model) st).1 = Ok true ->
   short_circuit st)
  /\ (is_Some (fs st !! model_path) ->
      truthy_opt (ModelInfo.checksum model) = false ->
      short_circuit st)
  /\ (forall cb1 force st1,
        download_model model_name cb1 force st = (Ok true, st1) ->
        short_circuit st1).
Proof.
  intros Hm model_path short_circuit.
  assert (forall st0 m,
            dict_get model_name (models st0) = Some m ->
            same_artifact model m ->
            is_Some (fs st0 !! model_path) ->
            verified (fs st0) model_path (ModelInfo.checksum model)
              (ModelInfo.checksum_type model) = true ->
            short_circuit st0) as Hshort.
  { intros st0 m Hm0 Hsame Hex Hver.
    apply same_artifact_fields in Hsame as (Hp & Hc & Ht & _).
    destruct (download_model_unfold model_name cb false st0 m Hm0)
      as (evs & Hevs & Hrun).
    unfold already_there in Hrun. rewrite Hp, Hc, Ht in Hrun.
    fold model_path in Hrun. rewrite bool_decide_true, Hver in Hrun by done.
    exists evs. split; [done|]. split; [done|].
    intros u h t Hin. by apply (proj1 (Forall_forall _ _) Hevs) in Hin. }
  split; [|split].
  - intros Hex Hver. rewrite verify_value in Hver. injection Hver as Hver.
    by apply (Hshort st model).
  - intros Hex Hno. apply (Hshort st model); try done.
    by apply verified_untruthy.
  - intros cb1 force st1 Hrun.
    destruct (download_model_unfold model_name cb1 force st model Hm)
      as (evs & Hevs & Hunfold).
    rewrite Hunfold in Hrun. clear Hunfold.
    destruct (already_there model force st) eqn:Hthere.
    + injection Hrun as <-. unfold already_there in Hthere.
      apply andb_true_iff in Hthere as [Hthere Hver].
      apply andb_true_iff in Hthere as [Hex _].
      apply bool_decide_eq_true in Hex.
      by apply (Hshort _ model).
    + destruct (retry_loop_run model_name model model_path cb1
                  (py_range 1 (max_retries self + 1))
                  (add_events st
                     (evs ++ [Mkdir (path_split model_path "").1])))
        as (b & st' & Hloop & _ & Hentry & Hb).
      fold model_path in Hrun. destruct (mkdir_error _ _); [done|].
      rewrite Hloop in Hrun.
      injection Hrun as -> ->.
      destruct (Hentry model Hm) as (m' & Hm' & Hsame).
      destruct (Hb eq_refl) as [Hex Hver].
      by apply (Hshort _ m').
Qed.

(** *** The retry budget *)

Lemma failing_fetch_raises st :
  Forall (fun r => failing r = true) (net st) ->
  exists e, fetch_result st = Raise e.
Proof.
  unfold fetch_result. destruct (net st) as [|[|r] rest]; eauto.
  intros [Hr _]%Forall_cons. simpl in Hr.
  destruct (good_status r); [|eauto].
  simpl in Hr. rewrite Hr. eauto.
Qed.

Lemma complete_fetch_ok st r rest :
  net st = r :: rest -> failing r = false -> fetch_result st = Ok tt.
Proof.
  unfold fetch_result. intros -> Hr. destruct r as [|r]; [done|].
  simpl in Hr. apply orb_false_iff in Hr as [Hg Hf].
  apply negb_false_iff in Hg. by rewrite Hg, Hf.
Qed.

Lemma retry_loop_all_fail model_name model model_path cb attempts st :
  Forall (fun r => failing r = true) (net st) ->
  exists st' evs,
    retry_loop model_name model model_path cb attempts st = (Ok false, st')
    /\ trace st' = trace st ++ evs
    /\ schedule evs
       = concat (map (fun attempt =>
                        if attempt <? max_retries self
                        then [Fetch; Wait (2 ^ attempt)] else [Fetch])
                     (tried attempts)).
Proof.
  revert st. induction attempts as [|attempt rest IH]; intros st Hnet; simpl.
  - exists st, []. by rewrite app_nil_r.
  - destruct (attempt_once_run model_name model model_path cb attempt st)
      as (evs & Hrun & Hsched & _).
    rewrite (bind_ok _ _ _ _ _ Hrun). clear Hrun.
    destruct (failing_fetch_raises st Hnet) as [e He].
    unfold attempt_outcome, attempt_ticks, after_failure in *. rewrite He in *.
    set (st1 := State _ _ _ _).
    destruct (attempt <? max_retries self) eqn:Hlt.
    + destruct (IH st1) as (st' & evs' & -> & Htr & Hs').
      { subst st1. simpl. destruct (net st); [done|].
        by apply Forall_cons in Hnet as [_ ?]. }
      exists st', (evs ++ evs'). split; [done|].
      split; [by rewrite Htr, app_assoc|].
      rewrite schedule_app, Hsched, Hs'. simpl. by rewrite Hlt.
    + exists st1, evs. split; [done|]. split; [done|].
      rewrite Hsched. simpl. by rewrite Hlt.
Qed.

Lemma retry_loop_all_corrupt model_name model model_path cb attempts st :
  (forall f, verified f model_path (ModelInfo.checksum model)
               (ModelInfo.checksum_type model) = false) ->
  Forall (fun r => failing r = false) (net st) ->
  (length attempts <= length (net st))%nat ->
  exists st' evs,
    retry_loop model_name model model_path cb attempts st = (Ok false, st')
    /\ trace st' = trace st ++ evs
    /\ schedule evs = map (fun _ => Fetch) (tried attempts)
    /\ (fs st !! model_path = None \/ attempts <> [] ->
        fs st' !! model_path = None)
    /\ (attempts <> [] -> Unlink model_path ∈ evs).
Proof.
  intros Hnever. revert st.
  induction attempts as [|attempt rest IH]; intros st Hnet Hlen; simpl.
  - exists st, []. rewrite app_nil_r. repeat split; try done. by intros [?|?].
  - destruct (attempt_once_run model_name model model_path cb attempt st)
      as (evs & Hrun & Hsched & Hunlink).
    rewrite (bind_ok _ _ _ _ _ Hrun). clear Hrun.
    destruct (net st) as [|r replies] eqn:Hreplies; [simpl in Hlen; lia|].
    apply Forall_cons in Hnet as [Hr Hnet].
    pose proof (complete_fetch_ok st r replies Hreplies Hr) as Hok.
    assert (fetched_corrupt model model_path st = true) as Hcorrupt.
    { unfold fetched_corrupt. rewrite Hnever.
      destruct (truthy_opt (ModelInfo.checksum model)) eqn:Ht; [done|].
      pose proof (Hnever ∅) as H0.
      by rewrite verified_untruthy in H0. }
    specialize (Hunlink Hok Hcorrupt).
    unfold attempt_outcome, attempt_ticks, attempt_fs, after_failure in *.
    rewrite Hok, Hcorrupt in *.
    set (st1 := State _ _ _ _).
    assert (fs st1 !! model_path = None) as Hgone by apply lookup_delete_eq.
    destruct (attempt <? max_retries self) eqn:Hlt.
    + destruct (IH st1) as (st' & evs' & -> & Htr & Hs' & Hlast & _).
      { done. } { subst st1. simpl in *. lia. }
      exists st', (evs ++ evs'). split; [done|].
      split; [by rewrite Htr, app_assoc|].
      split; [by rewrite schedule_app, Hsched, Hs'|].
      split; [intros _; apply Hlast; by left|].
      intros _. apply elem_of_app. by left.
    + exists st1, evs. by repeat split.
Qed.

Lemma tried_range k :
  tried (py_range k (max_retries self + 1)) = py_range k (max_retries self + 1).
Proof.
  remember (Z.to_nat (max_retries self + 1 - k)) as n eqn:Hn.
  revert k Hn. induction n as [|n IH]; intros k Hn.
  - by rewrite py_range_nil by lia.
  - rewrite py_range_cons by lia. simpl.
    destruct (Z.ltb_spec k (max_retries self)).
    + by rewrite IH by lia.
    + by rewrite py_range_nil by lia.
Qed.

Lemma fetches_backoff k n :
  k <= n + 1 ->
  fetches (concat (map (fun attempt =>
                          if attempt <? n then [Fetch; Wait (2 ^ attempt)]
                          else [Fetch])
                       (py_range k (n + 1)))) = n + 1 - k.
Proof.
  remember (Z.to_nat (n + 1 - k)) as m eqn:Hm.
  revert k Hm. induction m as [|m IH]; intros k Hm Hk.
  - rewrite py_range_nil by lia. unfold fetches. simpl. lia.
  - rewrite py_range_cons by lia. simpl.
    specialize (IH (k + 1) ltac:(lia) ltac:(lia)).
    unfold fetches in *. destruct (k <? n); simpl; lia.
Qed.

Lemma waits_backoff k n :
  waits (concat (map (fun attempt =>
                        if attempt <? n then [Fetch; Wait (2 ^ attempt)]
                        else [Fetch])
                     (py_range k (n + 1))))
  = map (Z.pow 2) (py_range k n).
Proof.
  remember (Z.to_nat (n + 1 - k)) as m eqn:Hm.
  revert k Hm. induction m as [|m IH]; intros k Hm.
  - by rewrite !py_range_nil by lia.
  - rewrite py_range_cons by lia. simpl.
    specialize (IH (k + 1) ltac:(lia)).
    destruct (Z.ltb_spec k n).
    + rewrite (py_range_cons k n) by lia. simpl. unfold waits in *. simpl.
      by rewrite IH.
    + rewrite (py_range_nil k n) by lia.
      rewrite py_range_nil by lia. done.
Qed.

Lemma backoff_increasing k n :
  0 <= k -> StronglySorted Z.lt (map (Z.pow 2) (py_range k n)).
Proof.
  remember (Z.to_nat (n - k)) as m eqn:Hm.
  revert k Hm. induction m as [|m IH]; intros k Hm Hk.
  - rewrite py_range_nil by lia. constructor.
  - rewrite py_range_cons by lia. simpl. constructor; [apply IH; lia|].
    apply Forall_forall. intros x Hx.
    apply list_elem_of_fmap in Hx as (a & -> & Ha).
    unfold py_range in Ha. apply list_elem_of_fmap in Ha as (i & -> & _).
    apply Z.pow_lt_mono_r; lia.
Qed.

Lemma length_py_range lo hi : length (py_range lo hi) = Z.to_nat (hi - lo).
Proof. unfold py_range. by rewrite length_map, length_seq. Qed.

Lemma fetches_only (l : list Z) :
  fetches (map (fun _ => Fetch) l) = Z.of_nat (length l).
Proof. unfold fetches. induction l as [|a l IH]; simpl; [done|]. lia. Qed.

Lemma waits_only (l : list Z) : waits (map (fun _ => Fetch) l) = [].
Proof. unfold waits. by induction l. Qed.

Lemma schedule_setup evs p :
  Forall is_log evs -> schedule (evs ++ [Mkdir p]) = [].
Proof. intros H. by rewrite schedule_app, schedule_logs. Qed.

(** C4: when the call reaches the retry loop (forced, or no file at the
    path, or the file there fails verification; and the destination
    directory can be created) and every reply makes the fetch raise, [download_model] makes exactly [max_retries] fetch attempts,
    sleeps [2 ^ attempt] after every attempt but the last -- a strictly
    increasing sequence -- and returns [False].  When a fetch succeeds and the
    fetched file fails its checksum, the file at the destination is deleted
    without a sleep and the loop goes on with the remaining attempts while
    [attempt < max_retries], returning [False] otherwise; so if every fetch
    succeeds and no content matches the checksum, [download_model] returns
    [False] after [max_retries] attempts and leaves no file at the path. *)
Theorem download_model_retry_budget model_name model cb force st :
  dict_get model_name (models st) = Some model ->
  0 <= max_retries self ->
  let model_path := _get_model_path model in
  let checksum := ModelInfo.checksum model in
  let checksum_type := ModelInfo.checksum_type model in
  (force = true \/ fs st !! model_path = None
   \/ (_verify_checksum model_path checksum checksum_type st).1 = Ok false ->
   (mkdir (path_split model_path "").1 st).1 = Ok tt ->
   Forall (fun r => failing r = true) (net st) ->
   exists st' evs,
     download_model model_name cb force st = (Ok false, st')
     /\ trace st' = trace st ++ evs
     /\ schedule evs = backoff_schedule (max_retries self)
     /\ fetches (schedule evs) = max_retries self
     /\ waits (schedule evs) = map (Z.pow 2) (py_range 1 (max_retries self))
     /\ StronglySorted Z.lt (waits (schedule evs)))
  /\ (forall attempt rest st0,
        let fetched :=
          _download_file (ModelInfo.url model) model_path
            (ModelInfo.size model) cb st0 in
        fetched.1 = Ok tt ->
        truthy_opt checksum = true ->
        (_verify_checksum model_path checksum checksum_type fetched.2).1
          = Ok false ->
        exists st1 evs,
          trace st1 = trace st0 ++ evs
          /\ Unlink model_path ∈ evs
          /\ fs st1 !! model_path = None
          /\ waits (schedule evs) = []
          /\ retry_loop model_name model model_path cb (attempt :: rest) st0
             = if attempt <? max_retries self
               then retry_loop model_name model model_path cb rest st1
               else (Ok false, st1))
  /\ ((forall st0,
         (_verify_checksum model_path checksum checksum_type st0).1 = Ok false) ->
      (mkdir (path_split model_path "").1 st).1 = Ok tt ->
      Forall (fun r => failing r = false) (net st) ->
      max_retries self <= Z.of_nat (length (net st)) ->
      exists st' evs,
        download_model model_name cb force st = (Ok false, st')
        /\ trace st' = trace st ++ evs
        /\ fetches (schedule evs) = max_retries self
        /\ waits (schedule evs) = []
        /\ (0 < max_retries self ->
            Unlink model_path ∈ evs /\ fs st' !! model_path = None)).
Proof.
  intros Hm Hmax model_path checksum checksum_type.
  destruct (download_model_unfold model_name cb force st model Hm)
    as (evs0 & Hevs0 & Hunfold).
  fold model_path in Hunfold.
  set (st0 := add_events st (evs0 ++ [Mkdir (path_split model_path "").1]))
    in Hunfold.
  split; [|split].
  - intros Hloop Hdir Hnet.
    assert (already_there model force st = false) as Hthere.
    { unfold already_there. fold model_path checksum checksum_type.
      destruct Hloop as [->|[->|Hv]].
      - by rewrite andb_false_r.
      - by rewrite bool_decide_false by (by intros [? ?]).
      - rewrite verify_value in Hv. injection Hv as ->.
        by rewrite andb_false_r. }
    apply mkdir_ok in Hdir. rewrite Hthere, Hdir in Hunfold.
    destruct (retry_loop_all_fail model_name model model_path cb
                (py_range 1 (max_retries self + 1)) st0 Hnet)
      as (st' & evs & Hrun & Htr & Hsched).
    rewrite tried_range in Hsched. fold (backoff_schedule (max_retries self)) in Hsched.
    exists st', ((evs0 ++ [Mkdir (path_split model_path "").1]) ++ evs).
    split; [congruence|]. split; [by rewrite Htr, app_assoc|].
    rewrite schedule_app, schedule_setup, Hsched by done. simpl.
    split; [done|]. unfold backoff_schedule.
    split; [rewrite fetches_backoff; lia|].
    rewrite waits_backoff. split; [done|]. by apply backoff_increasing.
  - intros attempt rest st1 fetched. subst fetched.
    rewrite download_file_run. simpl. intros Hok Htruthy Hv.
    rewrite verify_value in Hv. simpl in Hv. injection Hv as Hv.
    destruct (attempt_once_run model_name model model_path cb attempt st1)
      as (evs & Hrun & Hsched & Hunlink).
    assert (fetched_corrupt model model_path st1 = true) as Hcorrupt.
    { unfold fetched_corrupt. fold checksum checksum_type.
      by rewrite Htruthy, Hv. }
    specialize (Hunlink Hok Hcorrupt).
    unfold attempt_outcome, attempt_ticks, attempt_fs, after_failure in *.
    rewrite Hok, Hcorrupt in *.
    eexists _, evs. split; [|split; [done|split; [|split]]];
      [| |by rewrite Hsched|].
    3: { rewrite (bind_ok _ _ _ _ _ Hrun).
         destruct (attempt <? max_retries self); reflexivity. }
    + done.
    + apply lookup_delete_eq.
  - intros Hnever Hdir Hnet Hlen.
    assert (forall f, verified f model_path checksum checksum_type = false)
      as Hnever'.
    { intros f. specialize (Hnever (State [] f [] [])).
      rewrite verify_value in Hnever. by injection Hnever. }
    assert (already_there model force st = false) as Hthere.
    { unfold already_there. fold model_path checksum checksum_type.
      by rewrite Hnever', andb_false_r. }
    apply mkdir_ok in Hdir. rewrite Hthere, Hdir in Hunfold.
    destruct (retry_loop_all_corrupt model_name model model_path cb
                (py_range 1 (max_retries self + 1)) st0 Hnever' Hnet)
      as (st' & evs & Hrun & Htr & Hsched & Hgone & Hunlink).
    { rewrite length_py_range. subst st0. simpl. lia. }
    rewrite tried_range in Hsched.
    exists st', ((evs0 ++ [Mkdir (path_split model_path "").1]) ++ evs).
    split; [congruence|]. split; [by rewrite Htr, app_assoc|].
    rewrite schedule_app, schedule_setup, Hsched by done. simpl.
    rewrite fetches_only, waits_only, length_py_range.
    split; [lia|]. split; [done|].
    intros Hpos.
    assert (py_range 1 (max_retries self + 1) <> []) as Hne
      by (rewrite py_range_cons by lia; done).
    split; [apply elem_of_app; right; by apply Hunlink|].
    apply Hgone. by right.
Qed.

(** *** What escapes [download_model] *)

Lemma retry_loop_never_verifies model_name model model_path cb attempts st :
  (forall f, verified f model_path (ModelInfo.checksum model)
               (ModelInfo.checksum_type model) = false) ->
  exists st', retry_loop model_name model model_path cb attempts st = (Ok false, st').
Proof.
  intros Hnever. revert st.
  induction attempts as [|attempt rest IH]; intros st; simpl; [by exists st|].
  destruct (attempt_once_run model_name model model_path cb attempt st)
    as (evs & Hrun & _ & _).
  rewrite (bind_ok _ _ _ _ _ Hrun). clear Hrun.
  assert (attempt_outcome model model_path attempt st = after_failure attempt)
    as ->.
  { unfold attempt_outcome. destruct (fetch_result st) as [[]|e]; [|done].
    unfold fetched_corrupt. rewrite Hnever.
    destruct (truthy_opt (ModelInfo.checksum model)) eqn:Ht; [done|].
    pose proof (Hnever ∅) as H0. by rewrite verified_untruthy in H0. }
  unfold after_failure. destruct (attempt <? max_retries self); [apply IH|eauto].
Qed.

(** A fetch that raises is logged and absorbed by its iteration. *)
Lemma attempt_once_raise model_name model model_path cb attempt st e :
  fetch_result st = Raise e ->
  exists st1 evs,
    attempt_once model_name model model_path cb attempt st
    = (Ok (after_failure attempt), st1)
    /\ trace st1 = trace st ++ evs
    /\ Log ERROR ("Erro ao baixar " +:+ model_name +:+ ": " +:+ exn_str e) ∈ evs.
Proof.
  intros Hres. unfold attempt_once, try_except, after_failure.
  rewrite (bind_ok _ _ _ _ _ (log_run _ _ _)).
  rewrite bind_run, download_file_run.
  change (fetch_result (add_events st _)) with (fetch_result st). rewrite Hres.
  destruct (attempt <? max_retries self);
    unfold mbind, M_bind, log, sleep, emit; cbn [add_events models fs net trace];
    (eexists _, _; split; [reflexivity|]); cbn [trace];
    rewrite <- ?app_assoc; (split; [reflexivity|]);
    rewrite !elem_of_app, !list_elem_of_singleton; auto.
Qed.

(** A fetched file that fails its checksum is logged and absorbed too. *)
Lemma attempt_once_corrupt model_name model model_path cb attempt st :
  fetch_result st = Ok tt ->
  fetched_corrupt model model_path st = true ->
  exists st1 evs,
    attempt_once model_name model model_path cb attempt st
    = (Ok (after_failure attempt), st1)
    /\ trace st1 = trace st ++ evs
    /\ Log ERROR ("Checksum inválido para " +:+ model_name) ∈ evs.
Proof.
  intros Hres Hcorrupt. unfold attempt_once, try_except, after_failure.
  rewrite (bind_ok _ _ _ _ _ (log_run _ _ _)).
  rewrite bind_run, download_file_run.
  change (fetch_result (add_events st _)) with (fetch_result st). rewrite Hres.
  unfold fetched_corrupt in Hcorrupt.
  apply andb_true_iff in Hcorrupt as [Ht Hv]. apply negb_true_iff in Hv.
  rewrite Ht.
  set (st1 := State _ _ _ _).
  destruct (verify_run model_path (ModelInfo.checksum model)
              (ModelInfo.checksum_type model) st1) as (evs1 & Hrun & _).
  rewrite (bind_ok _ _ _ _ _ Hrun).
  change (fs st1) with (fetch_fs model_path st). rewrite Hv.
  destruct (attempt <? max_retries self);
    unfold mbind, M_bind, log, unlink, get_fs, set_fs, emit;
    cbn [add_events models fs net trace st1];
    (eexists _, _; split; [reflexivity|]); cbn [trace];
    rewrite <- ?app_assoc; (split; [reflexivity|]);
    rewrite !elem_of_app, !list_elem_of_singleton; auto 10.
Qed.

(** C7: [download_model] raises [ModelNotFoundError] exactly when the name is
    not in the catalog, and then nothing was attempted (the state is
    untouched: no request, no sleep).  For a name of the catalog, transfer
    and integrity failures do not escape: an exception can only leave the
    call before the first attempt (nothing but log entries precedes it); the
    retry loop never raises; an iteration whose fetch raises, or whose
    fetched file fails the checksum, logs the error and either goes on with
    the remaining attempts or, at the last attempt, returns [False]; [True]
    is returned only with a file in place that verifies; and a call that
    reaches the loop returns [False] when every reply makes the fetch raise
    or when no content matches the checksum. *)
Theorem download_model_not_found model_name cb force st :
  (dict_get model_name (models st) = None ->
   download_model model_name cb force st
   = (Raise (ModelNotFoundError model_name "Unknown"
               (path_join (comfyui_path self) "models")), st))
  /\ (forall n t p,
        (download_model model_name cb force st).1
          = Raise (ModelNotFoundError n t p) ->
        dict_get model_name (models st) = None)
  /\ (forall model,
        dict_get model_name (models st) = Some model ->
        let model_path := _get_model_path model in
        let checksum := ModelInfo.checksum model in
        let checksum_type := ModelInfo.checksum_type model in
        let loop := retry_loop model_name model model_path cb in
        let fetch :=
          _download_file (ModelInfo.url model) model_path (ModelInfo.size model)
            cb in
        (forall e st',
           download_model model_name cb force st = (Raise e, st') ->
           exists evs, st' = add_events st evs /\ Forall is_log evs)
        /\ (forall st',
              download_model model_name cb force st = (Ok true, st') ->
              is_Some (fs st' !! model_path)
              /\ (_verify_checksum model_path checksum checksum_type st').1
                 = Ok true)
        /\ (forall attempts st0, exists b st1, loop attempts st0 = (Ok b, st1))
        /\ (forall st0, loop [] st0 = (Ok false, st0))
        /\ (forall attempt rest st0 e,
              (fetch st0).1 = Raise e ->
              exists st1 evs,
                trace st1 = trace st0 ++ evs
                /\ Log ERROR ("Erro ao baixar " +:+ model_name +:+ ": "
                              +:+ exn_str e) ∈ evs
                /\ loop (attempt :: rest) st0
                   = if attempt <? max_retries self
                     then loop rest st1 else (Ok false, st1))
        /\ (forall attempt rest st0,
              (fetch st0).1 = Ok tt ->
              truthy_opt checksum = true ->
              (_verify_checksum model_path checksum checksum_type
                 (fetch st0).2).1 = Ok false ->
              exists st1 evs,
                trace st1 = trace st0 ++ evs
                /\ Log ERROR ("Checksum inválido para " +:+ model_name) ∈ evs
                /\ loop (attempt :: rest) st0
                   = if attempt <? max_retries self
                     then loop rest st1 else (Ok false, st1))
        /\ (force = true \/ fs st !! model_path = None
            \/ (_verify_checksum model_path checksum checksum_type st).1
               = Ok false ->
            (mkdir (path_split model_path "").1 st).1 = Ok tt ->
            Forall (fun r => failing r = true) (net st)
            \/ (forall st0,
                  (_verify_checksum model_path checksum checksum_type st0).1
                  = Ok false) ->
            (download_model model_name cb force st).1 = Ok false)).
Proof.
  split; [|split].
  - intros Hm. unfold download_model, mbind, M_bind, get_models. by rewrite Hm.
  - intros n t p Hraise.
    destruct (dict_get model_name (models st)) as [model|] eqn:Hm; [|done].
    destruct (download_model_unfold model_name cb force st model Hm)
      as (evs & _ & Hunfold). rewrite Hunfold in Hraise.
    destruct (already_there model force st); [done|].
    unfold mkdir_error in Hraise.
    destruct (bool_decide _); [done|]. destruct (existsb _ _); [done|].
    destruct (retry_loop_run model_name model (_get_model_path model) cb
                (py_range 1 (max_retries self + 1))
                (add_events st
                   (evs ++ [Mkdir (path_split (_get_model_path model) "").1])))
      as (b & st' & Hloop & _).
    rewrite Hloop in Hraise. done.
  - intros model Hm model_path checksum checksum_type loop fetch.
    destruct (download_model_unfold model_name cb force st model Hm)
      as (evs0 & Hevs0 & Hunfold).
    fold model_path in Hunfold.
    set (st0 := add_events st (evs0 ++ [Mkdir (path_split model_path "").1]))
      in Hunfold.
    destruct (retry_loop_run model_name model model_path cb
                (py_range 1 (max_retries self + 1)) st0)
      as (b0 & st0' & Hloop0 & _ & _ & Hb0).
    split; [|split; [|split; [|split; [|split; [|split]]]]].
    + intros e st' Hraise. rewrite Hunfold in Hraise.
      destruct (already_there model force st); [done|].
      destruct (mkdir_error _ _); [|by rewrite Hloop0 in Hraise].
      injection Hraise as _ <-. by exists evs0.
    + intros st' Hrun. rewrite Hunfold in Hrun.
      destruct (already_there model force st) eqn:Hthere.
      * injection Hrun as <-. unfold already_there in Hthere.
        apply andb_true_iff in Hthere as [Hthere Hver].
        apply andb_true_iff in Hthere as [Hex _].
        apply bool_decide_eq_true in Hex.
        split; [done|]. rewrite verify_value. f_equal. exact Hver.
      * destruct (mkdir_error _ _); [done|].
        rewrite Hloop0 in Hrun. injection Hrun as -> ->.
        destruct (Hb0 eq_refl) as [Hex Hver]. split; [done|].
        rewrite verify_value. by f_equal.
    + intros attempts st1.
      destruct (retry_loop_run model_name model model_path cb attempts st1)
        as (b & st' & Hloop & _). eauto.
    + done.
    + intros attempt rest st1 e Hfetch. subst fetch.
      rewrite download_file_run in Hfetch. cbn [fst] in Hfetch.
      destruct (attempt_once_raise model_name model model_path cb attempt st1 e
                  Hfetch) as (st2 & evs & Hrun & Htrace & Hlog).
      exists st2, evs. split; [done|]. split; [done|].
      subst loop. cbn [retry_loop]. rewrite (bind_ok _ _ _ _ _ Hrun).
      unfold after_failure. by destruct (attempt <? max_retries self).
    + intros attempt rest st1 Hfetch Htruthy Hv. subst fetch.
      rewrite download_file_run in Hfetch, Hv. cbn [fst snd] in Hfetch, Hv.
      rewrite verify_value in Hv. cbn [fs] in Hv. injection Hv as Hv.
      assert (fetched_corrupt model model_path st1 = true) as Hcorrupt.
      { unfold fetched_corrupt. fold checksum checksum_type.
        by rewrite Htruthy, Hv. }
      destruct (attempt_once_corrupt model_name model model_path cb attempt st1
                  Hfetch Hcorrupt) as (st2 & evs & Hrun & Htrace & Hlog).
      exists st2, evs. split; [done|]. split; [done|].
      subst loop. cbn [retry_loop]. rewrite (bind_ok _ _ _ _ _ Hrun).
      unfold after_failure. by destruct (attempt <? max_retries self).
    + intros Hreach Hdir Hfail.
      assert (already_there model force st = false) as Hthere.
      { unfold already_there. fold model_path checksum checksum_type.
        destruct Hreach as [->|[->|Hv]].
        - by rewrite andb_false_r.
        - by rewrite bool_decide_false by (by intros [? ?]).
        - rewrite verify_value in Hv. injection Hv as ->.
          by rewrite andb_false_r. }
      apply mkdir_ok in Hdir. rewrite Hunfold, Hthere, Hdir.
      destruct Hfail as [Hnet|Hnever].
      * destruct (retry_loop_all_fail model_name model model_path cb
                    (py_range 1 (max_retries self + 1)) st0 Hnet)
          as (st' & evs & -> & _). done.
      * destruct (retry_loop_never_verifies model_name model model_path cb
                    (py_range 1 (max_retries self + 1)) st0) as (st' & ->);
          [|done].
        intros f. specialize (Hnever (State [] f [] [])).
        rewrite verify_value in Hnever. by injection Hnever.
Qed.

(** ** [download_all] *)

Lemma check_installed_run st :
  exists evs ms,
    check_installed st
    = (Ok (status_of (fs st) (models st) []),
       State ms (fs st) (net st) (trace st ++ evs))
    /\ Forall is_log evs
    /\ keys ms = keys (models st).
Proof.
  unfold check_installed, mbind, M_bind, get_models.
  destruct (check_items_run (models st) [] st) as (evs & ms & -> & H).
  by exists evs, ms.
Qed.

Lemma to_download_keys skip_existing status name :
  name ∈ to_download skip_existing status -> name ∈ keys status.
Proof.
  unfold to_download, keys. intros Hin.
  apply list_elem_of_fmap in Hin as (entry & -> & Hin).
  apply list_elem_of_In, filter_In in Hin as [Hin _].
  apply list_elem_of_fmap. exists entry. split; [done|].
  by apply list_elem_of_In.
Qed.

Lemma download_model_run model_name cb force st :
  model_name ∈ keys (models st) ->
  exists r st',
    download_model model_name cb force st = (r, st')
    /\ keys (models st') = keys (models st).
Proof.
  intros Hin. destruct (dict_get model_name (models st)) as [model|] eqn:Hm;
    [|by apply dict_get_None in Hm].
  destruct (download_model_unfold model_name cb force st model Hm)
    as (evs & _ & ->).
  destruct (already_there model force st); [by eexists _, _|].
  destruct (mkdir_error _ _); [by eexists _, _|].
  destruct (retry_loop_run model_name model (_get_model_path model) cb
              (py_range 1 (max_retries self + 1))
              (add_events st
                 (evs ++ [Mkdir (path_split (_get_model_path model) "").1])))
    as (b & st' & -> & Hkeys & _).
  by eexists _, _.
Qed.

Lemma download_nth_run cb total i model_name st :
  model_name ∈ keys (models st) ->
  exists r st',
    download_nth cb total i model_name st = (r, st')
    /\ keys (models st') = keys (models st).
Proof.
  intros Hin. unfold download_nth.
  rewrite (bind_ok _ _ _ _ _ (log_run _ _ _)).
  rewrite (bind_ok _ _ _ _ _ (progress_run _ _ _ _ _)).
  rewrite add_events_app.
  by apply (download_model_run model_name cb false (add_events st _)).
Qed.

Lemma count_of_cons b ok outcomes :
  count_of b (ok :: outcomes)
  = (if Bool.eqb b ok then 1 else 0) + count_of b outcomes.
Proof. unfold count_of. simpl. destruct (Bool.eqb b ok); simpl; lia. Qed.

Lemma count_of_total outcomes :
  count_of true outcomes + count_of false outcomes = Z.of_nat (length outcomes).
Proof.
  induction outcomes as [|[] outcomes IH]; [done| |];
    rewrite !count_of_cons; simpl length; simpl Bool.eqb; lia.
Qed.

Lemma acquisitions_length cb total i names st outcomes st' :
  acquisitions cb total i names st outcomes st' ->
  length outcomes = length names.
Proof. induction 1; simpl; congruence. Qed.

(** When every call returns, the loop of [download_all] tallies the
    outcomes. *)
Lemma download_each_acquired cb total names i successes failures st outcomes st' :
  acquisitions cb total i names st outcomes st' ->
  download_each cb total names i successes failures st
  = (Ok (successes + count_of true outcomes,
         failures + count_of false outcomes), st').
Proof.
  intros Hacq. revert successes failures.
  induction Hacq as [i st|i name rest st ok st1 outcomes st2 Hrun _ IH];
    intros successes failures; simpl.
  - unfold count_of. simpl. by rewrite !Z.add_0_r.
  - rewrite (bind_ok _ _ _ _ _ Hrun). destruct ok; rewrite IH, !count_of_cons;
      simpl; do 2 f_equal; f_equal; lia.
Qed.

(** A call that raises ends the loop there. *)
Lemma download_each_aborted cb total finished name rest i successes failures
    st outcomes st1 e st2 :
  acquisitions cb total i finished st outcomes st1 ->
  download_nth cb total (i + Z.of_nat (length finished)) name st1
    = (Raise e, st2) ->
  download_each cb total (finished ++ name :: rest) i successes failures st
  = (Raise e, st2).
Proof.
  intros Hacq. revert successes failures.
  induction Hacq as [i st|i name0 rest0 st ok st1 outcomes st3 Hrun _ IH];
    intros successes failures Hraise; simpl in *.
  - rewrite Z.add_0_r in Hraise. by rewrite (bind_raise _ _ _ _ _ Hraise).
  - rewrite (bind_ok _ _ _ _ _ Hrun).
    destruct ok; apply IH; by replace (i + 1 + Z.of_nat (length rest0))
                               with (i + Z.pos (Pos.of_succ_nat (length rest0)))
                               by lia.
Qed.

(** The loop either goes through all the names or stops at the first call
    that raises. *)
Lemma download_each_cases cb total names i st :
  Forall (fun name => name ∈ keys (models st)) names ->
  (exists outcomes st', acquisitions cb total i names st outcomes st')
  \/ (exists finished name rest outcomes st1 e st2,
        names = finished ++ name :: rest
        /\ acquisitions cb total i finished st outcomes st1
        /\ download_nth cb total (i + Z.of_nat (length finished)) name st1
           = (Raise e, st2)).
Proof.
  revert i st. induction names as [|name rest IH]; intros i st Hin.
  - left. exists [], st. constructor.
  - apply Forall_cons in Hin as [Hname Hrest].
    destruct (download_nth_run cb total i name st Hname)
      as ([ok|e] & st1 & Hrun & Hkeys).
    + assert (Forall (fun name => name ∈ keys (models st1)) rest) as Hrest1
        by (by rewrite Hkeys).
      destruct (IH (i + 1) st1 Hrest1)
        as [(outcomes & st' & Hacq)
           |(finished & name' & rest' & outcomes & st2 & e & st3 & -> & Hacq & Hraise)].
      * left. exists (ok :: outcomes), st'. by econstructor.
      * right. exists (name :: finished), name', rest', (ok :: outcomes), st2, e, st3.
        split; [done|]. split; [by econstructor|].
        simpl length. by replace (i + Z.of_nat (S (length finished)))
                           with (i + 1 + Z.of_nat (length finished)) by lia.
    + right. exists [], name, rest, [], st, e, st1.
      split; [done|]. split; [constructor|]. simpl. by rewrite Z.add_0_r.
Qed.

Lemma acquisitions_functional cb total i names st outcomes1 st1 outcomes2 st2 :
  acquisitions cb total i names st outcomes1 st1 ->
  acquisitions cb total i names st outcomes2 st2 ->
  outcomes1 = outcomes2 /\ st1 = st2.
Proof.
  intros H1. revert outcomes2 st2.
  induction H1 as [|i name rest st ok sta outcomes stb Hrun _ IH];
    intros outcomes2 st2 H2; inversion H2; subst; [done|].
  match goal with
  | H : download_nth _ _ _ _ _ = (Ok ?ok', ?st') |- _ =>
      rewrite Hrun in H; injection H as <- <-
  end.
  match goal with
  | H : acquisitions _ _ _ _ _ _ _ |- _ => apply IH in H as [-> ->]
  end.
  done.
Qed.

Lemma to_download_installed status :
  Forall (fun entry : string * ModelStatus => entry.2 = INSTALLED) status ->
  to_download true status = [].
Proof.
  unfold to_download. induction 1 as [|[name s] status Hs _ IH]; [done|].
  simpl in *. subst s. unfold needs_download at 1. simpl. exact IH.
Qed.

(** X14: what [download_all] returns.  After the status check, an empty required
    set -- as with [skip_existing] when every model is reported [INSTALLED] --
    gives [(len(models), 0)] with nothing but log entries.  Otherwise
    [download_model] is called for the models of the required set, one after
    the other: when every call returns, whatever the outcomes, the result is
    the numbers of [True] and [False] outcomes, hence [(count - 1, 1)] with
    exactly one [False]; when a call raises, [download_all] raises the same
    exception at that point, and the models after it are not attempted.  One
    of the two happens. *)
Theorem download_all_tally cb skip_existing st :
  let started :=
    add_events st [Log INFO "Iniciando download de todos os modelos"] in
  let status := status_of (fs st) (models st) [] in
  let required := to_download skip_existing status in
  let count := Z.of_nat (length required) in
  let checked := (check_installed started).2 in
  let begun :=
    add_events checked [Log INFO ("Modelos a baixar: " +:+ pretty count)] in
  (check_installed started).1 = Ok status
  /\ (skip_existing = true ->
      Forall (fun entry : string * ModelStatus => entry.2 = INSTALLED) status ->
      required = [])
  /\ (required = [] ->
      download_all cb skip_existing st
      = (Ok (Z.of_nat (length (models st)), 0),
         add_events checked
           [Log SUCCESS "Todos os modelos já estão instalados"])
      /\ fs checked = fs st
      /\ net checked = net st
      /\ exists evs, trace checked = trace st ++ evs /\ Forall is_log evs)
  /\ (required <> [] ->
      (forall outcomes st2,
         acquisitions cb count 1 required begun outcomes st2 ->
         length outcomes = length required
         /\ (download_all cb skip_existing st).1
            = Ok (count_of true outcomes, count_of false outcomes)
         /\ (count_of false outcomes = 1 ->
             (download_all cb skip_existing st).1 = Ok (count - 1, 1)))
      /\ (forall finished name rest outcomes st1 e st2,
            required = finished ++ name :: rest ->
            acquisitions cb count 1 finished begun outcomes st1 ->
            download_nth cb count (1 + Z.of_nat (length finished)) name st1
              = (Raise e, st2) ->
            download_all cb skip_existing st = (Raise e, st2))
      /\ ((exists outcomes st2,
             acquisitions cb count 1 required begun outcomes st2)
          \/ (exists finished name rest outcomes st1 e st2,
                required = finished ++ name :: rest
                /\ acquisitions cb count 1 finished begun outcomes st1
                /\ download_nth cb count (1 + Z.of_nat (length finished)) name
                     st1 = (Raise e, st2)))).
Proof.
  intros started status required count checked begun.
  destruct (check_installed_run started) as (evs & ms & Hcheck & Hevs & Hkeys).
  change (fs started) with (fs st) in Hcheck.
  change (models started) with (models st) in Hcheck, Hkeys.
  change (net started) with (net st) in Hcheck.
  fold status in Hcheck.
  assert (checked = State ms (fs st) (net st) (trace started ++ evs)) as Hchecked
    by (subst checked; by rewrite Hcheck).
  assert (download_all cb skip_existing st
          = match required with
            | [] =>
                (Ok (Z.of_nat (length (models checked)), 0),
                 add_events checked
                   [Log SUCCESS "Todos os modelos já estão instalados"])
            | _ =>
                (counts ← download_each cb count required 1 0 0;
                 progress cb count count Download_concluido;;
                 log INFO ("Download finalizado: " +:+ pretty counts.1
                           +:+ " sucessos, " +:+ pretty counts.2 +:+ " falhas");;
                 mret counts) begun
            end) as Hall.
  { unfold download_all. rewrite (bind_ok _ _ _ _ _ (log_run _ _ _)).
    fold started. rewrite (bind_ok _ _ _ _ _ Hcheck). rewrite <- Hchecked.
    fold (to_download skip_existing status). fold required.
    destruct required as [|name rest] eqn:Hreq.
    - by rewrite (bind_ok _ _ _ _ _ (log_run _ _ _)).
    - fold count. by rewrite (bind_ok _ _ _ _ _ (log_run _ _ _)). }
  split; [by rewrite Hcheck|]. split; [|split].
  - intros -> Hall_installed. by apply to_download_installed.
  - intros Hreq. rewrite Hall, Hreq.
    split; [|split; [by rewrite Hchecked|split; [by rewrite Hchecked|]]].
    + do 3 f_equal. rewrite Hchecked. simpl. unfold keys in Hkeys.
      by rewrite <- (length_map fst ms), <- (length_map fst (models st)), Hkeys.
    + rewrite Hchecked. simpl. eexists. rewrite <- app_assoc.
      split; [reflexivity|]. by constructor.
  - intros Hreq. split; [|split].
    + intros outcomes st2 Hacq.
      split; [by apply acquisitions_length in Hacq|].
      assert ((download_all cb skip_existing st).1
              = Ok (count_of true outcomes, count_of false outcomes)) as Hres.
      { rewrite Hall. destruct required as [|name rest]; [done|].
        rewrite (bind_ok _ _ _ _ _ (download_each_acquired _ _ _ _ 0 0 _ _ _ Hacq)).
        rewrite (bind_ok _ _ _ _ _ (progress_run _ _ _ _ _)).
        rewrite (bind_ok _ _ _ _ _ (log_run _ _ _)). done. }
      split; [done|]. intros Hone. rewrite Hres. do 2 f_equal; [|done].
      pose proof (count_of_total outcomes).
      apply acquisitions_length in Hacq. subst count. lia.
    + intros finished name rest outcomes st1 e st2 Hsplit Hacq Hraise.
      rewrite Hall. destruct required as [|name0 rest0]; [done|].
      rewrite Hsplit.
      by rewrite (bind_raise _ _ _ _ _
                    (download_each_aborted _ _ _ _ rest _ 0 0 _ _ _ _ _ Hacq Hraise)).
    + apply download_each_cases. apply Forall_forall. intros name Hin.
      apply to_download_keys in Hin.
      apply status_of_keys in Hin as [Hin|Hin]; [|by apply elem_of_nil in Hin].
      subst begun. rewrite Hchecked. simpl. unfold keys in *. by rewrite Hkeys.
Qed.

(** ** [_load_models_config] *)




Lemma dict_get_elem_of {V} k (v : V) d : dict_get k d = Some v -> (k, v) ∈ d.
Proof.
  induction d as [|[k0 v0] d IH]; simpl; [done|].
  destruct (String.eqb_spec k k0) as [->|Hne].
  - intros [= ->]. apply elem_of_cons. by left.
  - intros H. apply elem_of_cons. right. by apply IH.
Qed.

(** *** The catalog the loop builds *)





(** *** Running the loader *)

Lemma P_bind_run {A B} (c : P A) (f : A -> P B) st :
  (c ≫= f) st
  = match c st with
    | Some (Ok a, st') => f a st'
    | Some (Raise e, st') => Some (Raise e, st')
    | None => None
    end.
Proof. reflexivity. Qed.

Lemma lift_run {A} (c : M A) st : lift c st = Some (c st).
Proof. reflexivity. Qed.







(** The loader on a mapping whose ['models'] value can be iterated. *)
Lemma load_config_run items value entries st :
  map_get "models" items = Some value ->
  iterate value st = (Ok entries, st) ->
  _load_models_config (Present (Some (YMap items))) st
  = try_except_P
      (load_entries entries;;
       d ← lift get_models;
       lift (log INFO ("Carregados " +:+ pretty (Z.of_nat (length d))
                       +:+ " modelos da configuração")))
      (fun e =>
         lift (log ERROR ("Erro ao carregar configuração de modelos: "
                          +:+ exn_str e);;
               raise e)) st.
Proof.
  intros Hget Hiter.
  assert (yaml_truthy (YMap items) = true) as Htruthy
    by (by destruct items).
  unfold _load_models_config, try_except_P.
  match goal with
  | |- match ?a with _ => _ end = match ?b with _ => _ end =>
      replace a with b; [done|]
  end.
  rewrite !P_bind_run. unfold lift at 3. cbn [mret M_ret].
  unfold lift at 3. rewrite Htruthy. unfold contains, subscript.
  rewrite Hget. cbn [negb]. rewrite bool_decide_true by eauto.
  rewrite P_bind_run, lift_run, bind_run. cbn [mret M_ret negb].
  rewrite P_bind_run, lift_run. cbn [mret M_ret].
  rewrite P_bind_run, lift_run, Hiter. reflexivity.
Qed.

Ltac run_loader :=
  repeat first
    [ rewrite P_bind_run | rewrite lift_run | rewrite bind_run
    | progress cbn [mret M_ret negb raise] ].

Lemma load_config_shape config st :
  _load_models_config (Present (Some config)) st
  = match config_shape config with
    | Unusable =>
        Some (Ok tt,
              add_events st
                [Log WARNING "Configuração de modelos vazia ou inválida"])
    | Fails e =>
        Some (Raise e,
              add_events st
                [Log ERROR ("Erro ao carregar configuração de modelos: "
                            +:+ exn_str e)])
    | Entries entries =>
        try_except_P
          (load_entries entries;;
           d ← lift get_models;
           lift (log INFO ("Carregados " +:+ pretty (Z.of_nat (length d))
                           +:+ " modelos da configuração")))
          (fun e =>
             lift (log ERROR ("Erro ao carregar configuração de modelos: "
                              +:+ exn_str e);;
                   raise e)) st
    end.
Proof.
  unfold config_shape.
  destruct (yaml_truthy config) eqn:Htruthy; cbn [negb].
  2: { unfold _load_models_config, try_except_P. run_loader.
       rewrite Htruthy. run_loader. reflexivity. }
  destruct config as [|b|n|s|items|items]; try discriminate Htruthy.
  - unfold _load_models_config, try_except_P. run_loader.
    rewrite Htruthy. run_loader. reflexivity.
  - unfold _load_models_config, try_except_P. run_loader.
    rewrite Htruthy. run_loader. reflexivity.
  - unfold _load_models_config, try_except_P. run_loader.
    rewrite Htruthy. run_loader. unfold contains. run_loader.
    destruct (bool_decide _); run_loader; reflexivity.
  - unfold _load_models_config, try_except_P. run_loader.
    rewrite Htruthy. run_loader. unfold contains. run_loader.
    destruct (existsb _ _); run_loader; reflexivity.
  - destruct (map_get "models" items) as [value|] eqn:Hget.
    + destruct value as [|b|n|s|entries|entries];
        try (by erewrite load_config_run by (try exact Hget; reflexivity)).
      all: unfold _load_models_config, try_except_P; run_loader;
        rewrite Htruthy; run_loader; unfold contains, subscript;
        rewrite Hget; run_loader; rewrite bool_decide_true by eauto;
        run_loader; reflexivity.
    + unfold _load_models_config, try_except_P. run_loader.
      rewrite Htruthy. run_loader. unfold contains. rewrite Hget.
      rewrite bool_decide_false by (by intros [? ?]). run_loader. reflexivity.
Qed.


(** C8, amended: loading the manifest, as the constructor does on its empty
    catalog, fails -- the error is logged and raised again -- when the file
    is present but cannot be parsed (the parser's error) and when the
    document has a ['models'] entry that cannot be looked up or iterated: a
    mapping whose ['models'] value is null, a boolean or a number, a sequence
    or a string that contains ['models'], a top-level [true] or non-zero
    number ([TypeError]).  It does not fail and leaves the catalog empty,
    with a logged warning, when the file is missing, when the document is
    empty or another false value, and when it is a mapping without the key
    ['models'] (or a sequence or string that does not contain it). *)
Theorem load_models_config_cases st :
  models st = [] ->
  (exists st',
     _load_models_config Missing st = Some (Ok tt, st')
     /\ models st' = []
     /\ Log WARNING ("Arquivo de configuração não encontrado: "
                     +:+ models_config self) ∈ trace st')
  /\ (exists st',
        _load_models_config (Present None) st = Some (Raise YAMLError, st')
        /\ Log ERROR ("Erro ao carregar configuração de modelos: "
                      +:+ exn_str YAMLError) ∈ trace st')
  /\ (forall config,
        yaml_truthy config = false
        \/ (exists items, config = YMap items /\ map_get "models" items = None)
        \/ (exists items,
              config = YList items /\ existsb (is_str "models") items = false)
        \/ (exists s, config = YStr s /\ String.index 0 "models" s = None) ->
        exists st',
          _load_models_config (Present (Some config)) st = Some (Ok tt, st')
          /\ models st' = []
          /\ Log WARNING "Configuração de modelos vazia ou inválida" ∈ trace st')
  /\ (forall config,
        (exists items value,
           config = YMap items
           /\ map_get "models" items = Some value
           /\ (value = YNull \/ (exists b, value = YBool b)
               \/ (exists n, value = YInt n)))
        \/ config = YBool true
        \/ (exists n, config = YInt n /\ n <> 0)
        \/ (exists items,
              config = YList items /\ existsb (is_str "models") items = true)
        \/ (exists s, config = YStr s /\ is_Some (String.index 0 "models" s)) ->
        exists st',
          _load_models_config (Present (Some config)) st
          = Some (Raise TypeError, st')
          /\ models st' = []
          /\ Log ERROR ("Erro ao carregar configuração de modelos: "
                        +:+ exn_str TypeError) ∈ trace st').
Proof.
  intros Hempty. split; [|split; [|split]].
  - eexists. split; [reflexivity|]. split; [done|].
    simpl. apply elem_of_app. right. by apply list_elem_of_singleton.
  - eexists. split; [reflexivity|].
    simpl. apply elem_of_app. right. by apply list_elem_of_singleton.
  - intros config Hshape.
    assert (config_shape config = Unusable) as Hunusable.
    { unfold config_shape.
      destruct Hshape as [->|[(items & -> & Hget)|[(items & -> & Hin)
                                                  |(s & -> & Hin)]]];
        [done| | |].
      - rewrite Hget. by destruct (yaml_truthy _).
      - rewrite Hin. by destruct (yaml_truthy _).
      - rewrite Hin. rewrite bool_decide_false by (by intros [? ?]).
        by destruct (yaml_truthy _). }
    rewrite load_config_shape, Hunusable. eexists. split; [reflexivity|].
    split; [done|].
    simpl. apply elem_of_app. right. by apply list_elem_of_singleton.
  - intros config Hshape.
    assert (config_shape config = Fails TypeError) as Hfails.
    { unfold config_shape.
      destruct Hshape as [(items & value & -> & Hget & Hvalue)
                         |[->|[(n & -> & Hn)|[(items & -> & Hin)
                                             |(s & -> & Hin)]]]].
      - rewrite Hget. assert (yaml_truthy (YMap items) = true) as ->
          by (by destruct items).
        by destruct Hvalue as [->|[[b ->]|[n ->]]].
      - done.
      - cbn. by destruct (Z.eqb_spec n 0).
      - rewrite Hin. by destruct items.
      - rewrite bool_decide_true by done.
        assert (yaml_truthy (YStr s) = true) as ->; [|done].
        destruct s; [|done]. by destruct Hin. }
    rewrite load_config_shape, Hfails. eexists. split; [reflexivity|].
    split; [done|].
    simpl. apply elem_of_app. right. by apply list_elem_of_singleton.
Qed.

(** ** The catalog the constructor builds *)





(** ** What [check_installed] leaves in the catalog *)

Lemma check_items_state items status_dict st :
  exists evs,
    check_items items status_dict st
    = (Ok (status_of (fs st) items status_dict),
       State (checked_models (fs st) items (models st)) (fs st) (net st)
         (trace st ++ evs))
    /\ Forall is_log evs.
Proof.
  revert status_dict st.
  induction items as [|[name model] rest IH]; intros status_dict st; simpl.
  - exists []. rewrite app_nil_r. by destruct st.
  - rewrite (bind_ok _ _ _ _ _ (path_exists_run _ _)).
    assert (exists evs,
      (if negb (bool_decide (is_Some (fs st !! _get_model_path model)))
       then mret NOT_INSTALLED
       else if truthy_opt (ModelInfo.checksum model)
            then ok ← _verify_checksum (_get_model_path model)
                        (ModelInfo.checksum model)
                        (ModelInfo.checksum_type model);
                 mret (if negb (ok : bool) then CORRUPTED else INSTALLED)
            else mret INSTALLED) st
      = (Ok (classify (fs st) model), add_events st evs)
      /\ Forall is_log evs) as (evs1 & Hstatus & Hevs1).
    { unfold classify.
      destruct (fs st !! _get_model_path model) as [data|] eqn:Hf; simpl;
        [|exists []; by rewrite add_events_nil].
      destruct (truthy_opt (ModelInfo.checksum model)); simpl;
        [|exists []; by rewrite add_events_nil].
      destruct (verify_run (_get_model_path model) (ModelInfo.checksum model)
                  (ModelInfo.checksum_type model) st) as (evs & Hv & Hevs).
      rewrite (bind_ok _ _ _ _ _ Hv). by exists evs. }
    rewrite (bind_ok _ _ _ _ _ Hstatus).
    rewrite (bind_ok _ _ _ _ _ (set_status_run _ _ _)).
    edestruct IH as (evs2 & -> & Hevs2). simpl.
    exists (evs1 ++ evs2). rewrite app_assoc.
    split; [done|]. by apply Forall_app.
Qed.

Lemma dict_set_fresh {V} k (v : V) d : k ∉ keys d -> dict_set k v d = d ++ [(k, v)].
Proof.
  induction d as [|[k0 v0] d IH]; simpl; [done|].
  rewrite not_elem_of_cons. intros [Hne Hd].
  destruct (String.eqb_spec k k0); [done|]. by rewrite IH.
Qed.

(** Over a catalog with pairwise distinct keys the report lists the items in
    order, each with its classification. *)
Lemma status_of_fresh f items status_dict :
  NoDup (keys status_dict ++ keys items) ->
  status_of f items status_dict
  = status_dict ++ map (fun entry => (entry.1, classify f entry.2)) items.
Proof.
  revert status_dict.
  induction items as [|[k v] rest IH]; intros status_dict Hnd; simpl.
  - by rewrite app_nil_r.
  - unfold status_of in *. simpl.
    assert (k ∉ keys status_dict) as Hk.
    { apply NoDup_app in Hnd as (_ & Hd & _). intros Hin. apply (Hd k Hin).
      apply elem_of_cons. by left. }
    rewrite dict_set_fresh by done. rewrite IH.
    + by rewrite <- app_assoc.
    + unfold keys in *. rewrite map_app. simpl. rewrite <- app_assoc. exact Hnd.
Qed.

Lemma dict_get_checked f items d name :
  NoDup (keys items) ->
  dict_get name (checked_models f items d)
  = match dict_get name items with
    | Some model => ModelInfo.with_status (classify f model) <$> dict_get name d
    | None => dict_get name d
    end.
Proof.
  revert d. induction items as [|[k v] rest IH]; intros d; simpl; [done|].
  intros [Hk Hnd]%NoDup_cons. unfold checked_models in *. simpl.
  rewrite IH by done. rewrite dict_get_alter.
  destruct (String.eqb_spec name k) as [->|Hne].
  - apply dict_get_None in Hk. rewrite Hk. by rewrite String.eqb_refl.
  - destruct (String.eqb_spec k name) as [->|_]; [done|].
    done.
Qed.

Lemma keys_checked f items d : keys (checked_models f items d) = keys d.
Proof.
  revert d. induction items as [|[k v] rest IH]; intros d; [done|].
  unfold checked_models in *. simpl. rewrite IH. apply keys_alter.
Qed.

(** X4: [check_installed] never raises and is not a pure query: it stores the
    status it reports in the catalog entry of every model, leaving the other
    fields, the keys and their order as they were.  The report lists the
    models in catalog order.  Disk and server are untouched; only log entries
    are produced. *)
Theorem check_installed_records st :
  NoDup (keys (models st)) ->
  exists status_dict st' evs,
    check_installed st = (Ok status_dict, st')
    /\ keys status_dict = keys (models st)
    /\ keys (models st') = keys (models st)
    /\ (forall name model,
          dict_get name (models st) = Some model ->
          exists s,
            dict_get name status_dict = Some s
            /\ dict_get name (models st')
               = Some (ModelInfo.with_status s model))
    /\ fs st' = fs st
    /\ net st' = net st
    /\ trace st' = trace st ++ evs
    /\ Forall is_log evs.
Proof.
  intros Hnd. unfold check_installed, mbind, M_bind, get_models.
  destruct (check_items_state (models st) [] st) as (evs & -> & Hevs).
  eexists _, _, evs. split; [reflexivity|]. simpl.
  split; [|split; [apply keys_checked|split; [|done]]].
  - rewrite status_of_fresh by done. simpl. unfold keys. by rewrite map_map.
  - intros name model Hget. exists (classify (fs st) model).
    rewrite dict_get_checked, Hget by done. split; [|done].
    by apply status_of_lookup.
Qed.

(** ** [validate_integrity] *)

Lemma validate_items_run items results st :
  exists evs,
    validate_items items results st
    = (Ok (fold_left
             (fun acc entry =>
                dict_set entry.1
                  (bool_decide (classify (fs st) entry.2 = INSTALLED)) acc)
             items results),
       add_events st evs)
    /\ Forall is_log evs.
Proof.
  revert results st.
  induction items as [|[name model] rest IH]; intros results st; simpl.
  - exists []. by rewrite add_events_nil.
  - rewrite (bind_ok _ _ _ _ _ (path_exists_run _ _)).
    unfold classify.
    destruct (fs st !! _get_model_path model) as [data|] eqn:Hf; simpl.
    + destruct (truthy_opt (ModelInfo.checksum model)); simpl.
      * destruct (verify_run (_get_model_path model) (ModelInfo.checksum model)
                    (ModelInfo.checksum_type model) st) as (evs1 & Hv & Hevs1).
        rewrite (bind_ok _ _ _ _ _ Hv).
        destruct (verified _ _ _ _) eqn:Hver; simpl;
          rewrite (bind_ok _ _ _ _ _ (log_run _ _ _)), add_events_app;
          edestruct IH as (evs2 & -> & Hevs2); rewrite add_events_app;
          cbn [add_events fs];
          (eexists; split; [reflexivity|]);
          repeat (apply Forall_app; split); try done; by repeat constructor.
      * rewrite (bind_ok _ _ _ _ _ (log_run _ _ _)).
        edestruct IH as (evs2 & -> & Hevs2). rewrite add_events_app.
        cbn [add_events fs].
        eexists; split; [reflexivity|]. apply Forall_app. split; [|done].
        by repeat constructor.
    + rewrite (bind_ok _ _ _ _ _ (log_run _ _ _)).
      edestruct IH as (evs2 & -> & Hevs2). rewrite add_events_app.
      cbn [add_events fs].
      eexists; split; [reflexivity|]. apply Forall_app. split; [|done].
      by repeat constructor.
Qed.

Lemma dict_set_map {V W} (g : V -> W) k v (d : dict V) :
  map (fun entry => (entry.1, g entry.2)) (dict_set k v d)
  = dict_set k (g v) (map (fun entry => (entry.1, g entry.2)) d).
Proof.
  induction d as [|[k0 v0] d IH]; simpl; [done|].
  destruct (String.eqb k k0); simpl; [done|]. by rewrite IH.
Qed.

Lemma status_of_map (g : ModelStatus -> bool) f items status_dict :
  map (fun entry => (entry.1, g entry.2)) (status_of f items status_dict)
  = fold_left (fun acc entry => dict_set entry.1 (g (classify f entry.2)) acc)
      items (map (fun entry => (entry.1, g entry.2)) status_dict).
Proof.
  revert status_dict.
  induction items as [|[k v] rest IH]; intros status_dict; [done|].
  unfold status_of in *. simpl. rewrite IH. by rewrite dict_set_map.
Qed.

(** X5: [validate_integrity] never raises and answers, for every model,
    [True] exactly when [check_installed] reports [INSTALLED] (a missing file
    and a failed checksum both give [False], a file without declared checksum
    gives [True]).  Unlike [check_installed] it leaves the catalog as it is --
    no status is updated -- and it touches neither disk nor server: it only
    logs. *)
Theorem validate_integrity_agrees st :
  exists results status_dict st' checked evs,
    validate_integrity st = (Ok results, st')
    /\ check_installed st = (Ok status_dict, checked)
    /\ results
       = map (fun entry => (entry.1, bool_decide (entry.2 = INSTALLED)))
           status_dict
    /\ models st' = models st
    /\ fs st' = fs st
    /\ net st' = net st
    /\ trace st' = trace st ++ evs
    /\ Forall is_log evs.
Proof.
  destruct (check_installed_run st) as (evs0 & ms & Hcheck & _).
  unfold validate_integrity.
  rewrite (bind_ok _ _ _ _ _ (log_run _ _ _)).
  unfold mbind, M_bind, get_models.
  destruct (validate_items_run (models st) []
              (add_events st [Log INFO "Validando integridade dos modelos"]))
    as (evs & Hrun & Hevs).
  cbn [add_events models fs] in Hrun. cbn [add_events models]. rewrite Hrun.
  eexists _, _, _, _, ([Log INFO "Validando integridade dos modelos"] ++ evs).
  split; [reflexivity|]. split; [exact Hcheck|].
  pose proof (status_of_map (fun s : ModelStatus => bool_decide (s = INSTALLED))
                (fs st) (models st) []) as Hmap.
  split; [symmetry; exact Hmap|].
  simpl. rewrite <- app_assoc.
  repeat (split; [done|]). by constructor.
Qed.

(** ** [list_missing], [list_corrupted] *)

Lemma elem_of_dict_get {V} k (v : V) d :
  NoDup (keys d) -> (k, v) ∈ d -> dict_get k d = Some v.
Proof.
  induction d as [|[k0 v0] d IH]; simpl.
  - intros _ Hin. by apply elem_of_nil in Hin.
  - intros [Hk Hnd]%NoDup_cons [Heq|Hin]%elem_of_cons.
    + injection Heq as -> ->. by rewrite String.eqb_refl.
    + destruct (String.eqb_spec k k0) as [->|Hne]; [|by apply IH].
      destruct Hk. apply list_elem_of_fmap. by exists (k0, v).
Qed.

Lemma names_with_classified f items wanted name :
  NoDup (keys items) ->
  name ∈ names_with wanted (map (fun entry => (entry.1, classify f entry.2)) items)
  <-> exists model, dict_get name items = Some model /\ classify f model = wanted.
Proof.
  intros Hnd. unfold names_with. rewrite list_elem_of_fmap. split.
  - intros ([k s] & -> & Hin). apply list_elem_of_In, filter_In in Hin as [Hin Hs].
    apply bool_decide_eq_true in Hs. simpl in Hs. subst s.
    apply list_elem_of_In, list_elem_of_fmap in Hin as ([k' model] & [= -> Hc] & Hin).
    exists model. split; [by apply elem_of_dict_get|done].
  - intros (model & Hget & <-). exists (name, classify f model). split; [done|].
    apply list_elem_of_In, filter_In. split; [|by apply bool_decide_eq_true].
    apply list_elem_of_In, list_elem_of_fmap. exists (name, model).
    split; [done|by apply dict_get_elem_of].
Qed.

Lemma names_with_sublist f items wanted :
  sublist (names_with wanted (map (fun entry => (entry.1, classify f entry.2)) items))
          (keys items).
Proof.
  unfold names_with, keys. induction items as [|[k v] rest IH]; simpl; [done|].
  case_bool_decide; simpl; by constructor.
Qed.

Lemma classify_missing f model :
  classify f model = NOT_INSTALLED <-> f !! _get_model_path model = None.
Proof.
  unfold classify. destruct (f !! _get_model_path model); [|done].
  split; [|done]. by destruct (_ && _).
Qed.

Lemma classify_corrupted f model :
  classify f model = CORRUPTED
  <-> is_Some (f !! _get_model_path model)
      /\ truthy_opt (ModelInfo.checksum model) = true
      /\ verified f (_get_model_path model) (ModelInfo.checksum model)
           (ModelInfo.checksum_type model) = false.
Proof.
  unfold classify. destruct (f !! _get_model_path model) as [data|].
  - destruct (truthy_opt (ModelInfo.checksum model)); simpl.
    + destruct (verified _ _ _ _); simpl.
      * split; [done|]. by intros (_ & _ & ?).
      * split; [|done]. intros _. eauto.
    + split; [done|]. by intros (_ & ? & _).
  - split; [done|]. by intros ([? ?] & _).
Qed.

Lemma classify_values f model :
  classify f model = NOT_INSTALLED \/ classify f model = CORRUPTED
  \/ classify f model = INSTALLED.
Proof.
  unfold classify. destruct (f !! _); [|by left].
  destruct (_ && _); auto.
Qed.

(** X6: [list_missing] returns the names of the catalog whose file is absent
    from its resolved path, and [list_corrupted] those whose file is there
    but fails the declared checksum; both keep the catalog order, list no
    name twice, and no name is in both.  As they go through
    [check_installed], both also store the fresh statuses in the catalog. *)
Theorem list_missing_corrupted st :
  NoDup (keys (models st)) ->
  exists missing corrupted,
    list_missing st = (Ok missing, (check_installed st).2)
    /\ list_corrupted st = (Ok corrupted, (check_installed st).2)
    /\ (forall name,
          name ∈ missing
          <-> exists model,
                dict_get name (models st) = Some model
                /\ fs st !! _get_model_path model = None)
    /\ (forall name,
          name ∈ corrupted
          <-> exists model,
                dict_get name (models st) = Some model
                /\ is_Some (fs st !! _get_model_path model)
                /\ truthy_opt (ModelInfo.checksum model) = true
                /\ (_verify_checksum (_get_model_path model)
                      (ModelInfo.checksum model)
                      (ModelInfo.checksum_type model) st).1 = Ok false)
    /\ sublist missing (keys (models st))
    /\ sublist corrupted (keys (models st))
    /\ (forall name, name ∈ missing -> name ∉ corrupted).
Proof.
  intros Hnd. unfold list_missing, list_corrupted.
  destruct (check_installed_run st) as (evs & ms & Hcheck & _).
  rewrite !(bind_ok _ _ _ _ _ Hcheck), Hcheck. cbn [snd].
  rewrite (status_of_fresh (fs st) (models st) []) by done. cbn [app].
  eexists _, _. split; [reflexivity|]. split; [reflexivity|].
  assert (forall name,
    name ∈ names_with NOT_INSTALLED
             (map (fun entry => (entry.1, classify (fs st) entry.2)) (models st))
    <-> exists model,
          dict_get name (models st) = Some model
          /\ fs st !! _get_model_path model = None) as Hmissing.
  { intros name. rewrite names_with_classified by done.
    split; intros (model & Hget & Hc); exists model; split; try done;
      by apply classify_missing. }
  assert (forall name,
    name ∈ names_with CORRUPTED
             (map (fun entry => (entry.1, classify (fs st) entry.2)) (models st))
    <-> exists model,
          dict_get name (models st) = Some model
          /\ is_Some (fs st !! _get_model_path model)
          /\ truthy_opt (ModelInfo.checksum model) = true
          /\ (_verify_checksum (_get_model_path model)
                (ModelInfo.checksum model)
                (ModelInfo.checksum_type model) st).1 = Ok false) as Hcorrupted.
  { intros name. rewrite names_with_classified by done.
    split; intros (model & Hget & Hc); exists model; (split; [done|]).
    - apply classify_corrupted in Hc as (Hex & Ht & Hv).
      rewrite verify_value, Hv. done.
    - apply classify_corrupted. destruct Hc as (Hex & Ht & Hv).
      rewrite verify_value in Hv. by injection Hv as ->. }
  split; [done|]. split; [done|].
  split; [apply names_with_sublist|]. split; [apply names_with_sublist|].
  intros name (model & Hget & Hnone)%Hmissing (model' & Hget' & [? Hsome] & _)%Hcorrupted.
  congruence.
Qed.

(** X7: with [skip_existing], the models [download_all] goes on to download
    are exactly those that [list_missing] and [list_corrupted] return, in
    catalog order; without it, every model of the catalog. *)
Theorem download_all_required st :
  NoDup (keys (models st)) ->
  exists status missing corrupted,
    (check_installed st).1 = Ok status
    /\ (list_missing st).1 = Ok missing
    /\ (list_corrupted st).1 = Ok corrupted
    /\ (forall name,
          name ∈ map fst (List.filter (needs_download true) status)
          <-> name ∈ missing \/ name ∈ corrupted)
    /\ sublist (map fst (List.filter (needs_download true) status))
               (keys (models st))
    /\ map fst (List.filter (needs_download false) status) = keys (models st).
Proof.
  intros Hnd. unfold list_missing, list_corrupted.
  destruct (check_installed_run st) as (evs & ms & Hcheck & _).
  rewrite !(bind_ok _ _ _ _ _ Hcheck), Hcheck. cbn [fst].
  rewrite (status_of_fresh (fs st) (models st) []) by done. cbn [app].
  eexists _, _, _. split; [reflexivity|]. split; [reflexivity|].
  split; [reflexivity|].
  split; [|split].
  - intros name. rewrite !names_with_classified by done.
    rewrite list_elem_of_fmap. split.
    + intros ([k s] & -> & Hin).
      apply list_elem_of_In, filter_In in Hin as [Hin Hs].
      apply list_elem_of_In, list_elem_of_fmap in Hin
        as ([k' model] & [= -> ->] & Hin).
      unfold needs_download in Hs. simpl in Hs.
      apply negb_true_iff, bool_decide_eq_false in Hs.
      apply (elem_of_dict_get _ _ _ Hnd) in Hin. simpl.
      destruct (classify_values (fs st) model) as [Hc|[Hc|Hc]]; [| |done].
      * left. by exists model.
      * right. by exists model.
    + intros Hor.
      assert (exists model, dict_get name (models st) = Some model
                            /\ classify (fs st) model <> INSTALLED)
        as (model & Hget & Hc).
      { destruct Hor as [(model & Hget & Hc)|(model & Hget & Hc)];
          exists model; (split; [done|]); rewrite Hc; done. }
      exists (name, classify (fs st) model). split; [done|].
      apply list_elem_of_In, filter_In. split.
      * apply list_elem_of_In, list_elem_of_fmap. exists (name, model).
        split; [done|by apply dict_get_elem_of].
      * unfold needs_download. simpl. by apply negb_true_iff, bool_decide_eq_false.
  - unfold keys. generalize (models st). intros items.
    induction items as [|[k v] rest IH]; simpl; [done|].
    destruct (needs_download true _); simpl; by constructor.
  - unfold keys. generalize (models st). intros items.
    induction items as [|[k v] rest IH]; simpl; [done|]. by rewrite IH.
Qed.

(** ** [download_model]: the edges of the retry loop *)

(** X8: with [max_retries <= 0] the retry loop has no iteration: once the
    call gets past the existing-file test, [download_model] creates the
    destination directory and returns [False] without a single request or
    sleep -- whatever the server would have answered -- and leaves disk,
    server and catalog as they were. *)
Theorem download_model_no_budget model_name model cb force st :
  dict_get model_name (models st) = Some model ->
  max_retries self <= 0 ->
  let model_path := _get_model_path model in
  force = true \/ fs st !! model_path = None
  \/ (_verify_checksum model_path (ModelInfo.checksum model)
        (ModelInfo.checksum_type model) st).1 = Ok false ->
  (mkdir (path_split model_path "").1 st).1 = Ok tt ->
  exists evs,
    download_model model_name cb force st
    = (Ok false, add_events st (evs ++ [Mkdir (path_split model_path "").1]))
    /\ Forall is_log evs.
Proof.
  intros Hm Hmax model_path Hloop Hdir%mkdir_ok.
  destruct (download_model_unfold model_name cb force st model Hm)
    as (evs0 & Hevs0 & Hunfold).
  fold model_path in Hunfold.
  assert (already_there model force st = false) as Hthere.
  { unfold already_there. fold model_path.
    destruct Hloop as [->|[->|Hv]].
    - by rewrite andb_false_r.
    - by rewrite bool_decide_false by (by intros [? ?]).
    - rewrite verify_value in Hv. injection Hv as ->.
      by rewrite andb_false_r. }
  rewrite Hthere, Hdir, py_range_nil in Hunfold by lia.
  exists evs0. by split.
Qed.

(** X9: the creation of the destination directory is not covered by the
    [try] of the retry loop.  Once the call gets past the existing-file
    test, a regular file at the directory's path makes [download_model]
    raise [FileExistsError], and one at an ancestor of it
    [NotADirectoryError]: no request is issued, nothing is retried, and only
    log entries were produced. *)
Theorem download_model_blocked model_name model cb force st :
  dict_get model_name (models st) = Some model ->
  let model_path := _get_model_path model in
  let parent := (path_split model_path "").1 in
  force = true \/ fs st !! model_path = None
  \/ (_verify_checksum model_path (ModelInfo.checksum model)
        (ModelInfo.checksum_type model) st).1 = Ok false ->
  (is_Some (fs st !! parent) ->
   exists evs,
     download_model model_name cb force st
     = (Raise (FileExistsError parent), add_events st evs)
     /\ Forall is_log evs)
  /\ (fs st !! parent = None ->
      (exists a, a ∈ ancestors parent "" /\ is_Some (fs st !! a)) ->
      exists evs,
        download_model model_name cb force st
        = (Raise (NotADirectoryError parent), add_events st evs)
        /\ Forall is_log evs).
Proof.
  intros Hm model_path parent Hloop.
  destruct (download_model_unfold model_name cb force st model Hm)
    as (evs0 & Hevs0 & Hunfold).
  fold model_path parent in Hunfold.
  assert (already_there model force st = false) as Hthere.
  { unfold already_there. fold model_path.
    destruct Hloop as [->|[->|Hv]].
    - by rewrite andb_false_r.
    - by rewrite bool_decide_false by (by intros [? ?]).
    - rewrite verify_value in Hv. injection Hv as ->.
      by rewrite andb_false_r. }
  rewrite Hthere in Hunfold. unfold mkdir_error in Hunfold. split.
  - intros Hfile. rewrite bool_decide_true in Hunfold by done. by exists evs0.
  - intros Hnone (a & Hin & Hfile).
    rewrite bool_decide_false in Hunfold by (rewrite Hnone; by intros [? ?]).
    assert (existsb (fun a => bool_decide (is_Some (fs st !! a)))
              (ancestors parent "") = true) as Hex.
    { apply existsb_exists. exists a. split; [by apply list_elem_of_In|].
      by apply bool_decide_eq_true. }
    rewrite Hex in Hunfold. by exists evs0.
Qed.

(** ** [download_model]: recovering *)

Lemma staged_insert_part destination f content :
  staged destination (<[part_file destination := content]> f) = content.
Proof. unfold staged. by rewrite lookup_insert_eq. Qed.

Lemma retry_loop_recovers model_name model model_path cb r rest fails i st :
  net st = fails ++ Answer r :: rest ->
  Forall (fun r => failing r = true) fails ->
  failing (Answer r) = false ->
  i + Z.of_nat (length fails) <= max_retries self ->
  let content :=
    salvaged (staged model_path (fs st)) fails ++ stream_data (body r) in
  verified (<[model_path := content]> (delete (part_file model_path) (fs st)))
    model_path (ModelInfo.checksum model) (ModelInfo.checksum_type model)
  = true ->
  exists st' evs,
    retry_loop model_name model model_path cb
      (py_range i (max_retries self + 1)) st = (Ok true, st')
    /\ trace st' = trace st ++ evs
    /\ schedule evs
       = concat (map (fun attempt => [Fetch; Wait (2 ^ attempt)])
                     (py_range i (i + Z.of_nat (length fails))))
         ++ [Fetch]
    /\ net st' = rest
    /\ fs st'
       = <[model_path := content]> (delete (part_file model_path) (fs st))
    /\ models st'
       = dict_alter (ModelInfo.with_status INSTALLED) model_name (models st).
Proof.
  revert i st.
  induction fails as [|r0 fails IH]; intros i st Hnet Hfails Hr Hi content Hver.
  - simpl in Hnet, Hi. rewrite py_range_cons by lia.
    cbn [retry_loop].
    destruct (attempt_once_run model_name model model_path cb i st)
      as (evs & Hrun & Hsched & _).
    rewrite (bind_ok _ _ _ _ _ Hrun). clear Hrun.
    pose proof (complete_fetch_ok st _ _ Hnet Hr) as Hok.
    assert (fetch_fs model_path st
            = <[model_path := content]>
                (delete (part_file model_path) (fs st))) as Hfs.
    { unfold fetch_fs. rewrite Hnet. simpl in Hr.
      apply orb_false_iff in Hr as [Hg Hf]. apply negb_false_iff in Hg.
      by rewrite Hg, Hf. }
    assert (fetched_corrupt model model_path st = false) as Hcorrupt.
    { unfold fetched_corrupt. rewrite Hfs, Hver. apply andb_false_r. }
    unfold attempt_outcome, attempt_models, attempt_fs, attempt_ticks in *.
    rewrite Hok, Hcorrupt in *.
    eexists _, evs. split; [reflexivity|]. cbn [trace net fs models].
    split; [done|]. rewrite Z.add_0_r, py_range_nil by lia.
    split; [done|]. split; [by rewrite Hnet|]. by split.
  - cbn [app] in Hnet. cbn [length] in Hi.
    apply Forall_cons in Hfails as [Hr0 Hfails].
    rewrite py_range_cons by lia. cbn [retry_loop].
    destruct (attempt_once_run model_name model model_path cb i st)
      as (evs & Hrun & Hsched & _).
    rewrite (bind_ok _ _ _ _ _ Hrun). clear Hrun.
    assert (exists e, fetch_result st = Raise e) as [e He].
    { unfold fetch_result. rewrite Hnet. destruct r0 as [|r0]; [eauto|].
      simpl in Hr0. destruct (good_status r0); [|eauto].
      simpl in Hr0. rewrite Hr0. eauto. }
    unfold attempt_outcome, attempt_models, attempt_fs, attempt_ticks,
      after_failure in *.
    rewrite He in *.
    assert ((i <? max_retries self) = true) as Hlt by (apply Z.ltb_lt; lia).
    rewrite Hlt in *.
    set (st1 := State _ _ _ _).
    assert (delete (part_file model_path) (fs st1)
            = delete (part_file model_path) (fs st)
            /\ salvaged (staged model_path (fs st1)) fails
               = salvaged (staged model_path (fs st)) (r0 :: fails))
      as [Hdel Hsalvaged].
    { subst st1. cbn [fs]. unfold fetch_fs. rewrite Hnet.
      destruct r0 as [|r0]; [done|]. cbn [salvaged].
      destruct (good_status r0) eqn:Hg; [|done].
      simpl in Hr0. rewrite Hg in Hr0. simpl in Hr0. rewrite Hr0.
      rewrite delete_insert_eq, staged_insert_part. done. }
    destruct (IH (i + 1) st1) as (st' & evs' & -> & Htr & Hs' & Hn' & Hf' & Hm').
    { subst st1. cbn [net]. by rewrite Hnet. }
    { done. }
    { done. }
    { lia. }
    { rewrite Hdel, Hsalvaged. exact Hver. }
    exists st', (evs ++ evs'). split; [done|].
    split; [by rewrite Htr, app_assoc|].
    split.
    { rewrite schedule_app, Hsched, Hs'. cbn [length].
      rewrite (py_range_cons i (i + Z.of_nat (S (length fails)))) by lia.
      cbn [map concat app].
      by replace (i + 1 + Z.of_nat (length fails))
        with (i + Z.of_nat (S (length fails))) by lia. }
    split; [done|]. split; [by rewrite Hf', Hdel, Hsalvaged|done].
Qed.

Lemma recovery_ticks k l :
  fetches (concat (map (fun attempt => [Fetch; Wait (2 ^ attempt)])
                       (py_range k (k + Z.of_nat l))) ++ [Fetch])
  = Z.of_nat l + 1
  /\ waits (concat (map (fun attempt => [Fetch; Wait (2 ^ attempt)])
                        (py_range k (k + Z.of_nat l))) ++ [Fetch])
     = map (Z.pow 2) (py_range k (k + Z.of_nat l)).
Proof.
  revert k. induction l as [|l IH]; intros k.
  - rewrite Z.add_0_r, py_range_nil by lia. done.
  - rewrite py_range_cons by lia.
    replace (k + Z.of_nat (S l)) with (k + 1 + Z.of_nat l) by lia.
    destruct (IH (k + 1)) as [Hfe Hwa]. cbn [map concat].
    rewrite <- app_assoc. cbn [app]. split.
    + unfold fetches in *. cbn [List.filter length].
      rewrite Nat2Z.inj_succ, Hfe. lia.
    + change (waits (Fetch :: Wait (2 ^ k) :: ?l)) with (2 ^ k :: waits l).
      by rewrite Hwa.
Qed.

(** X10: a call that reaches the retry loop and meets [k < max_retries]
    failing replies followed by a complete one, whose bytes -- appended to
    what the broken transfers left in the staging file -- verify, returns
    [True] after exactly [k + 1] requests and the sleeps [2^1 .. 2^k]: the
    file is at its path with that content, the staging file is gone, the
    model is [INSTALLED] in the catalog, and the replies after it are left
    for later calls. *)
Theorem download_model_recovers model_name model cb force st fails r rest :
  dict_get model_name (models st) = Some model ->
  let model_path := _get_model_path model in
  let checksum := ModelInfo.checksum model in
  let checksum_type := ModelInfo.checksum_type model in
  let content :=
    salvaged (staged model_path (fs st)) fails ++ stream_data (body r) in
  force = true \/ fs st !! model_path = None
  \/ (_verify_checksum model_path checksum checksum_type st).1 = Ok false ->
  (mkdir (path_split model_path "").1 st).1 = Ok tt ->
  net st = fails ++ Answer r :: rest ->
  Forall (fun r => failing r = true) fails ->
  failing (Answer r) = false ->
  Z.of_nat (length fails) < max_retries self ->
  (forall st0,
     fs st0 !! model_path = Some content ->
     (_verify_checksum model_path checksum checksum_type st0).1 = Ok true) ->
  exists st' evs,
    download_model model_name cb force st = (Ok true, st')
    /\ trace st' = trace st ++ evs
    /\ fetches (schedule evs) = Z.of_nat (length fails) + 1
    /\ waits (schedule evs)
       = map (Z.pow 2) (py_range 1 (1 + Z.of_nat (length fails)))
    /\ net st' = rest
    /\ fs st' !! model_path = Some content
    /\ fs st' !! part_file model_path = None
    /\ dict_get model_name (models st')
       = Some (ModelInfo.with_status INSTALLED model).
Proof.
  intros Hm model_path checksum checksum_type content Hreach Hdir%mkdir_ok
    Hnet Hfails Hr Hk Hverifies.
  destruct (download_model_unfold model_name cb force st model Hm)
    as (evs0 & Hevs0 & Hunfold).
  fold model_path in Hunfold.
  assert (already_there model force st = false) as Hthere.
  { unfold already_there. fold model_path checksum checksum_type.
    destruct Hreach as [->|[->|Hv]].
    - by rewrite andb_false_r.
    - by rewrite bool_decide_false by (by intros [? ?]).
    - rewrite verify_value in Hv. injection Hv as ->.
      by rewrite andb_false_r. }
  rewrite Hthere, Hdir in Hunfold.
  set (st0 := add_events st (evs0 ++ [Mkdir (path_split model_path "").1]))
    in Hunfold.
  destruct (retry_loop_recovers model_name model model_path cb r rest fails 1
              st0) as (st' & evs & Hloop & Htr & Hsched & Hn & Hf & Hms);
    try done.
  { lia. }
  { subst st0. cbn [add_events fs]. fold content.
    specialize (Hverifies
                  (State [] (<[model_path := content]>
                               (delete (part_file model_path) (fs st))) [] [])).
    rewrite verify_value in Hverifies. cbn [fs] in Hverifies.
    rewrite lookup_insert_eq in Hverifies. specialize (Hverifies eq_refl).
    by injection Hverifies. }
  subst st0. cbn [add_events fs models trace] in Htr, Hf, Hms, Hunfold.
  exists st', ((evs0 ++ [Mkdir (path_split model_path "").1]) ++ evs).
  split; [by rewrite Hunfold|].
  split; [by rewrite Htr, <- app_assoc|].
  rewrite schedule_app, schedule_setup, Hsched by done. cbn [app].
  pose proof recovery_ticks as Hticks.
  destruct (Hticks 1 (length fails)) as [-> ->].
  split; [done|]. split; [done|]. split; [done|].
  rewrite Hf, Hms. split; [apply lookup_insert_eq|].
  split.
  - rewrite lookup_insert_ne by apply part_file_neq. apply lookup_delete_eq.
  - by rewrite dict_get_alter, String.eqb_refl, Hm.
Qed.

(** ** [_download_file]: resuming across calls *)

(** X11: when the stream of a first call breaks and a second call gets a
    complete reply, the second request carries the [Range] header for the
    bytes now in the staging file (none when there are none), and the
    destination ends up with the bytes staged before, those the first
    transfer delivered and those of the second, in this order; the staging
    file is gone.  Between the calls the destination is as it was. *)
Theorem download_file_round_trip url destination expected_size cb st r1 r2 rest :
  net st = Answer r1 :: Answer r2 :: rest ->
  good_status r1 = true ->
  has_fault (body r1) = true ->
  failing (Answer r2) = false ->
  let first := _download_file url destination expected_size cb st in
  let second := _download_file url destination expected_size cb first.2 in
  let kept := staged destination (fs st) ++ stream_data (body r1) in
  let offset := Z.of_nat (length kept) in
  first.1 = Raise ChunkedEncodingError
  /\ fs first.2 !! part_file destination = Some kept
  /\ fs first.2 !! destination = fs st !! destination
  /\ second.1 = Ok tt
  /\ Request url
       (if 0 <? offset then [("Range", "bytes=" +:+ pretty offset +:+ "-")]
        else [])
       (timeout self) ∈ trace second.2
  /\ fs second.2 !! destination = Some (kept ++ stream_data (body r2))
  /\ fs second.2 !! part_file destination = None
  /\ net second.2 = rest.
Proof.
  intros Hnet Hg1 Hf1 Hr2 first second kept offset.
  simpl in Hr2. apply orb_false_iff in Hr2 as [Hg2 Hf2].
  apply negb_false_iff in Hg2.
  assert (first = (Raise ChunkedEncodingError,
                   State (models st)
                     (<[part_file destination := kept]> (fs st))
                     (Answer r2 :: rest)
                     (trace st ++ fetch_events url destination cb st)))
    as Hfirst.
  { subst first. rewrite download_file_run.
    unfold fetch_result, fetch_fs. by rewrite Hnet, Hg1, Hf1. }
  subst second. rewrite Hfirst. cbn [fst snd fs].
  rewrite download_file_run. cbn [fst snd fs net trace].
  unfold fetch_result, fetch_fs, fetch_events. cbn [net fs].
  rewrite Hg2, Hf2, staged_insert_part.
  split; [done|]. split; [apply lookup_insert_eq|].
  split; [apply lookup_insert_ne; by apply not_eq_sym, part_file_neq|].
  split; [done|]. split.
  - unfold range_headers, resume_offset. rewrite staged_insert_part.
    fold offset. rewrite !elem_of_app, elem_of_cons. right. right. by left.
  - split; [apply lookup_insert_eq|]. split; [|done].
    rewrite lookup_insert_ne by apply part_file_neq. apply lookup_delete_eq.
Qed.

(** ** [download_all] over an installed catalog *)

Lemma classify_installed f model :
  classify f model = INSTALLED ->
  is_Some (f !! _get_model_path model)
  /\ verified f (_get_model_path model) (ModelInfo.checksum model)
       (ModelInfo.checksum_type model) = true.
Proof.
  unfold classify. destruct (f !! _get_model_path model) as [data|]; [|done].
  destruct (truthy_opt (ModelInfo.checksum model)) eqn:Ht; simpl.
  - destruct (verified _ _ _ _); [eauto|done].
  - intros _. split; [eauto|]. by apply verified_untruthy.
Qed.

Lemma download_each_installed cb total names i successes failures st :
  (forall name,
     name ∈ names ->
     exists model,
       dict_get name (models st) = Some model
       /\ already_there model false st = true) ->
  exists evs,
    download_each cb total names i successes failures st
    = (Ok (successes + Z.of_nat (length names), failures), add_events st evs)
    /\ schedule evs = [].
Proof.
  revert i successes st.
  induction names as [|name rest IH]; intros i successes st Hall.
  - exists []. rewrite add_events_nil. simpl. by rewrite Z.add_0_r.
  - destruct (Hall name) as (model & Hget & Hthere);
      [apply elem_of_cons; by left|].
    cbn [download_each]. unfold download_nth.
    rewrite !bind_run, log_run. rewrite bind_run, progress_run.
    rewrite add_events_app.
    set (st1 := add_events st _).
    destruct (download_model_unfold name cb false st1 model Hget)
      as (evs1 & Hevs1 & Hrun).
    change (already_there model false st1) with (already_there model false st)
      in Hrun.
    rewrite Hthere in Hrun. rewrite Hrun.
    destruct (IH (i + 1) (successes + 1) (add_events st1 evs1))
      as (evs2 & -> & Hsched).
    { intros name' Hin. apply Hall. apply elem_of_cons. by right. }
    subst st1. rewrite !add_events_app. eexists. split.
    + do 2 f_equal. f_equal. cbn [length]. lia.
    + rewrite !schedule_app, Hsched, (schedule_logs evs1) by done.
      by destruct cb.
Qed.

Lemma length_checked_models f items d :
  length (checked_models f items d) = length d.
Proof.
  rewrite <- (length_map fst), <- (length_map fst d).
  apply (f_equal length (keys_checked f items d)).
Qed.

(** X12: [skip_existing=False] does not force anything: over a catalog that
    [check_installed] reports entirely [INSTALLED], [download_all] returns
    [(len(models), 0)] for either value of [skip_existing], having issued no
    request and slept never; disk and server are as before.  (Without
    [skip_existing] each model still goes through [download_model], which
    finds its file in place.) *)
Theorem download_all_installed cb skip_existing st status :
  NoDup (keys (models st)) ->
  (check_installed st).1 = Ok status ->
  Forall (fun entry : string * ModelStatus => entry.2 = INSTALLED) status ->
  exists st' evs,
    download_all cb skip_existing st
    = (Ok (Z.of_nat (length (models st)), 0), st')
    /\ fs st' = fs st
    /\ net st' = net st
    /\ trace st' = trace st ++ evs
    /\ schedule evs = [].
Proof.
  intros Hnd Hcheck Hall.
  destruct (check_items_state (models st) [] st) as (evs0 & Hitems & Hevs0).
  assert (status
          = map (fun entry => (entry.1, classify (fs st) entry.2)) (models st))
    as Hstatus.
  { unfold check_installed in Hcheck. rewrite bind_run in Hcheck.
    unfold get_models in Hcheck. rewrite Hitems in Hcheck.
    injection Hcheck as <-. by rewrite status_of_fresh. }
  assert (forall name model,
            dict_get name (models st) = Some model ->
            classify (fs st) model = INSTALLED) as Hinstalled.
  { intros name model Hget%dict_get_elem_of.
    rewrite Hstatus in Hall.
    apply (proj1 (Forall_forall _ _) Hall (name, classify (fs st) model)).
    apply list_elem_of_fmap. by exists (name, model). }
  set (started :=
         add_events st [Log INFO "Iniciando download de todos os modelos"]).
  destruct (check_items_state (models st) [] started) as (evs1 & Hrun & Hevs1).
  change (fs started) with (fs st) in Hrun.
  change (models started) with (models st) in Hrun.
  change (net started) with (net st) in Hrun.
  rewrite status_of_fresh in Hrun by done. cbn [app] in Hrun.
  rewrite <- Hstatus in Hrun.
  unfold download_all. rewrite bind_run, log_run. fold started.
  unfold check_installed. rewrite !bind_run.
  change (get_models started) with (Ok (models st), started). cbn iota.
  rewrite Hrun. set (checked := State _ _ _ _).
  fold (to_download skip_existing status).
  destruct (to_download skip_existing status) as [|name0 rest0] eqn:Hreq.
  - rewrite bind_run, log_run. cbn [add_events]. rewrite bind_run.
    change (get_models ?s) with (Ok (models s), s). cbn iota.
    subst checked started. cbn [models add_events].
    rewrite length_checked_models.
    eexists _, _. split; [reflexivity|]. cbn [fs net trace add_events].
    split; [done|]. split; [done|]. rewrite <- !app_assoc.
    split; [reflexivity|].
    rewrite !schedule_app, (schedule_logs evs1) by done. done.
  - assert (skip_existing = false) as ->.
    { destruct skip_existing; [|done].
      by rewrite to_download_installed in Hreq. }
    assert (to_download false status = keys (models st)) as Hkeys.
    { rewrite Hstatus. unfold to_download, keys.
      generalize (models st). intros items.
      induction items as [|[k v] items IH]; [done|]. simpl. by rewrite IH. }
    rewrite <- Hreq, Hkeys. rewrite bind_run, log_run.
    set (begun := add_events checked _).
    rewrite bind_run.
    destruct (download_each_installed cb (Z.of_nat (length (keys (models st))))
                (keys (models st)) 1 0 0 begun) as (evs2 & -> & Hsched2).
    { intros name Hin.
      destruct (dict_get name (models st)) as [model|] eqn:Hget;
        [|by apply dict_get_None in Hget].
      exists (ModelInfo.with_status (classify (fs st) model) model).
      split.
      - subst begun checked. cbn [add_events models].
        by rewrite dict_get_checked, Hget.
      - apply Hinstalled, classify_installed in Hget as [Hex Hver].
        unfold already_there. subst begun checked. cbn [add_events fs].
        change (_get_model_path (ModelInfo.with_status _ model))
          with (_get_model_path model).
        change (ModelInfo.checksum (ModelInfo.with_status _ model))
          with (ModelInfo.checksum model).
        change (ModelInfo.checksum_type (ModelInfo.with_status _ model))
          with (ModelInfo.checksum_type model).
        by rewrite bool_decide_true, Hver. }
    rewrite bind_run, progress_run, bind_run, log_run.
    cbn [fst snd mret M_ret]. rewrite !add_events_app.
    unfold keys. rewrite length_map, Z.add_0_l.
    eexists _, _. split; [reflexivity|].
    subst begun checked started. cbn [add_events fs net trace].
    split; [done|]. split; [done|]. rewrite <- !app_assoc.
    split; [reflexivity|].
    rewrite !schedule_app, (schedule_logs evs1), Hsched2 by done.
    by destruct cb.
Qed.

(** ** [download_model] and the statuses of the catalog *)

Lemma retry_loop_models model_name model model_path cb attempts st :
  exists b st',
    retry_loop model_name model model_path cb attempts st = (Ok b, st')
    /\ models st'
       = if b then dict_alter (ModelInfo.with_status INSTALLED) model_name
                     (models st)
         else models st.
Proof.
  revert st. induction attempts as [|attempt rest IH]; intros st; simpl.
  - by exists false, st.
  - destruct (attempt_once_run model_name model model_path cb attempt st)
      as (evs & Hrun & _ & _).
    rewrite (bind_ok _ _ _ _ _ Hrun). clear Hrun.
    unfold attempt_outcome, attempt_models, after_failure.
    destruct (fetch_result st) as [[]|e].
    + destruct (fetched_corrupt model model_path st).
      * destruct (attempt <? max_retries self);
          [apply (IH (State _ _ _ _))|by eexists false, _].
      * by eexists true, _.
    + destruct (attempt <? max_retries self);
        [apply (IH (State _ _ _ _))|by eexists false, _].
Qed.

(** X16: the only status [download_model] ever writes is [INSTALLED], and
    only for the named model after a fetch that succeeded and verified.  The
    early return for a file already in place answers [True] without touching
    the catalog (a status says [NOT_INSTALLED] until [check_installed] runs),
    and a call that answers [False] or raises leaves every status as it was,
    also when it has just deleted the file of a model marked [INSTALLED]. *)
Theorem download_model_status model_name model cb force st r st' :
  dict_get model_name (models st) = Some model ->
  download_model model_name cb force st = (r, st') ->
  let model_path := _get_model_path model in
  let already :=
    is_Some (fs st !! model_path) /\ force = false
    /\ (_verify_checksum model_path (ModelInfo.checksum model)
          (ModelInfo.checksum_type model) st).1 = Ok true in
  (already -> r = Ok true /\ models st' = models st)
  /\ (~ already -> r = Ok true ->
      models st'
      = dict_alter (ModelInfo.with_status INSTALLED) model_name (models st))
  /\ (r <> Ok true -> models st' = models st).
Proof.
  intros Hm Hrun model_path already.
  destruct (download_model_unfold model_name cb force st model Hm)
    as (evs & _ & Hunfold).
  fold model_path in Hunfold. rewrite Hunfold in Hrun. clear Hunfold.
  assert (already_there model force st = true <-> already) as Hiff.
  { unfold already_there, already. fold model_path.
    rewrite verify_value, !andb_true_iff, bool_decide_eq_true, negb_true_iff.
    split; intros [[? ?] ?]; [by repeat split; [| |f_equal]|].
    destruct H0 as [-> Hv]. injection Hv as ->. done. }
  destruct (already_there model force st).
  - injection Hrun as <- <-. split; [done|].
    split; [intros Hnot; destruct Hnot; by apply Hiff|done].
  - assert (~ already) as Hnot by (intros H%Hiff; done).
    destruct (mkdir_error _ _).
    + injection Hrun as <- <-. split; [done|]. split; [done|done].
    + destruct (retry_loop_models model_name model model_path cb
                  (py_range 1 (max_retries self + 1))
                  (add_events st
                     (evs ++ [Mkdir (path_split model_path "").1])))
        as (b & st1 & Hloop & Hmodels).
      rewrite Hloop in Hrun. injection Hrun as <- <-.
      split; [done|]. split.
      * intros _ [= ->]. exact Hmodels.
      * intros Hb. destruct b; [done|exact Hmodels].
Qed.

End Manager.

(** * [validate_models] of [scripts/validate_setup.py] *)

Section Validator.

Set Default Proof Using "Type".

Variable md5_hexdigest : list byte -> string.
Variable sha256_hexdigest : list byte -> string.







End Validator.

(** * Closed examples *)

(** Stand-ins for the two [hashlib] digests in the examples below (the
    theorems above hold for any digest functions): a two-letter tag followed
    by the length of the data. *)
Definition toy_md5 (data : list byte) : string :=
  "ab" +:+ pretty (Z.of_nat (length data)).

Definition toy_sha256 (data : list byte) : string :=
  "cd" +:+ pretty (Z.of_nat (length data)).

(** A manager with the default arguments of [__init__]. *)
Definition manager : ModelManager :=
  {| comfyui_path := "ComfyUI";
     models_config := "config/models.yaml";
     cache_dir := ".model_cache";
     max_retries := 3;
     timeout := 300 |}.

(** Three catalog entries: one with a checksum (three bytes digest to
    ["ab3"]), one without, one whose checksum no content matches. *)
Definition speech : ModelInfo.t :=
  ModelInfo.Build "speech-model" "xtts" "https://example.org/speech.bin"
    "speech.bin" 3 (Some "AB3") "MD5" "" NOT_INSTALLED None None.

Definition plain : ModelInfo.t :=
  ModelInfo.Build "plain" "vae" "https://example.org/plain.bin"
    "plain.bin" 0 None "md5" "" NOT_INSTALLED None None.

Definition odd : ModelInfo.t :=
  ModelInfo.Build "odd" "lora" "https://example.org/odd.bin"
    "odd.bin" 0 (Some "zz") "md5" "" NOT_INSTALLED None None.

Definition catalog : dict ModelInfo.t :=
  [("speech-model", speech); ("plain", plain); ("odd", odd)].

Definition speech_path : string := "ComfyUI/models/xtts/speech.bin".
Definition plain_path : string := "ComfyUI/models/vae/plain.bin".
Definition odd_path : string := "ComfyUI/models/loras/odd.bin".

Definition three_bytes : list byte := [Byte.x01; Byte.x02; Byte.x03].

(** A complete reply, a reply whose stream breaks, a server error. *)
Definition full_reply : reply :=
  Answer {| status_code := 200; content_length := Some 3;
            body := [Data [Byte.x01; Byte.x02]; Data []; Data [Byte.x03]] |}.

Definition broken_reply : reply :=
  Answer {| status_code := 200; content_length := Some 3;
            body := [Data [Byte.x01; Byte.x02]; Fault; Data [Byte.x03]] |}.

Definition error_reply : reply :=
  Answer {| status_code := 503; content_length := None; body := [] |}.

(** A resumed transfer whose reply carries no content length. *)
Definition unsized_reply : reply :=
  Answer {| status_code := 206; content_length := None;
            body := [Data [Byte.x04; Byte.x05]] |}.

Definition resuming : state :=
  State catalog {[ part_file speech_path := three_bytes ]} [unsized_reply] [].

(** C3: the total given to the progress callback is not 0 whenever the
    server reports no length: resuming from a staging file of 3 bytes with a
    reply that carries no content length, [_download_file] reports the total
    3 (and then 5 bytes out of 3). *)
Lemma resumed_total_without_length :
  net resuming = [unsized_reply]
  /\ ~ (forall current total msg,
          Progress current total msg
            ∈ trace (_download_file manager "https://example.org/speech.bin"
                       speech_path 3 true resuming).2 ->
          total = 0).
Proof.
  split; [reflexivity|]. intros H.
  specialize (H 5 3 (Baixando_bytes "speech.bin")).
  assert (3 = 0) as Habs; [|discriminate Habs].
  apply H. apply list_elem_of_In. vm_compute. auto 10.
Qed.

(** C8, as stated, fails: a manifest that parses to a mapping without the
    key ['models'] does not make construction fail; the catalog is empty. *)
Lemma manifest_without_models_loads :
  let doc := Present (Some (YMap [(YStr "settings", YList [])])) in
  let st := State [] ∅ [] [] in
  (exists st',
     __init__ manager doc st = Some (Ok tt, st') /\ models st' = [])
  /\ (exists st',
        _load_models_config manager doc st = Some (Ok tt, st')
        /\ models st' = [])
  /\ ~ (exists e st', __init__ manager doc st = Some (Raise e, st'))
  /\ ~ (exists e st', _load_models_config manager doc st = Some (Raise e, st')).
Proof.
  split; [eexists; split; reflexivity|].
  split; [eexists; split; reflexivity|].
  split; intros (e & st' & H); vm_compute in H; discriminate H.
Qed.

(** A regular file where the directory of [speech] should be; the server
    answers. *)
Definition blocked : state :=
  State [("speech-model", speech); ("plain", plain)]
    {[ "ComfyUI/models/xtts" := [Byte.x00] ]} [full_reply; full_reply] [].

(** C9: [download_all] does not attempt every model of the required set
    when one of them fails by the creation of its directory: with a regular
    file at [ComfyUI/models/xtts], both models are required, the call of
    [download_model] for the first raises [FileExistsError], [download_all]
    raises it in turn and returns no tally, and the second model -- whose
    download would succeed -- is never attempted: no request is issued. *)
Lemma download_all_aborts_on_blocked_directory :
  let run := download_all toy_md5 toy_sha256 manager true true blocked in
  (check_installed toy_md5 toy_sha256 manager blocked).1
  = Ok [("speech-model", NOT_INSTALLED); ("plain", NOT_INSTALLED)]
  /\ run.1 = Raise (FileExistsError "ComfyUI/models/xtts")
  /\ (forall url headers tmo, Request url headers tmo ∉ trace run.2)
  /\ (download_model toy_md5 toy_sha256 manager "plain" true false blocked).1
     = Ok true
  /\ run.1 <> Ok (1, 1).
Proof.
  intros run.
  assert (run.1 = Raise (FileExistsError "ComfyUI/models/xtts")) as Hrun
    by (vm_compute; reflexivity).
  split; [vm_compute; reflexivity|]. split; [exact Hrun|].
  split; [|split; [vm_compute; reflexivity|by rewrite Hrun]].
  assert (Forall (fun e => match e with Request _ _ _ => False | _ => True end)
            (trace run.2)) as Hquiet
    by (vm_compute; repeat constructor).
  intros url headers tmo Hin.
  by apply (proj1 (Forall_forall _ _) Hquiet) in Hin.
Qed.

(** ** Instances of the theorems *)

(** On disk: only the staging file of [speech], a file for [plain] and a file
    for [odd]. *)
Definition audited : state :=
  State catalog
    {[ part_file speech_path := three_bytes;
       plain_path := three_bytes;
       odd_path := three_bytes ]} [] [].

(** [speech] is installed. *)
Definition installed : state :=
  State catalog {[ speech_path := three_bytes ]} [full_reply] [].

Lemma verify_checksum_missing_file_witness :
  truthy "AB3" = true
  /\ fs resuming !! speech_path = None
  /\ _verify_checksum toy_md5 toy_sha256 speech_path (Some "AB3") "whirlpool"
       resuming = (Ok false, resuming).
Proof.
  split; [reflexivity|]. split; [reflexivity|].
  apply verify_checksum_missing_file; reflexivity.
Defined.

Lemma verify_checksum_cases_witness :
  _verify_checksum toy_md5 toy_sha256 speech_path (Some "") "md5" resuming
  = (Ok true, resuming)
  /\ (_verify_checksum toy_md5 toy_sha256 speech_path (Some "AB3") "MD5"
        installed).1
     = Ok (bool_decide (lower (toy_md5 three_bytes) = lower "AB3"))
  /\ bool_decide (lower (toy_md5 three_bytes) = lower "AB3") = true
  /\ exists st',
       _verify_checksum toy_md5 toy_sha256 speech_path (Some "AB3") "whirlpool"
         installed = (Ok true, st')
       /\ Log WARNING "Tipo de checksum desconhecido: whirlpool" ∈ trace st'.
Proof.
  split; [|split; [|split]].
  - apply (proj1 (verify_checksum_cases toy_md5 toy_sha256 speech_path "md5"
                    resuming)).
    reflexivity.
  - apply (proj1 (proj2 (verify_checksum_cases toy_md5 toy_sha256 speech_path
                           "MD5" installed))).
    + reflexivity.
    + reflexivity.
    + left. split; reflexivity.
  - reflexivity.
  - apply (proj2 (proj2 (verify_checksum_cases toy_md5 toy_sha256 speech_path
                           "whirlpool" installed)) "AB3" three_bytes).
    + reflexivity.
    + reflexivity.
    + vm_compute. discriminate.
    + vm_compute. discriminate.
Defined.

Lemma check_installed_classifies_witness :
  exists status_dict,
    (check_installed toy_md5 toy_sha256 manager audited).1 = Ok status_dict
    /\ dict_get "speech-model" status_dict = Some NOT_INSTALLED
    /\ dict_get "speech-model" status_dict <> Some INSTALLED
    /\ dict_get "odd" status_dict = Some CORRUPTED
    /\ dict_get "plain" status_dict = Some INSTALLED.
Proof.
  assert (NoDup (keys (models audited))) as Hnodup by compute_done.
  destruct (check_installed_classifies toy_md5 toy_sha256 manager audited
              "speech-model" speech Hnodup eq_refl)
    as (status_dict & st1 & Hrun & Habsent & _ & _ & Hstaging).
  destruct (check_installed_classifies toy_md5 toy_sha256 manager audited
              "odd" odd Hnodup eq_refl)
    as (status_dict2 & st2 & Hrun2 & _ & Hcorrupted & _ & _).
  destruct (check_installed_classifies toy_md5 toy_sha256 manager audited
              "plain" plain Hnodup eq_refl)
    as (status_dict3 & st3 & Hrun3 & _ & _ & Hinstalled & _).
  rewrite Hrun in Hrun2, Hrun3.
  injection Hrun2 as <- _. injection Hrun3 as <- _.
  exists status_dict. split; [by rewrite Hrun|].
  split; [apply Habsent; reflexivity|].
  split; [apply Hstaging; [reflexivity|vm_compute; eauto]|].
  split.
  - apply Hcorrupted; [vm_compute; eauto|reflexivity|reflexivity].
  - apply Hinstalled; [vm_compute; eauto|].
    intros [Htruthy _]. vm_compute in Htruthy. discriminate.
Defined.

(** Nothing on disk, a server that answers. *)
Definition fresh : state := State catalog ∅ [full_reply] [].

(** An old file at the destination, a stream that breaks after two bytes. *)
Definition interrupted : state :=
  State catalog {[ speech_path := [Byte.x09] ]} [broken_reply] [].

Lemma download_file_staging_witness :
  let ok := _download_file manager "https://example.org/speech.bin"
              speech_path 3 true fresh in
  let ko := _download_file manager "https://example.org/speech.bin"
              speech_path 3 true interrupted in
  (ok.1 = Ok tt
   /\ fs ok.2 !! speech_path = Some three_bytes
   /\ fs ok.2 !! part_file speech_path = None)
  /\ (ko.1 = Raise ChunkedEncodingError
      /\ fs ko.2 !! speech_path = Some [Byte.x09]
      /\ exists evs,
           trace ko.2 = evs
           /\ fs ko.2 !! part_file speech_path = Some (written_data evs)
           /\ Forall (fun e => ~ is_rename e) evs).
Proof.
  intros ok ko.
  assert (ok.1 = Ok tt) as Hok1 by (vm_compute; reflexivity).
  assert (ko.1 = Raise ChunkedEncodingError) as Hko1
    by (vm_compute; reflexivity).
  split.
  - destruct (download_file_staging manager "https://example.org/speech.bin"
                speech_path 3 true fresh ok.1 ok.2 (surjective_pairing ok))
      as (evs & _ & _ & _ & _ & Hok & _).
    destruct (Hok Hok1)
      as (r & rest & evs0 & Hnet & _ & _ & _ & _ & Hfile & Hpart).
    injection Hnet as <- _.
    split; [exact Hok1|]. split; [exact Hfile|exact Hpart].
  - destruct (download_file_staging manager "https://example.org/speech.bin"
                speech_path 3 true interrupted ko.1 ko.2
                (surjective_pairing ko))
      as (evs & Htrace & _ & _ & _ & _ & Hko).
    destruct (Hko ChunkedEncodingError Hko1)
      as (Hrename & Hfile & Hpart & _).
    split; [exact Hko1|]. split.
    + rewrite Hfile. vm_compute. reflexivity.
    + exists evs. split; [exact Htrace|]. split; [|exact Hrename].
      rewrite (Hpart eq_refl). vm_compute. reflexivity.
Defined.

Lemma download_file_resume_witness :
  let run := _download_file manager "https://example.org/speech.bin"
               speech_path 3 true resuming in
  Request "https://example.org/speech.bin" [("Range", "bytes=3-")] 300
    ∈ trace run.2
  /\ Open (part_file speech_path) AB ∈ trace run.2
  /\ (forall current total msg,
        Progress current total msg ∈ trace run.2 -> total = 3)
  /\ fs run.2 !! speech_path
     = Some (three_bytes ++ [Byte.x04; Byte.x05]).
Proof.
  intros run.
  destruct (download_file_resume manager "https://example.org/speech.bin"
              speech_path 3 resuming run.1 run.2 (surjective_pairing run))
    as (evs & Htrace & Hrequest & _ & Hreply).
  assert (resume_offset speech_path (fs resuming) = 3) as Hoffset
    by (vm_compute; reflexivity).
  assert (staged speech_path (fs resuming) = three_bytes) as Hstaged
    by (vm_compute; reflexivity).
  destruct (Hreply _ _ eq_refl eq_refl)
    as (Hopen & _ & Hfile & Htotal & _ & _).
  rewrite Hoffset in Hrequest, Hopen, Hfile, Htotal.
  rewrite Hstaged in Hfile.
  rewrite Htrace.
  split; [exact Hrequest|]. split; [exact Hopen|].
  split; [exact Htotal|exact Hfile].
Defined.

(** Nothing on disk, a server that only fails. *)
Definition offline : state :=
  State catalog ∅ [Refused; error_reply; broken_reply] [].

(** Nothing on disk, a server that answers three times. *)
Definition answering : state :=
  State catalog ∅ [full_reply; full_reply; full_reply] [].

Lemma odd_never_verifies st0 :
  (_verify_checksum toy_md5 toy_sha256 odd_path (Some "zz") "md5" st0).1
  = Ok false.
Proof.
  rewrite verify_value. unfold verified. simpl.
  by destruct (fs st0 !! odd_path).
Qed.

Lemma download_model_retry_budget_witness :
  (let run := download_model toy_md5 toy_sha256 manager "speech-model" true
                false offline in
   run.1 = Ok false
   /\ exists evs,
        trace run.2 = evs
        /\ fetches (schedule evs) = 3
        /\ waits (schedule evs) = [2; 4])
  /\ (exists st1,
        fs st1 !! odd_path = None
        /\ retry_loop toy_md5 toy_sha256 manager "odd" odd odd_path true
             [1; 2; 3] fresh
           = retry_loop toy_md5 toy_sha256 manager "odd" odd odd_path true
               [2; 3] st1)
  /\ (let run := download_model toy_md5 toy_sha256 manager "odd" true false
                   answering in
      run.1 = Ok false
      /\ fs run.2 !! odd_path = None
      /\ exists evs,
           trace run.2 = evs
           /\ fetches (schedule evs) = 3
           /\ waits (schedule evs) = []).
Proof.
  assert (0 <= max_retries manager) as Hmax by (vm_compute; discriminate).
  split; [|split].
  - intros run.
    destruct (download_model_retry_budget toy_md5 toy_sha256 manager
                "speech-model" speech true false offline eq_refl Hmax)
      as (Hfail & _ & _).
    destruct Hfail as (st' & evs & Hrun & Htrace & _ & Hfetches & Hwaits & _).
    { right. left. vm_compute. reflexivity. }
    { vm_compute. reflexivity. }
    { repeat constructor. }
    subst run. rewrite Hrun. cbn [fst snd].
    split; [reflexivity|]. exists evs.
    split; [exact Htrace|]. split; [exact Hfetches|exact Hwaits].
  - destruct (download_model_retry_budget toy_md5 toy_sha256 manager
                "odd" odd true false fresh eq_refl Hmax)
      as (_ & Hstep & _).
    destruct (Hstep 1 [2; 3] fresh)
      as (st1 & evs & _ & _ & Hgone & _ & Hloop).
    { vm_compute. reflexivity. }
    { reflexivity. }
    { apply odd_never_verifies. }
    exists st1. split; [exact Hgone|exact Hloop].
  - intros run.
    destruct (download_model_retry_budget toy_md5 toy_sha256 manager
                "odd" odd true false answering eq_refl Hmax)
      as (_ & _ & Hwhole).
    destruct Hwhole
      as (st' & evs & Hrun & Htrace & Hfetches & Hwaits & Hlast).
    { intros st0. apply odd_never_verifies. }
    { vm_compute. reflexivity. }
    { repeat constructor. }
    { vm_compute. discriminate. }
    destruct Hlast as [_ Hgone]; [vm_compute; reflexivity|].
    subst run. rewrite Hrun. cbn [fst snd].
    split; [reflexivity|]. split; [exact Hgone|].
    exists evs. split; [exact Htrace|]. split; [exact Hfetches|exact Hwaits].
Defined.

Lemma download_model_idempotent_witness :
  (exists evs,
     download_model toy_md5 toy_sha256 manager "speech-model" true false
       installed = (Ok true, add_events installed evs)
     /\ Forall is_log evs)
  /\ (exists evs,
        download_model toy_md5 toy_sha256 manager "plain" true false audited
        = (Ok true, add_events audited evs)
        /\ Forall is_log evs)
  /\ (let first := download_model toy_md5 toy_sha256 manager "speech-model"
                     true false fresh in
      first.1 = Ok true
      /\ exists evs,
           download_model toy_md5 toy_sha256 manager "speech-model" true false
             first.2 = (Ok true, add_events first.2 evs)
           /\ (forall u h t, Request u h t ∉ evs)).
Proof.
  split; [|split].
  - destruct (download_model_idempotent toy_md5 toy_sha256 manager
                "speech-model" speech true installed eq_refl)
      as (Hverified & _ & _).
    destruct Hverified as (evs & Hrun & Hlogs & _).
    { vm_compute. eauto. }
    { vm_compute. reflexivity. }
    exists evs. split; [exact Hrun|exact Hlogs].
  - destruct (download_model_idempotent toy_md5 toy_sha256 manager
                "plain" plain true audited eq_refl)
      as (_ & Hplain & _).
    destruct Hplain as (evs & Hrun & Hlogs & _).
    { vm_compute. eauto. }
    { reflexivity. }
    exists evs. split; [exact Hrun|exact Hlogs].
  - intros first.
    assert (first.1 = Ok true) as Hfirst by (vm_compute; reflexivity).
    destruct (download_model_idempotent toy_md5 toy_sha256 manager
                "speech-model" speech true fresh eq_refl)
      as (_ & _ & Hagain).
    destruct (Hagain true false first.2) as (evs & Hrun & _ & Hquiet).
    { rewrite <- Hfirst. apply surjective_pairing. }
    split; [exact Hfirst|].
    exists evs. split; [exact Hrun|exact Hquiet].
Defined.

Lemma download_model_not_found_witness :
  download_model toy_md5 toy_sha256 manager "ghost" true false offline
  = (Raise (ModelNotFoundError "ghost" "Unknown" "ComfyUI/models"), offline)
  /\ dict_get "ghost" (models offline) = None
  /\ (exists evs,
        (download_model toy_md5 toy_sha256 manager "speech-model" true false
           blocked).2 = add_events blocked evs
        /\ Forall is_log evs)
  /\ is_Some (fs (download_model toy_md5 toy_sha256 manager "speech-model" true
                    false fresh).2 !! speech_path)
  /\ (exists st1,
        retry_loop toy_md5 toy_sha256 manager "speech-model" speech speech_path
          true [3] offline = (Ok false, st1))
  /\ (exists st1,
        retry_loop toy_md5 toy_sha256 manager "odd" odd odd_path true [1; 2; 3]
          fresh
        = retry_loop toy_md5 toy_sha256 manager "odd" odd odd_path true [2; 3]
            st1)
  /\ (download_model toy_md5 toy_sha256 manager "speech-model" true false
        offline).1 = Ok false
  /\ (download_model toy_md5 toy_sha256 manager "odd" true true answering).1
     = Ok false.
Proof.
  split; [|split; [|split; [|split; [|split; [|split; [|split]]]]]].
  - apply (proj1 (download_model_not_found toy_md5 toy_sha256 manager
                    "ghost" true false offline)).
    reflexivity.
  - apply (proj1 (proj2 (download_model_not_found toy_md5 toy_sha256 manager
                           "ghost" true false offline))
             "ghost" "Unknown" "ComfyUI/models").
    reflexivity.
  - pose proof (proj2 (proj2 (download_model_not_found toy_md5 toy_sha256
                                manager "speech-model" true false blocked))
                  speech eq_refl) as H.
    cbv zeta in H. destruct H as (Hraise & _).
    set (run := download_model toy_md5 toy_sha256 manager "speech-model" true
                  false blocked) in *.
    assert (run.1 = Raise (FileExistsError "ComfyUI/models/xtts")) as Hrun
      by (vm_compute; reflexivity).
    destruct (Hraise (FileExistsError "ComfyUI/models/xtts") run.2)
      as (evs & Hst & Hlogs).
    { rewrite <- Hrun. apply surjective_pairing. }
    by exists evs.
  - pose proof (proj2 (proj2 (download_model_not_found toy_md5 toy_sha256
                                manager "speech-model" true false fresh))
                  speech eq_refl) as H.
    cbv zeta in H. destruct H as (_ & Htrue & _).
    set (run := download_model toy_md5 toy_sha256 manager "speech-model" true
                  false fresh) in *.
    assert (run.1 = Ok true) as Hrun by (vm_compute; reflexivity).
    destruct (Htrue run.2) as [Hfile _]; [|exact Hfile].
    rewrite <- Hrun. apply surjective_pairing.
  - pose proof (proj2 (proj2 (download_model_not_found toy_md5 toy_sha256
                                manager "speech-model" true false offline))
                  speech eq_refl) as H.
    cbv zeta in H. destruct H as (_ & _ & _ & _ & Htransfer & _).
    destruct (Htransfer 3 [] offline ConnectionError)
      as (st1 & evs & _ & _ & Hloop); [vm_compute; reflexivity|].
    exists st1. exact Hloop.
  - pose proof (proj2 (proj2 (download_model_not_found toy_md5 toy_sha256
                                manager "odd" true false fresh))
                  odd eq_refl) as H.
    cbv zeta in H. destruct H as (_ & _ & _ & _ & _ & Hintegrity & _).
    destruct (Hintegrity 1 [2; 3] fresh) as (st1 & evs & _ & _ & Hloop).
    { vm_compute. reflexivity. }
    { reflexivity. }
    { apply odd_never_verifies. }
    exists st1. exact Hloop.
  - pose proof (proj2 (proj2 (download_model_not_found toy_md5 toy_sha256
                                manager "speech-model" true false offline))
                  speech eq_refl) as H.
    cbv zeta in H. destruct H as (_ & _ & _ & _ & _ & _ & Hwhole).
    apply Hwhole.
    + right. left. vm_compute. reflexivity.
    + vm_compute. reflexivity.
    + left. repeat constructor.
  - pose proof (proj2 (proj2 (download_model_not_found toy_md5 toy_sha256
                                manager "odd" true true answering))
                  odd eq_refl) as H.
    cbv zeta in H. destruct H as (_ & _ & _ & _ & _ & _ & Hwhole).
    apply Hwhole.
    + by left.
    + vm_compute. reflexivity.
    + right. intros st0. apply odd_never_verifies.
Defined.

Lemma load_models_config_cases_witness :
  let st := State [] ∅ [] [] in
  (exists st',
     _load_models_config manager Missing st = Some (Ok tt, st')
     /\ models st' = [])
  /\ (exists st',
        _load_models_config manager (Present None) st
        = Some (Raise YAMLError, st'))
  /\ (exists st',
        _load_models_config manager (Present (Some YNull)) st
        = Some (Ok tt, st')
        /\ models st' = [])
  /\ (exists st',
        _load_models_config manager
          (Present (Some (YMap [(YStr "settings", YList [])]))) st
        = Some (Ok tt, st')
        /\ models st' = []
        /\ Log WARNING "Configuração de modelos vazia ou inválida" ∈ trace st')
  /\ (exists st',
        _load_models_config manager
          (Present (Some (YMap [(YStr "models", YNull)]))) st
        = Some (Raise TypeError, st')
        /\ models st' = [])
  /\ (exists st',
        _load_models_config manager (Present (Some (YInt 42))) st
        = Some (Raise TypeError, st')
        /\ models st' = [])
  /\ (exists st',
        _load_models_config manager (Present (Some (YList [YStr "models"]))) st
        = Some (Raise TypeError, st')
        /\ models st' = []).
Proof.
  intros st.
  destruct (load_models_config_cases manager st eq_refl)
    as (Hmissing & Hbroken & Hwarn & Hfail).
  split; [|split; [|split; [|split; [|split; [|split]]]]].
  - destruct Hmissing as (st' & Hrun & Hempty & _). by exists st'.
  - destruct Hbroken as (st' & Hrun & _). by exists st'.
  - destruct (Hwarn YNull) as (st' & Hrun & Hempty & _); [by left|].
    by exists st'.
  - apply (Hwarn (YMap [(YStr "settings", YList [])])).
    right. left. eexists. split; reflexivity.
  - destruct (Hfail (YMap [(YStr "models", YNull)]))
      as (st' & Hrun & Hempty & _); [|by exists st'].
    left. eexists _, _. split; [reflexivity|]. split; [reflexivity|]. by left.
  - destruct (Hfail (YInt 42)) as (st' & Hrun & Hempty & _); [|by exists st'].
    right. right. left. by exists 42.
  - destruct (Hfail (YList [YStr "models"]))
      as (st' & Hrun & Hempty & _); [|by exists st'].
    right. right. right. left. eexists. split; reflexivity.
Defined.

(** [plain] is on disk; the server answers once, then refuses. *)
Definition mixed : state :=
  State catalog {[ plain_path := three_bytes ]}
    [full_reply; Refused; Refused; Refused] [].

(** A catalog of one model, which is on disk. *)
Definition settled : state :=
  State [("plain", plain)] {[ plain_path := three_bytes ]} [full_reply] [].

Lemma download_all_tally_witness :
  (download_all toy_md5 toy_sha256 manager true true mixed).1 = Ok (1, 1)
  /\ (let run := download_all toy_md5 toy_sha256 manager true true settled in
      run.1 = Ok (1, 0) /\ net run.2 = [full_reply] /\ fs run.2 = fs settled)
  /\ (exists e st2,
        download_all toy_md5 toy_sha256 manager true true blocked
        = (Raise e, st2)).
Proof.
  split; [|split].
  - destruct (download_all_tally toy_md5 toy_sha256 manager true true mixed)
      as (_ & _ & _ & Hsome).
    destruct Hsome as (Hall & Habort & Hcases); [vm_compute; discriminate|].
    assert ((download_all toy_md5 toy_sha256 manager true true mixed).1
            = Ok (1, 1)) as Hrun by (vm_compute; reflexivity).
    destruct Hcases
      as [(outcomes & st2 & Hacq)
         |(finished & name & rest & outcomes & st1 & e & st2 & Hsplit & Hacq & Hraise)].
    + destruct (Hall outcomes st2 Hacq) as (_ & Htally & Hone).
      apply Hone. rewrite Hrun in Htally. by injection Htally as _ <-.
    + rewrite (Habort _ _ _ _ _ _ _ Hsplit Hacq Hraise) in Hrun.
      discriminate Hrun.
  - intros run.
    destruct (download_all_tally toy_md5 toy_sha256 manager true true settled)
      as (_ & Hskip & Hnone & _).
    destruct Hnone as (Hrun & Hfs & Hnet & _).
    { apply Hskip; [reflexivity|]. vm_compute. repeat constructor. }
    subst run. rewrite Hrun. cbn [fst snd add_events net fs].
    split; [reflexivity|]. split; [exact Hnet|exact Hfs].
  - destruct (download_all_tally toy_md5 toy_sha256 manager true true blocked)
      as (_ & _ & _ & Hsome).
    destruct Hsome as (Hall & Habort & Hcases); [vm_compute; discriminate|].
    assert ((download_all toy_md5 toy_sha256 manager true true blocked).1
            = Raise (FileExistsError "ComfyUI/models/xtts")) as Hrun
      by (vm_compute; reflexivity).
    destruct Hcases
      as [(outcomes & st2 & Hacq)
         |(finished & name & rest & outcomes & st1 & e & st2 & Hsplit & Hacq & Hraise)].
    + destruct (Hall outcomes st2 Hacq) as (_ & Htally & _).
      rewrite Hrun in Htally. discriminate Htally.
    + exists e, st2. exact (Habort _ _ _ _ _ _ _ Hsplit Hacq Hraise).
Defined.

(** ** Instances of the further properties *)











Lemma check_installed_records_witness :
  exists status_dict st',
    check_installed toy_md5 toy_sha256 manager audited = (Ok status_dict, st')
    /\ keys status_dict = ["speech-model"; "plain"; "odd"]
    /\ (exists s,
          dict_get "odd" status_dict = Some s
          /\ dict_get "odd" (models st') = Some (ModelInfo.with_status s odd))
    /\ fs st' = fs audited.
Proof.
  destruct (check_installed_records toy_md5 toy_sha256 manager audited)
    as (status_dict & st' & evs & Hrun & Hkeys & _ & Hentries & Hfs & _).
  { compute_done. }
  exists status_dict, st'. split; [exact Hrun|]. split; [exact Hkeys|].
  split; [|exact Hfs]. by apply Hentries.
Defined.

Lemma list_missing_corrupted_witness :
  exists missing corrupted,
    (list_missing toy_md5 toy_sha256 manager audited).1 = Ok missing
    /\ (list_corrupted toy_md5 toy_sha256 manager audited).1 = Ok corrupted
    /\ "speech-model" ∈ missing
    /\ "odd" ∈ corrupted
    /\ ("plain" ∉ missing)
    /\ ("odd" ∉ missing).
Proof.
  destruct (list_missing_corrupted toy_md5 toy_sha256 manager audited)
    as (missing & corrupted & Hmissing & Hcorrupted & Hm & Hc & _ & _ & Hdisjoint).
  { compute_done. }
  exists missing, corrupted.
  split; [by rewrite Hmissing|]. split; [by rewrite Hcorrupted|].
  assert ("odd" ∈ corrupted) as Hodd.
  { apply Hc. exists odd. split; [reflexivity|].
    split; [vm_compute; eauto|]. split; [reflexivity|].
    apply odd_never_verifies. }
  split; [apply Hm; exists speech; by split|]. split; [exact Hodd|].
  split.
  - intros (model & Hget & Hnone)%Hm.
    change (Some plain = Some model) in Hget. injection Hget as <-.
    vm_compute in Hnone. discriminate Hnone.
  - intros Hin. by apply Hdisjoint in Hin.
Defined.

Lemma download_all_required_witness :
  exists status missing corrupted,
    (check_installed toy_md5 toy_sha256 manager audited).1 = Ok status
    /\ (list_missing toy_md5 toy_sha256 manager audited).1 = Ok missing
    /\ (list_corrupted toy_md5 toy_sha256 manager audited).1 = Ok corrupted
    /\ (forall name,
          name ∈ map fst (List.filter (needs_download true) status)
          <-> name ∈ missing \/ name ∈ corrupted)
    /\ map fst (List.filter (needs_download false) status)
       = ["speech-model"; "plain"; "odd"].
Proof.
  destruct (download_all_required toy_md5 toy_sha256 manager audited)
    as (status & missing & corrupted & Hs & Hm & Hc & Hiff & _ & Hall).
  { compute_done. }
  exists status, missing, corrupted.
  split; [exact Hs|]. split; [exact Hm|]. split; [exact Hc|].
  split; [exact Hiff|exact Hall].
Defined.

(** A manager that never tries. *)
Definition impatient : ModelManager :=
  {| comfyui_path := "ComfyUI";
     models_config := "config/models.yaml";
     cache_dir := ".model_cache";
     max_retries := 0;
     timeout := 300 |}.

Lemma download_model_no_budget_witness :
  exists evs,
    download_model toy_md5 toy_sha256 impatient "speech-model" true false fresh
    = (Ok false, add_events fresh (evs ++ [Mkdir "ComfyUI/models/xtts"]))
    /\ Forall is_log evs.
Proof.
  apply (download_model_no_budget toy_md5 toy_sha256 impatient "speech-model"
           speech true false fresh).
  - reflexivity.
  - vm_compute. discriminate.
  - right. left. vm_compute. reflexivity.
  - vm_compute. reflexivity.
Defined.

(** A regular file above the directory of [speech]. *)
Definition fenced : state :=
  State catalog {[ "ComfyUI/models" := [Byte.x00] ]} [full_reply] [].

Lemma download_model_blocked_witness :
  (exists evs,
     download_model toy_md5 toy_sha256 manager "speech-model" true false
       blocked
     = (Raise (FileExistsError "ComfyUI/models/xtts"), add_events blocked evs)
     /\ Forall is_log evs)
  /\ (exists evs,
        download_model toy_md5 toy_sha256 manager "speech-model" true true
          fenced
        = (Raise (NotADirectoryError "ComfyUI/models/xtts"),
           add_events fenced evs)
        /\ Forall is_log evs).
Proof.
  split.
  - pose proof (download_model_blocked toy_md5 toy_sha256 manager
                  "speech-model" speech true false blocked eq_refl) as H.
    cbv zeta in H. destruct H as [Hfile _].
    { right. left. vm_compute. reflexivity. }
    apply Hfile. vm_compute. eauto.
  - pose proof (download_model_blocked toy_md5 toy_sha256 manager
                  "speech-model" speech true true fenced eq_refl) as H.
    cbv zeta in H. destruct H as [_ Habove]; [by left|].
    apply Habove; [vm_compute; reflexivity|].
    exists "ComfyUI/models". split; [|vm_compute; eauto].
    apply list_elem_of_In. vm_compute. auto.
Defined.

(** The last byte of the file, as a server answers a range request. *)
Definition tail_response : response :=
  {| status_code := 206; content_length := Some 1; body := [Data [Byte.x03]] |}.

(** Nothing on disk; the server refuses, then breaks after two bytes, then
    delivers the rest. *)
Definition flaky : state :=
  State catalog ∅ [Refused; broken_reply; Answer tail_response; full_reply] [].

Lemma download_model_recovers_witness :
  exists st' evs,
    download_model toy_md5 toy_sha256 manager "speech-model" true false flaky
    = (Ok true, st')
    /\ trace st' = trace flaky ++ evs
    /\ fetches (schedule evs) = 3
    /\ waits (schedule evs) = [2; 4]
    /\ net st' = [full_reply]
    /\ fs st' !! speech_path = Some three_bytes
    /\ fs st' !! part_file speech_path = None
    /\ dict_get "speech-model" (models st')
       = Some (ModelInfo.with_status INSTALLED speech).
Proof.
  assert (salvaged (staged speech_path (fs flaky)) [Refused; broken_reply]
          ++ stream_data (body tail_response) = three_bytes) as Hcontent
    by (vm_compute; reflexivity).
  pose proof (download_model_recovers toy_md5 toy_sha256 manager
                "speech-model" speech true false flaky
                [Refused; broken_reply] tail_response [full_reply] eq_refl)
    as H.
  cbv zeta in H.
  change (_get_model_path manager speech) with speech_path in H.
  rewrite Hcontent in H.
  destruct H as (st' & evs & Hrun & Htrace & Hfetches & Hwaits & Hnet & Hfile
                 & Hpart & Hentry).
  - right. left. vm_compute. reflexivity.
  - vm_compute. reflexivity.
  - reflexivity.
  - repeat constructor.
  - reflexivity.
  - vm_compute. reflexivity.
  - intros st0 Hf. rewrite verify_value. unfold verified.
    cbn [ModelInfo.checksum ModelInfo.checksum_type speech].
    rewrite Hf. vm_compute. reflexivity.
  - exists st', evs. split; [exact Hrun|]. split; [exact Htrace|].
    split; [exact Hfetches|]. split; [exact Hwaits|]. split; [exact Hnet|].
    split; [exact Hfile|]. split; [exact Hpart|exact Hentry].
Defined.

(** Nothing on disk; the stream breaks, and the next reply delivers the
    rest. *)
Definition halting : state :=
  State catalog ∅ [broken_reply; Answer tail_response] [].

Lemma download_file_round_trip_witness :
  let first := _download_file manager "https://example.org/speech.bin"
                 speech_path 3 false halting in
  let second := _download_file manager "https://example.org/speech.bin"
                  speech_path 3 false first.2 in
  first.1 = Raise ChunkedEncodingError
  /\ second.1 = Ok tt
  /\ Request "https://example.org/speech.bin" [("Range", "bytes=2-")] 300
       ∈ trace second.2
  /\ fs second.2 !! speech_path = Some three_bytes
  /\ fs second.2 !! part_file speech_path = None.
Proof.
  assert (staged speech_path (fs halting)
          ++ stream_data [Data [Byte.x01; Byte.x02]; Fault; Data [Byte.x03]]
          = [Byte.x01; Byte.x02]) as Hkept by (vm_compute; reflexivity).
  pose proof (download_file_round_trip manager
                "https://example.org/speech.bin" speech_path 3 false halting
                {| status_code := 200; content_length := Some 3;
                   body := [Data [Byte.x01; Byte.x02]; Fault;
                            Data [Byte.x03]] |}
                tail_response [] eq_refl eq_refl eq_refl eq_refl) as H.
  cbv zeta in H. cbn [body] in H. rewrite Hkept in H.
  destruct H as (Hfirst & _ & _ & Hsecond & Hrequest & Hfile & Hpart & _).
  intros first second.
  split; [exact Hfirst|]. split; [exact Hsecond|].
  split; [exact Hrequest|]. split; [exact Hfile|exact Hpart].
Defined.

Lemma download_all_installed_witness :
  exists st' evs,
    download_all toy_md5 toy_sha256 manager true false settled
    = (Ok (1, 0), st')
    /\ fs st' = fs settled
    /\ net st' = [full_reply]
    /\ trace st' = trace settled ++ evs
    /\ schedule evs = [].
Proof.
  apply (download_all_installed toy_md5 toy_sha256 manager true false settled
           [("plain", INSTALLED)]).
  - compute_done.
  - vm_compute. reflexivity.
  - repeat constructor.
Defined.




Lemma download_model_status_witness :
  (let run := download_model toy_md5 toy_sha256 manager "speech-model" true
                false installed in
   run.1 = Ok true
   /\ dict_get "speech-model" (models run.2) = Some speech)
  /\ (let run := download_model toy_md5 toy_sha256 manager "speech-model" true
                   false fresh in
      dict_get "speech-model" (models run.2)
      = Some (ModelInfo.with_status INSTALLED speech))
  /\ (let run := download_model toy_md5 toy_sha256 manager "speech-model" true
                   true offline in
      models run.2 = models offline).
Proof.
  split; [|split].
  - intros run.
    pose proof (download_model_status toy_md5 toy_sha256 manager
                  "speech-model" speech true false installed run.1 run.2
                  eq_refl (surjective_pairing run)) as H.
    cbv zeta in H. destruct H as (Halready & _ & _).
    destruct Halready as [Hr Hmodels].
    { split; [vm_compute; eauto|]. split; [reflexivity|].
      vm_compute. reflexivity. }
    split; [exact Hr|]. by rewrite Hmodels.
  - intros run.
    pose proof (download_model_status toy_md5 toy_sha256 manager
                  "speech-model" speech true false fresh run.1 run.2
                  eq_refl (surjective_pairing run)) as H.
    cbv zeta in H. destruct H as (_ & Hfetched & _).
    rewrite Hfetched.
    + reflexivity.
    + intros ([data Hfile] & _). vm_compute in Hfile. discriminate Hfile.
    + vm_compute. reflexivity.
  - intros run.
    pose proof (download_model_status toy_md5 toy_sha256 manager
                  "speech-model" speech true true offline run.1 run.2
                  eq_refl (surjective_pairing run)) as H.
    cbv zeta in H. destruct H as (_ & _ & Hfailed).
    apply Hfailed.
    assert (run.1 = Ok false) as -> by (vm_compute; reflexivity).
    discriminate.
Defined.
